(** * surf_scrap: a shallow embedding of [surf_scrap/__init__.py]

    The Python module exports one function, [scrape_surf_report], built
    from a handful of private helpers.  Every helper that the properties
    below talk about is transcribed here as an executable Rocq function:

    - Python [int] is [Z]; [str] is [string], the bytes of its UTF-8
      encoding;
    - Python [float] is the binary64 instance of [spec_float];
    - [Optional[T]] is [option T];
    - a call that may raise is a value of [result], an error monad whose
      [Raise] carries the Python exception class;
    - the filesystem, the HTTP client and standard output are explicit
      state, threaded through the top-level function. *)

From Stdlib Require Import ZArith QArith Qround Qpower String Ascii List Bool Lia.
From Stdlib Require Import Permutation Sorted DecimalString.
From Stdlib Require Import Floats.SpecFloat DecimalPos DecimalZ.
Import ListNotations.

Open Scope string_scope.
Open Scope list_scope.
Open Scope Z_scope.

(** ** Exceptions and the error monad *)

Inductive exn : Type :=
| ValueError
| OverflowError
| IndexError
| KeyError
| RuntimeError (msg : string)
| HTTPError
| RequestException
| OSError.

Inductive result (A : Type) : Type :=
| Ret (a : A)
| Raise (e : exn).

Arguments Ret {A} a.
Arguments Raise {A} e.

Definition bind {A B : Type} (c : result A) (k : A -> result B) : result B :=
  match c with
  | Ret a => k a
  | Raise e => Raise e
  end.

Notation "x <- c ;; k" := (bind c (fun x => k))
  (at level 61, c at next level, right associativity).

(** [try: c except ValueError: h] *)
Definition except_ValueError {A : Type} (c : result A) (h : result A) : result A :=
  match c with
  | Raise ValueError => h
  | other => other
  end.

Definition returns {A : Type} (c : result A) : Prop := exists a, c = Ret a.

(** ** Python sequence indexing

    [l[i]]: a negative index counts from the end, an index outside
    [-len(l) .. len(l)-1] raises [IndexError]. *)

Definition py_getitem {A : Type} (l : list A) (i : Z) : result A :=
  let n := Z.of_nat (List.length l) in
  let j := if i <? 0 then i + n else i in
  if (0 <=? j) && (j <? n) then
    match nth_error l (Z.to_nat j) with
    | Some a => Ret a
    | None => Raise IndexError
    end
  else Raise IndexError.

(** ** Lookup tables *)

Definition _FR_WEEKDAYS : list string :=
  ["Lundi"; "Mardi"; "Mercredi"; "Jeudi"; "Vendredi"; "Samedi"; "Dimanche"].

Definition _FR_MONTHS : list string :=
  ["Janvier"; "Février"; "Mars"; "Avril"; "Mai"; "Juin";
   "Juillet"; "Août"; "Septembre"; "Octobre"; "Novembre"; "Décembre"].

Definition _FR_COMPASS_16 : list string :=
  ["Nord"; "Nord Nord Est"; "Nord Est"; "Est Nord Est";
   "Est"; "Est Sud Est"; "Sud Est"; "Sud Sud Est";
   "Sud"; "Sud Sud Ouest"; "Sud Ouest"; "Ouest Sud Ouest";
   "Ouest"; "Ouest Nord Ouest"; "Nord Ouest"; "Nord Nord Ouest"].

(** ** The compass mapper

    [deg % 360] is Python's floored modulo, which is [Z.modulo] for a
    positive divisor.  [deg + 11.25] and [22.5] are dyadic rationals with
    a handful of bits, so the float addition and the float floor division
    [//] are exact for [0 <= deg < 360]: the arithmetic is carried out in
    [Q], where it is exact by construction. *)

Definition compass_index (deg : Z) : Z :=
  Qfloor ((inject_Z deg + 11.25) / 22.5) mod 16.

Definition _deg_to_fr_compass (deg : Z) : result string :=
  let deg := deg mod 360 in
  let idx := compass_index deg in
  py_getitem _FR_COMPASS_16 idx.

(** ** Characters and strings

    A [str] is modelled by its UTF-8 encoding, the [string] of its bytes:
    the program compares, concatenates, strips and matches its strings and
    never indexes them.  Two classes of characters matter: those for which
    [str.isspace()] holds, behind [str.strip()] and [\s], and the decimal
    digits, behind [\d], [float()] and [int()].  Both are taken from the
    Unicode 14.0 database of CPython 3.11, given by their code points and
    recognised in a text by their encodings. *)

Definition char_code (c : ascii) : Z := Z.of_N (N_of_ascii c).

Definition char_of_code (n : Z) : ascii := ascii_of_N (Z.to_N n).

(** The UTF-8 encoding of a code point. *)
Definition utf8 (n : Z) : list ascii :=
  if n <? 128 then [char_of_code n]
  else if n <? 2048 then
    [char_of_code (192 + n / 64); char_of_code (128 + n mod 64)]
  else if n <? 65536 then
    [char_of_code (224 + n / 4096); char_of_code (128 + n / 64 mod 64);
     char_of_code (128 + n mod 64)]
  else
    [char_of_code (240 + n / 262144); char_of_code (128 + n / 4096 mod 64);
     char_of_code (128 + n / 64 mod 64); char_of_code (128 + n mod 64)].

(** The code points for which [str.isspace()] holds: TAB, LF, VT, FF, CR,
    FS, GS, RS, US, SPACE, NEL, the no-break space and the spaces and
    separators beyond Latin-1. *)
Definition space_points : list Z :=
  [9; 10; 11; 12; 13; 28; 29; 30; 31; 32; 133; 160; 5760;
   8192; 8193; 8194; 8195; 8196; 8197; 8198; 8199; 8200; 8201; 8202;
   8232; 8233; 8239; 8287; 12288].

(** The decimal digits come in runs of ten, from the zero of a script to
    its nine: the code points of the sixty-six zeros. *)
Definition digit_zeros : list Z :=
  [48; 1632; 1776; 1984; 2406; 2534; 2662; 2790; 2918; 3046; 3174; 3302;
   3430; 3558; 3664; 3792; 3872; 4160; 4240; 6112; 6160; 6470; 6608; 6784;
   6800; 6992; 7088; 7232; 7248; 42528; 43216; 43264; 43472; 43504; 43600;
   44016; 65296; 66720; 68912; 69734; 69872; 69942; 70096; 70384; 70736;
   70864; 71248; 71360; 71472; 71904; 72016; 72784; 73040; 73120; 92768;
   92864; 93008; 120782; 120792; 120802; 120812; 120822; 123200; 123632;
   125264; 130032].

(** C's [isspace] and [isdigit], used by [float()] on the bytes of the
    text it has made ASCII. *)
Definition is_c_space (c : ascii) : bool :=
  let n := char_code c in
  ((9 <=? n) && (n <=? 13)) || (n =? 32).

Definition is_c_digit (c : ascii) : bool :=
  let n := char_code c in (48 <=? n) && (n <=? 57).

Definition digit_val (c : ascii) : Z := char_code c - 48.

Definition digit_char (d : Z) : ascii := ascii_of_N (Z.to_N (48 + d)).

Definition to_lower (c : ascii) : ascii :=
  let n := char_code c in
  if (65 <=? n) && (n <=? 90) then ascii_of_N (Z.to_N (n + 32)) else c.

Definition quote_char : ascii := ascii_of_N 34.
Definition newline_char : ascii := ascii_of_N 10.

Fixpoint drop_while (p : ascii -> bool) (s : list ascii) : list ascii :=
  match s with
  | c :: s' => if p c then drop_while p s' else s
  | [] => []
  end.

Fixpoint take_while (p : ascii -> bool) (s : list ascii) : list ascii :=
  match s with
  | c :: s' => if p c then c :: take_while p s' else []
  | [] => []
  end.

Definition strip_with (p : ascii -> bool) (s : list ascii) : list ascii :=
  rev (drop_while p (rev (drop_while p s))).

(** [prefix] matched literally at the head of [s]: what follows it. *)
Fixpoint match_lit (lit s : list ascii) : option (list ascii) :=
  match lit, s with
  | [], _ => Some s
  | a :: lit', c :: s' => if Ascii.eqb a c then match_lit lit' s' else None
  | _ :: _, [] => None
  end.

Definition chars (s : string) : list ascii := list_ascii_of_string s.

(** A class of characters as a table: the encoding of each member and a
    number that goes with it, the code point of a white space, the value
    of a digit. *)
Definition space_table : list (list ascii * Z) :=
  Eval vm_compute in map (fun n => (utf8 n, n)) space_points.

Definition digit_table : list (list ascii * Z) :=
  Eval vm_compute in
    flat_map (fun z => map (fun d => (utf8 (z + d), d)) [0; 1; 2; 3; 4; 5; 6; 7; 8; 9])
      digit_zeros.

(** The same encodings read from the end of a text. *)
Definition backwards (table : list (list ascii * Z)) : list (list ascii * Z) :=
  map (fun e => (rev (fst e), snd e)) table.

Definition space_table_back : list (list ascii * Z) :=
  Eval vm_compute in backwards space_table.

(** The tables are for computing with, not for unfolding in a proof. *)
Opaque space_table space_table_back digit_table.

(** The member of a class that [s] starts with: its number, and the text
    after it. *)
Fixpoint lookup_prefix (table : list (list ascii * Z)) (s : list ascii)
  : option (Z * list ascii) :=
  match table with
  | [] => None
  | (code, v) :: table' =>
      match match_lit code s with
      | Some rest => Some (v, rest)
      | None => lookup_prefix table' s
      end
  end.

(** One member of a class at the head of a text: what follows it. *)
Definition class_step (table : list (list ascii * Z)) (s : list ascii)
  : option (list ascii) :=
  option_map snd (lookup_prefix table s).

(** One white space at the head of a text, and one at its end, the text
    being given last byte first. *)
Definition space_here : list ascii -> option (list ascii) := class_step space_table.

Definition space_back : list ascii -> option (list ascii) :=
  class_step space_table_back.

(** One decimal digit at the head of a text: its value and what follows. *)
Definition digit_here (s : list ascii) : option (Z * list ascii) :=
  lookup_prefix digit_table s.

Definition digit_rest : list ascii -> option (list ascii) := class_step digit_table.

(** [step] for as long as it applies.  A step takes at least one byte, so
    the length of the text is fuel enough. *)
Fixpoint skip_fuel (step : list ascii -> option (list ascii)) (fuel : nat)
         (s : list ascii) : list ascii :=
  match fuel with
  | O => s
  | S n =>
      match step s with
      | Some rest => skip_fuel step n rest
      | None => s
      end
  end.

Definition skip (step : list ascii -> option (list ascii)) (s : list ascii)
  : list ascii :=
  skip_fuel step (List.length s) s.

(** [\s*] and [\d*], greedy. *)
Definition skip_spaces : list ascii -> list ascii := skip space_here.
Definition skip_digits : list ascii -> list ascii := skip digit_rest.

(** [x.strip()] *)
Definition strip (x : string) : string :=
  string_of_list_ascii (rev (skip space_back (rev (skip_spaces (chars x))))).

(** Decimal value of a run of digits, most significant first. *)
Definition digits_value (ds : list ascii) : Z :=
  fold_left (fun acc c => 10 * acc + digit_val c) ds 0.

(** [str(n)] for an integer. *)
Definition str_of_int (n : Z) : string := NilZero.string_of_int (Z.to_int n).

(** ** [float(x)]: text to binary64

    CPython's [PyFloat_FromString]: make the text ASCII, strip C
    whitespace at both ends, check and remove PEP 515 underscores (each one
    between two digits), then read an optionally signed decimal literal, or
    [inf], [infinity] or [nan] in any letter case.  The whole text must be
    consumed, anything else is a [ValueError].  The decimal value is rounded to the nearest binary64,
    ties to even; a magnitude beyond the largest finite value becomes an
    infinity. *)

Definition binary64 : Type := spec_float.
Definition prec64 : Z := 53.
Definition emax64 : Z := 1024.

Definition is_ascii (s : list ascii) : bool :=
  forallb (fun c => char_code c <? 128) s.

(** [_PyUnicode_TransformDecimalAndSpaceToASCII]: an ASCII text is left as
    it is.  In any other text a character below 127 is kept, a white space
    becomes a space, a decimal digit the ASCII digit of its value, and at
    the first character that is none of these the text ends on a question
    mark. *)
Fixpoint to_ascii_fuel (fuel : nat) (s : list ascii) : list ascii :=
  match fuel, s with
  | S n, c :: s' =>
      if char_code c <? 127 then c :: to_ascii_fuel n s'
      else
        match space_here s with
        | Some rest => " "%char :: to_ascii_fuel n rest
        | None =>
            match digit_here s with
            | Some (d, rest) => digit_char d :: to_ascii_fuel n rest
            | None => ["?"%char]
            end
        end
  | _, _ => []
  end.

Definition to_ascii (s : list ascii) : list ascii :=
  if is_ascii s then s else to_ascii_fuel (List.length s) s.

(** Underscores are only allowed after a digit and before a digit. *)
Fixpoint remove_underscores (prev : option ascii) (s : list ascii)
  : option (list ascii) :=
  match s with
  | [] =>
      match prev with
      | Some p => if Ascii.eqb p "_" then None else Some []
      | None => Some []
      end
  | c :: s' =>
      if Ascii.eqb c "_" then
        match prev with
        | Some p => if is_c_digit p then remove_underscores (Some c) s' else None
        | None => None
        end
      else
        let bad :=
          match prev with
          | Some p => Ascii.eqb p "_" && negb (is_c_digit c)
          | None => false
          end in
        if bad then None
        else option_map (cons c) (remove_underscores (Some c) s')
  end.

Definition parse_sign (s : list ascii) : bool * list ascii :=
  match s with
  | c :: s' =>
      if Ascii.eqb c "-" then (true, s')
      else if Ascii.eqb c "+" then (false, s')
      else (false, s)
  | [] => (false, [])
  end.

(** A decimal literal [digits [. digits] [e [sign] digits]] with at least
    one digit in the mantissa, read to the end of the text: its integer
    mantissa [M] and decimal exponent [E], standing for [M * 10^E]. *)
Definition parse_decimal (s : list ascii) : option (Z * Z) :=
  let ip := take_while is_c_digit s in
  let r1 := drop_while is_c_digit s in
  let '(fp, r2) :=
    match r1 with
    | c :: r' =>
        if Ascii.eqb c "." then (take_while is_c_digit r', drop_while is_c_digit r')
        else ([], r1)
    | [] => ([], r1)
    end in
  match ip ++ fp with
  | [] => None
  | _ :: _ =>
      let M := digits_value (ip ++ fp) in
      let E0 := - Z.of_nat (List.length fp) in
      match r2 with
      | [] => Some (M, E0)
      | c :: r3 =>
          if Ascii.eqb (to_lower c) "e" then
            let '(eneg, r4) := parse_sign r3 in
            let ed := take_while is_c_digit r4 in
            match ed, drop_while is_c_digit r4 with
            | _ :: _, [] =>
                let e := digits_value ed in
                Some (M, E0 + (if eneg then - e else e))
            | _, _ => None
            end
          else None
      end
  end.

Definition parse_inf_or_nan (neg : bool) (s : list ascii) : option binary64 :=
  let l := string_of_list_ascii (map to_lower s) in
  if (l =? "inf")%string || (l =? "infinity")%string then Some (S754_infinity neg)
  else if (l =? "nan")%string then Some S754_nan
  else None.

(** [M * 10^E], correctly rounded.  A quotient of two integers is rounded
    once, from the exact quotient and remainder. *)
Definition decimal_to_binary64 (neg : bool) (M E : Z) : binary64 :=
  match M with
  | Zpos m =>
      if 0 <=? E then
        binary_normalize prec64 emax64 (if neg then - (M * 10 ^ E) else M * 10 ^ E) 0 false
      else
        SFdiv prec64 emax64
          (S754_finite neg m 0)
          (S754_finite false (Z.to_pos (10 ^ (- E))) 0)
  | _ => S754_zero neg
  end.

Definition py_float (x : string) : result binary64 :=
  let s := strip_with is_c_space (to_ascii (chars x)) in
  match remove_underscores None s with
  | None => Raise ValueError
  | Some s' =>
      let '(neg, body) := parse_sign s' in
      match parse_decimal body with
      | Some (M, E) => Ret (decimal_to_binary64 neg M E)
      | None =>
          match parse_inf_or_nan neg body with
          | Some f => Ret f
          | None => Raise ValueError
          end
      end
  end.

(** [int(f)] for a float: the integral part, towards zero; [nan] is a
    [ValueError] and an infinity an [OverflowError]. *)
Definition py_int_of_float (f : binary64) : result Z :=
  match f with
  | S754_nan => Raise ValueError
  | S754_infinity _ => Raise OverflowError
  | S754_zero _ => Ret 0
  | S754_finite s m e =>
      let mag := Z.shiftl (Zpos m) e in
      Ret (if s then - mag else mag)
  end.

(** ** The field decoders *)

Definition _safe_float (x : option string) : result (option binary64) :=
  match x with
  | None => Ret None
  | Some x =>
      let x := strip x in
      if (x =? "")%string || (x =? "-")%string then Ret None
      else
        except_ValueError
          (f <- py_float x ;; Ret (Some f))
          (Ret None)
  end.

Definition _safe_int (x : option string) : result (option Z) :=
  match x with
  | None => Ret None
  | Some x =>
      let x := strip x in
      if (x =? "")%string || (x =? "-")%string then Ret None
      else
        except_ValueError
          (f <- py_float x ;; n <- py_int_of_float f ;; Ret (Some n))
          (Ret None)
  end.

(** ** Formatting numbers *)

Definition pad2 (n : Z) : string :=
  String (digit_char (n / 10 mod 10)) (String (digit_char (n mod 10)) "").

(** Nearest integer to [n / d], ties to even ([0 <= n], [0 < d]). *)
Definition round_half_even_div (n d : Z) : Z :=
  let q := n / d in
  let r := n mod d in
  match 2 * r ?= d with
  | Lt => q
  | Gt => q + 1
  | Eq => if Z.even q then q else q + 1
  end.

(** [f"{x:.1f}"]: one digit after the point, the exact binary value
    rounded to the nearest tenth, ties to even. *)
Definition format_1f (x : binary64) : string :=
  match x with
  | S754_nan => "nan"
  | S754_infinity s => if s then "-inf" else "inf"
  | S754_zero s => if s then "-0.0" else "0.0"
  | S754_finite s m e =>
      let tenths :=
        if 0 <=? e then Zpos m * 2 ^ e * 10
        else round_half_even_div (Zpos m * 10) (2 ^ (- e)) in
      ((if s then "-" else "") ++ str_of_int (tenths / 10) ++ "."
         ++ str_of_int (tenths mod 10))%string
  end.

(** ** [datetime]

    A naive [datetime] with second resolution, as [strptime] builds it from
    the pattern [%Y-%m-%d %H:%M:%S].  The calendar helpers are those of
    CPython's [_pydatetime]. *)

Record datetime : Type := mk_datetime {
  year : Z; month : Z; day : Z; hour : Z; minute : Z; second : Z
}.

Definition _is_leap (y : Z) : bool :=
  (y mod 4 =? 0) && (negb (y mod 100 =? 0) || (y mod 400 =? 0)).

Definition _DAYS_IN_MONTH : list Z :=
  [-1; 31; 28; 31; 30; 31; 30; 31; 31; 30; 31; 30; 31].

Definition _DAYS_BEFORE_MONTH : list Z :=
  [-1; 0; 31; 59; 90; 120; 151; 181; 212; 243; 273; 304; 334].

Definition _days_in_month (y m : Z) : Z :=
  if (m =? 2) && _is_leap y then 29
  else nth (Z.to_nat m) _DAYS_IN_MONTH 0.

Definition _days_before_year (y : Z) : Z :=
  let y := y - 1 in
  y * 365 + y / 4 - y / 100 + y / 400.

Definition _days_before_month (y m : Z) : Z :=
  nth (Z.to_nat m) _DAYS_BEFORE_MONTH 0
  + (if (2 <? m) && _is_leap y then 1 else 0).

Definition _ymd2ord (y m d : Z) : Z :=
  _days_before_year y + _days_before_month y m + d.

(** [d.weekday()]: Monday is 0. *)
Definition weekday (d : datetime) : Z :=
  (_ymd2ord (year d) (month d) (day d) + 6) mod 7.

(** The range checks of the [datetime] constructor. *)
Definition valid_datetime (d : datetime) : bool :=
  (1 <=? year d) && (year d <=? 9999)
  && (1 <=? month d) && (month d <=? 12)
  && (1 <=? day d) && (day d <=? _days_in_month (year d) (month d))
  && (0 <=? hour d) && (hour d <=? 23)
  && (0 <=? minute d) && (minute d <=? 59)
  && (0 <=? second d) && (second d <=? 59).

Definition obind {A B : Type} (c : option A) (k : A -> option B) : option B :=
  match c with
  | Some a => k a
  | None => None
  end.

Notation "x <-? c ;; k" := (obind c (fun x => k))
  (at level 61, c at next level, right associativity).
Notation "' p <-? c ;; k" := (obind c (fun x => let 'p := x in k))
  (at level 61, p pattern, c at next level, right associativity).

(** A decimal digit as a pattern sees it: whether it is an ASCII digit,
    and its value. *)
Definition is_ascii_head (s : list ascii) : bool :=
  match s with
  | c :: _ => char_code c <? 128
  | [] => false
  end.

(** [\d{n}] at the head of [s]: the digits and what follows. *)
Fixpoint read_digits (n : nat) (s : list ascii)
  : option (list (bool * Z) * list ascii) :=
  match n with
  | O => Some ([], s)
  | S n' =>
      ' (v, rest) <-? digit_here s ;;
      ' (ds, rest') <-? read_digits n' rest ;;
      Some ((is_ascii_head s, v) :: ds, rest')
  end.

(** [int(text)] for a run of decimal digits, most significant first. *)
Definition int_of_digits (ds : list (bool * Z)) : Z :=
  fold_left (fun acc d => 10 * acc + snd d) ds 0.

(** The six runs of digits of a timestamp. *)
Record stamp : Type := mk_stamp {
  Y_digits : list (bool * Z);
  m_digits : list (bool * Z);
  d_digits : list (bool * Z);
  H_digits : list (bool * Z);
  M_digits : list (bool * Z);
  S_digits : list (bool * Z)
}.

(** The timestamp literal [\d{4}-\d{2}-\d{2} \d{2}:\d{2}:\d{2}] of the
    entry pattern at the head of [s]. *)
Definition read_timestamp (s : list ascii) : option (stamp * list ascii) :=
  ' (y, s) <-? read_digits 4 s ;;
  s <-? match_lit (chars "-") s ;;
  ' (mo, s) <-? read_digits 2 s ;;
  s <-? match_lit (chars "-") s ;;
  ' (d, s) <-? read_digits 2 s ;;
  s <-? match_lit (chars " ") s ;;
  ' (h, s) <-? read_digits 2 s ;;
  s <-? match_lit (chars ":") s ;;
  ' (mi, s) <-? read_digits 2 s ;;
  s <-? match_lit (chars ":") s ;;
  ' (se, s) <-? read_digits 2 s ;;
  Some (mk_stamp y mo d h mi se, s).

(** An ASCII digit from [lo] to [hi]: the class [[lo-hi]] of a directive. *)
Definition ascii_digit (lo hi : Z) (d : bool * Z) : bool :=
  fst d && (lo <=? snd d) && (snd d <=? hi).

(** The alternatives of the directives that fit two digits followed by a
    separator: [%m] is [1[0-2]|0[1-9]], [%d] is [3[0-1]|[1-2]\d|0[1-9]],
    [%H] is [2[0-3]|[0-1]\d], [%M] is [[0-5]\d] and [%S] is
    [6[0-1]|[0-5]\d], where [\d] is any decimal digit. *)
Definition directive_m (ds : list (bool * Z)) : bool :=
  match ds with
  | [a; b] => (ascii_digit 1 1 a && ascii_digit 0 2 b)
              || (ascii_digit 0 0 a && ascii_digit 1 9 b)
  | _ => false
  end.

Definition directive_d (ds : list (bool * Z)) : bool :=
  match ds with
  | [a; b] => (ascii_digit 3 3 a && ascii_digit 0 1 b)
              || ascii_digit 1 2 a
              || (ascii_digit 0 0 a && ascii_digit 1 9 b)
  | _ => false
  end.

Definition directive_H (ds : list (bool * Z)) : bool :=
  match ds with
  | [a; b] => (ascii_digit 2 2 a && ascii_digit 0 3 b) || ascii_digit 0 1 a
  | _ => false
  end.

Definition directive_M (ds : list (bool * Z)) : bool :=
  match ds with
  | [a; _] => ascii_digit 0 5 a
  | _ => false
  end.

Definition directive_S (ds : list (bool * Z)) : bool :=
  match ds with
  | [a; b] => (ascii_digit 6 6 a && ascii_digit 0 1 b) || ascii_digit 0 5 a
  | _ => false
  end.

Definition directives (t : stamp) : bool :=
  directive_m (m_digits t) && directive_d (d_digits t) && directive_H (H_digits t)
  && directive_M (M_digits t) && directive_S (S_digits t).

Definition stamp_datetime (t : stamp) : datetime :=
  mk_datetime (int_of_digits (Y_digits t)) (int_of_digits (m_digits t))
    (int_of_digits (d_digits t)) (int_of_digits (H_digits t))
    (int_of_digits (M_digits t)) (int_of_digits (S_digits t)).

(** [datetime.strptime(dt_str, "%Y-%m-%d %H:%M:%S")] on a timestamp
    literal of the shape above, the only shape the entry pattern lets
    through.  The text must fit the directives, which want ASCII digits
    where they name a range; the numbers are then read with [int], and the
    constructor rejects year 0, a day beyond the month's length and
    seconds 60 and 61.  Every rejection is a [ValueError]. *)
Definition strptime (dt_str : string) : result datetime :=
  match read_timestamp (chars dt_str) with
  | Some (t, []) =>
      if directives t && valid_datetime (stamp_datetime t)
      then Ret (stamp_datetime t)
      else Raise ValueError
  | _ => Raise ValueError
  end.

(** [dt.strftime("%H:%M")] *)
Definition strftime_HM (d : datetime) : string :=
  (pad2 (hour d) ++ ":" ++ pad2 (minute d))%string.

(** [dt.strftime("%Y-%m-%d")], through the C library: glibc writes the
    year as it is, without padding. *)
Definition strftime_Ymd (d : datetime) : string :=
  (str_of_int (year d) ++ "-" ++ pad2 (month d) ++ "-" ++ pad2 (day d))%string.

Definition _format_fr_date (d : datetime) : result string :=
  wd <- py_getitem _FR_WEEKDAYS (weekday d) ;;
  mo <- py_getitem _FR_MONTHS (month d - 1) ;;
  Ret (wd ++ " " ++ str_of_int (day d) ++ " " ++ mo)%string.

(** Comparison of two [datetime]s: their field tuples, lexicographically. *)
Definition dt_tuple (d : datetime) : list Z :=
  [year d; month d; day d; hour d; minute d; second d].

Fixpoint tuple_cmp (a b : list Z) : comparison :=
  match a, b with
  | [], [] => Eq
  | [], _ :: _ => Lt
  | _ :: _, [] => Gt
  | x :: a', y :: b' =>
      match x ?= y with
      | Eq => tuple_cmp a' b'
      | c => c
      end
  end.

Definition dt_leb (a b : datetime) : bool :=
  match tuple_cmp (dt_tuple a) (dt_tuple b) with
  | Gt => false
  | _ => true
  end.

Definition dt_ltb (a b : datetime) : bool :=
  match tuple_cmp (dt_tuple a) (dt_tuple b) with
  | Lt => true
  | _ => false
  end.

(** ** The two patterns

    Both regular expressions are matched by hand, on the bytes of the
    text: a literal, a quote or a line break is one byte, a white space or
    a digit is the encoding of one.  Every greedy repetition in them is
    followed by a character outside its class, so a match, when there is
    one, is found without backtracking; the one exception is the [\s*] in
    front of the lazy body of an entry, which is given back one character
    at a time. *)

Definition not_quote (c : ascii) : bool := negb (Ascii.eqb c quote_char).

(** The field pattern at the head of [s]: the bracketed, quoted field
    name, [\s*=>\s*string\(\d+\)\s*], then a quoted value free of quotes,
    which is the captured group. *)
Definition field_here (field : string) (s : list ascii) : option (list ascii) :=
  s <-? match_lit (chars "[" ++ quote_char :: chars field ++ quote_char :: chars "]") s ;;
  s <-? match_lit (chars "=>") (skip_spaces s) ;;
  s <-? match_lit (chars "string(") (skip_spaces s) ;;
  match digit_here s with
  | None => None
  | Some _ =>
      s <-? match_lit (chars ")") (skip_digits s) ;;
      s <-? match_lit [quote_char] (skip_spaces s) ;;
      _ <-? match_lit [quote_char] (drop_while not_quote s) ;;
      Some (take_while not_quote s)
  end.

(** [re.search]: the leftmost position where the pattern matches. *)
Fixpoint search_field (field : string) (s : list ascii) : option (list ascii) :=
  match field_here field s with
  | Some v => Some v
  | None =>
      match s with
      | [] => None
      | _ :: s' => search_field field s'
      end
  end.

Definition _extract_phpdump_string (body field : string) : option string :=
  option_map string_of_list_ascii (search_field field (chars body)).

(** One match of [_ENTRY_PATTERN]: its groups [dt] and [body]. *)
Record entry_match : Type := mk_match { m_dt : string; m_body : string }.

(** [\n\s*\}] at the head of [s]: what follows it. *)
Definition close_here (s : list ascii) : option (list ascii) :=
  match s with
  | c :: s' =>
      if Ascii.eqb c newline_char
      then match_lit (chars "}") (skip_spaces s')
      else None
  | [] => None
  end.

(** [(.*?)\n\s*\}] under [re.S]: the shortest body after which the closing
    line matches, and what follows the match. *)
Fixpoint lazy_body (s : list ascii) : option (list ascii * list ascii) :=
  match close_here s with
  | Some rest => Some ([], rest)
  | None =>
      match s with
      | [] => None
      | c :: s' =>
          ' (b, rest) <-? lazy_body s' ;;
          Some (c :: b, rest)
      end
  end.

(** [\s*(.*?)\n\s*\}]: the longest run of white space first, given back
    one character at a time. *)
Fixpoint spaces_then_body_fuel (fuel : nat) (s : list ascii)
  : option (list ascii * list ascii) :=
  match fuel with
  | O => lazy_body s
  | S n =>
      match space_here s with
      | Some s' =>
          match spaces_then_body_fuel n s' with
          | Some r => Some r
          | None => lazy_body s
          end
      | None => lazy_body s
      end
  end.

Definition spaces_then_body (s : list ascii) : option (list ascii * list ascii) :=
  spaces_then_body_fuel (List.length s) s.

(** The whole entry pattern at the head of [s]: the match and what follows
    it. *)
Definition entry_here (s : list ascii) : option (entry_match * list ascii) :=
  s0 <-? match_lit [ascii_of_N 91; quote_char] s ;;
  ' (_, s) <-? read_timestamp s0 ;;
  let dt := firstn (List.length s0 - List.length s) s0 in
  s <-? match_lit [quote_char; ascii_of_N 93] s ;;
  s <-? match_lit (chars "=>") (skip_spaces s) ;;
  s <-? match_lit (chars "object(stdClass)#") (skip_spaces s) ;;
  match digit_here s with
  | None => None
  | Some _ =>
      s <-? match_lit (chars "(") (skip_spaces (skip_digits s)) ;;
      match digit_here s with
      | None => None
      | Some _ =>
          s <-? match_lit (chars ")") (skip_digits s) ;;
          s <-? match_lit (chars "{") (skip_spaces s) ;;
          ' (body, rest) <-? spaces_then_body s ;;
          Some (mk_match (string_of_list_ascii dt) (string_of_list_ascii body), rest)
      end
  end.

(** [_ENTRY_PATTERN.finditer(html)]: matches from left to right, each
    search resuming where the previous match ended.  [skip] counts the
    characters of the current match still to be passed over. *)
Fixpoint finditer_from (skip : nat) (s : list ascii) : list entry_match :=
  match s with
  | [] => []
  | _ :: s' =>
      match skip with
      | S k => finditer_from k s'
      | O =>
          match entry_here s with
          | Some (m, rest) =>
              m :: finditer_from (List.length s' - List.length rest) s'
          | None => finditer_from 0 s'
          end
      end
  end.

Definition finditer (html : string) : list entry_match :=
  finditer_from 0 (chars html).

(** ** Rows *)

(** One dictionary appended to [rows]: the technical key [_dt] and the
    five columns. *)
Record row : Type := mk_row {
  _dt : datetime;
  Date : string;
  Time : string;
  Wave_size : string;
  Wind_speed : string;
  Wind_direction : string
}.

Definition target_times : list string :=
  ["06:00"; "09:00"; "12:00"; "15:00"; "18:00"; "21:00"].

(** [x in xs] for strings. *)
Definition str_in (x : string) (xs : list string) : bool :=
  existsb (String.eqb x) xs.

(** The body of the [for m in _ENTRY_PATTERN.finditer(html)] loop: the
    value of [rows] after the iteration, or the exception that leaves the
    function. *)
Definition entry_step (rows : list row) (m : entry_match) : result (list row) :=
  let dt_str := m_dt m in
  let body := m_body m in
  dt <- strptime dt_str ;;
  let time_hm := strftime_HM dt in
  if negb (str_in time_hm target_times) then Ret rows
  else
    houle <- _safe_float (_extract_phpdump_string body "houle") ;;
    houle_max <- _safe_float (_extract_phpdump_string body "houleMax") ;;
    vent <- _safe_int (_extract_phpdump_string body "ventMoyen") ;;
    dir_deg <- _safe_int (_extract_phpdump_string body "directionVent") ;;
    match houle, houle_max, vent, dir_deg with
    | Some houle, Some houle_max, Some vent, Some dir_deg =>
        date <- _format_fr_date dt ;;
        wind_direction <- _deg_to_fr_compass dir_deg ;;
        Ret (rows ++ [ {| _dt := dt;
                          Date := date;
                          Time := time_hm;
                          Wave_size := (format_1f houle ++ "m - "
                                          ++ format_1f houle_max ++ "m")%string;
                          Wind_speed := (str_of_int vent ++ "km/h")%string;
                          Wind_direction := wind_direction |} ])
    | _, _, _, _ => Ret rows
    end.

Fixpoint collect_rows (rows : list row) (ms : list entry_match) : result (list row) :=
  match ms with
  | [] => Ret rows
  | m :: ms' => rows' <- entry_step rows m ;; collect_rows rows' ms'
  end.

(** ** Sorting and the seven-day cut

    [rows.sort(key=lambda r: r["_dt"])] is a stable sort: rows with equal
    timestamps keep their relative order.  A stable sort is determined by
    its input and its key, so it is written as the stable insertion sort. *)

Fixpoint insert_row (r : row) (l : list row) : list row :=
  match l with
  | [] => [r]
  | x :: l' =>
      if dt_ltb (_dt x) (_dt r) then x :: insert_row r l'
      else r :: l
  end.

Fixpoint sort_rows (l : list row) : list row :=
  match l with
  | [] => []
  | r :: l' => insert_row r (sort_rows l')
  end.

Definition date_key_of (r : row) : string := strftime_Ymd (_dt r).

(** The second loop, from the state [(seen_dates, filtered)].  [break]
    returns the state as it stands. *)
Fixpoint keep_days (rows : list row) (seen_dates : list string) (filtered : list row)
  : list string * list row :=
  match rows with
  | [] => (seen_dates, filtered)
  | r :: rows' =>
      let date_key := date_key_of r in
      if negb (str_in date_key seen_dates) then
        if (7 <=? Z.of_nat (List.length seen_dates)) then (seen_dates, filtered)
        else
          let seen_dates := seen_dates ++ [date_key] in
          if str_in date_key seen_dates
          then keep_days rows' seen_dates (filtered ++ [r])
          else keep_days rows' seen_dates filtered
      else
        if str_in date_key seen_dates
        then keep_days rows' seen_dates (filtered ++ [r])
        else keep_days rows' seen_dates filtered
  end.

Definition first_seven_days (rows : list row) : list row :=
  snd (keep_days (sort_rows rows) [] []).

(** ** The table

    [pd.DataFrame(filtered)[[...]]]: the five named columns of the kept
    rows, in order.  A frame built from no dictionary has no column, and
    selecting one from it is a [KeyError]. *)

Record DataFrame : Type := mk_frame {
  columns : list string;
  records : list (list string)
}.

Definition COLUMNS : list string :=
  ["Date"; "Time"; "Wave_size"; "Wind_speed"; "Wind_direction"].

Definition row_cells (r : row) : list string :=
  [Date r; Time r; Wave_size r; Wind_speed r; Wind_direction r].

Definition select_columns (filtered : list row) : result DataFrame :=
  match filtered with
  | [] => Raise KeyError
  | _ :: _ => Ret (mk_frame COLUMNS (map row_cells filtered))
  end.

Fixpoint join_with (sep : string) (l : list string) : string :=
  match l with
  | [] => ""
  | [x] => x
  | x :: l' => (x ++ sep ++ join_with sep l')%string
  end.

(** The lines [df.to_csv(..., index=False)] writes: the header, then one
    line per record.  No cell of this table holds a comma, a quote or a
    line break, so no cell is quoted. *)
Definition csv_lines (df : DataFrame) : list string :=
  join_with "," (columns df) :: map (join_with ",") (records df).

(** ** Paths ([posixpath]) *)

(** [path.split("/")] *)
Fixpoint split_slash (s : string) : list string :=
  match s with
  | EmptyString => [""]
  | String c s' =>
      if Ascii.eqb c "/" then "" :: split_slash s'
      else
        match split_slash s' with
        | h :: t => String c h :: t
        | [] => [String c ""]
        end
  end.

(** [s.startswith(p)] *)
Fixpoint startswith (p s : string) : bool :=
  match p, s with
  | EmptyString, _ => true
  | String a p', String b s' => Ascii.eqb b a && startswith p' s'
  | String _ _, EmptyString => false
  end.

Definition is_nil {A : Type} (l : list A) : bool :=
  match l with
  | [] => true
  | _ :: _ => false
  end.

(** One turn of the loop of [normpath] over the components. *)
Definition norm_step (initial_slashes : Z) (new_comps : list string) (comp : string)
  : list string :=
  if (comp =? "")%string || (comp =? ".")%string then new_comps
  else if negb (comp =? "..")%string
          || ((initial_slashes =? 0) && is_nil new_comps)
          || (negb (is_nil new_comps) && (last new_comps "" =? "..")%string)
  then new_comps ++ [comp]
  else removelast new_comps.

Definition initial_slashes_of (path : string) : Z :=
  if startswith "/" path then
    if startswith "//" path && negb (startswith "///" path) then 2 else 1
  else 0.

Definition slashes (n : Z) : string :=
  string_of_list_ascii (repeat "/"%char (Z.to_nat n)).

Definition normpath (path : string) : string :=
  if (path =? "")%string then "."
  else
    let initial_slashes := initial_slashes_of path in
    let comps := fold_left (norm_step initial_slashes) (split_slash path) [] in
    let path := (slashes initial_slashes ++ join_with "/" comps)%string in
    if (path =? "")%string then "." else path.

(** [s.endswith("/")] *)
Fixpoint ends_with_slash (s : string) : bool :=
  match s with
  | EmptyString => false
  | String c EmptyString => Ascii.eqb c "/"
  | String _ s' => ends_with_slash s'
  end.

(** [os.path.join(a, b)] *)
Definition path_join (a b : string) : string :=
  if startswith "/" b then b
  else if (a =? "")%string || ends_with_slash a then (a ++ b)%string
  else (a ++ "/" ++ b)%string.

Definition is_slash (c : ascii) : bool := Ascii.eqb c "/".

(** [os.path.dirname(p)] *)
Definition dirname (p : string) : string :=
  let rhead := drop_while (fun c => negb (is_slash c)) (rev (chars p)) in
  match drop_while is_slash rhead with
  | [] => string_of_list_ascii (rev rhead)
  | stripped => string_of_list_ascii (rev stripped)
  end.

(** ** The world: network, filesystem, standard output

    A directory or a file is known by the components of its absolute
    path; the root is the empty list and always a directory.  There are no
    symbolic links and no permissions. *)

Record response : Type := mk_response { status_code : Z; text : string }.

Record world : Type := mk_world {
  http : string -> result response;
  cwd : string;
  dirs : list (list string);
  files : list (list string * list string);
  stdout : list string
}.

Definition io (A : Type) : Type := world -> result A * world.

Definition io_ret {A : Type} (a : A) : io A := fun w => (Ret a, w).

Definition io_bind {A B : Type} (c : io A) (k : A -> io B) : io B :=
  fun w =>
    match c w with
    | (Ret a, w') => k a w'
    | (Raise e, w') => (Raise e, w')
    end.

Definition io_lift {A : Type} (c : result A) : io A := fun w => (c, w).

Notation "x <~ c ;; k" := (io_bind c (fun x => k))
  (at level 61, c at next level, right associativity).

Fixpoint key_eqb (a b : list string) : bool :=
  match a, b with
  | [], [] => true
  | x :: a', y :: b' => (x =? y)%string && key_eqb a' b'
  | _, _ => false
  end.

Definition abspath (w : world) (path : string) : string :=
  normpath (if startswith "/" path then path else path_join (cwd w) path).

Definition path_key (w : world) (path : string) : list string :=
  fold_left (norm_step 1) (split_slash (abspath w path)) [].

Definition key_is_dir (w : world) (k : list string) : bool :=
  is_nil k || existsb (key_eqb k) (dirs w).

Definition key_is_file (w : world) (k : list string) : bool :=
  existsb (fun f => key_eqb k (fst f)) (files w).

Definition isdir (w : world) (path : string) : bool :=
  key_is_dir w (path_key w path).

Definition path_exists (w : world) (path : string) : bool :=
  key_is_dir w (path_key w path) || key_is_file w (path_key w path).

Definition add_dir (w : world) (k : list string) : world :=
  mk_world (http w) (cwd w) (dirs w ++ [k]) (files w) (stdout w).

(** [os.makedirs(name, exist_ok=True)]: every missing directory on the way
    to [name] is created, outermost first; a regular file on the way is an
    [OSError], and what was created before it stays. *)
Fixpoint makedirs_from (pre rest : list string) : io unit :=
  fun w =>
    match rest with
    | [] => (Ret tt, w)
    | c :: rest' =>
        let k := pre ++ [c] in
        if key_is_file w k then (Raise OSError, w)
        else makedirs_from k rest' (if key_is_dir w k then w else add_dir w k)
    end.

Definition makedirs (name : string) : io unit :=
  fun w => makedirs_from [] (path_key w name) w.

(** Writing a text file: the parent must be a directory and the path must
    not be one. *)
Definition write_file (path : string) (lines : list string) : io unit :=
  fun w =>
    let k := path_key w path in
    if key_is_dir w k || negb (key_is_dir w (removelast k)) then (Raise OSError, w)
    else
      (Ret tt,
       mk_world (http w) (cwd w) (dirs w)
         ((k, lines) :: filter (fun f => negb (key_eqb k (fst f))) (files w))
         (stdout w)).

Definition print (line : string) : io unit :=
  fun w => (Ret tt, mk_world (http w) (cwd w) (dirs w) (files w) (stdout w ++ [line])).

Definition _ensure_parent_dir (path : string) : io unit :=
  fun w =>
    let parent := dirname (abspath w path) in
    if negb (parent =? "")%string && negb (path_exists w parent)
    then makedirs parent w
    else (Ret tt, w).

Definition _normalize_output_path (w : world) (output_csv_path : option string) : string :=
  match output_csv_path with
  | None => path_join (cwd w) "data_surf.csv"
  | Some output_csv_path =>
      let output_csv_path := abspath w output_csv_path in
      if isdir w output_csv_path then path_join output_csv_path "data_surf.csv"
      else output_csv_path
  end.

(** ** The exported function *)

Definition raise_for_status (resp : response) : result unit :=
  if (400 <=? status_code resp) && (status_code resp <? 600)
  then Raise HTTPError else Ret tt.

Definition no_data_message : string :=
  "Aucune donnée n'a été extraite. Le HTML a peut-être changé ou la page ne contient pas le bloc attendu.".

Definition scrape_surf_report (url : string) (output_csv_path : option string)
  : io DataFrame :=
  resp <~ (fun w => (http w url, w)) ;;
  _ <~ io_lift (raise_for_status resp) ;;
  let html := text resp in
  rows <~ io_lift (collect_rows [] (finditer html)) ;;
  if is_nil rows then io_lift (Raise (RuntimeError no_data_message))
  else
    let filtered := first_seven_days rows in
    df <~ io_lift (select_columns filtered) ;;
    out_path <~ (fun w => (Ret (_normalize_output_path w output_csv_path), w)) ;;
    _ <~ _ensure_parent_dir out_path ;;
    _ <~ write_file out_path (csv_lines df) ;;
    _ <~ print ("[surf_scrap] CSV sauvegardé : " ++ out_path)%string ;;
    io_ret df.

(** ** Reading a float as a number *)

Definition is_finite (f : binary64) : bool :=
  match f with
  | S754_zero _ | S754_finite _ _ _ => true
  | S754_infinity _ | S754_nan => false
  end.

(** The rational a finite float stands for. *)
Definition float_value (f : binary64) : Q :=
  match f with
  | S754_finite s m e =>
      ((if s then -1 else 1) * inject_Z (Zpos m) * 2 ^ e)%Q
  | _ => 0%Q
  end.

(** The integral part of a rational, towards zero. *)
Definition Qtruncate (q : Q) : Z :=
  if Qle_bool 0 q then Qfloor q else Qceiling q.

(** ** Records that lack a field *)

(** One of the four numeric fields of the entry decodes to absent. *)
Definition decodes_absent (m : entry_match) : Prop :=
  _safe_float (_extract_phpdump_string (m_body m) "houle") = Ret None
  \/ _safe_float (_extract_phpdump_string (m_body m) "houleMax") = Ret None
  \/ _safe_int (_extract_phpdump_string (m_body m) "ventMoyen") = Ret None
  \/ _safe_int (_extract_phpdump_string (m_body m) "directionVent") = Ret None.

(** The text of a field is one that [float] reads as an infinity. *)
Definition reads_infinity (x : option string) : Prop :=
  exists (s : string) (sign : bool),
    x = Some s /\ py_float (strip s) = Ret (S754_infinity sign).

(** ** Notions used to state the properties of the two loops *)

(** The calendar day of a timestamp. *)
Definition day_of (d : datetime) : list Z := [year d; month d; day d].

Definition tuple_le (a b : list Z) : Prop := tuple_cmp a b <> Gt.

(** Chronological order on rows. *)
Definition dt_le (a b : row) : Prop := dt_leb (_dt a) (_dt b) = true.

(** What the first loop guarantees of every row it appends. *)
Definition row_ok (r : row) : Prop :=
  valid_datetime (_dt r) = true
  /\ _format_fr_date (_dt r) = Ret (Date r)
  /\ Time r = strftime_HM (_dt r)
  /\ str_in (Time r) target_times = true.

(** The distinct strings of a list, in order of first appearance, added
    to those already [seen]. *)
Fixpoint collect_keys (seen ks : list string) : list string :=
  match ks with
  | [] => seen
  | k :: ks' => collect_keys (if str_in k seen then seen else seen ++ [k]) ks'
  end.

Definition distinct (ks : list string) : list string := collect_keys [] ks.

(** The distinct calendar days of a list of rows, in order of first
    appearance. *)
Definition day_keys (rows : list row) : list string :=
  distinct (map date_key_of rows).

(** The day and the time-of-day label of a row. *)
Definition slot (r : row) : string * string := (date_key_of r, Time r).

(** Rows of different calendar days carry different date labels. *)
Definition labels_tell_days (rows : list row) : Prop :=
  forall a b, In a rows -> In b rows ->
              Date a = Date b -> date_key_of a = date_key_of b.

Definition rows_with_label (label : string) (rows : list row) : list row :=
  filter (fun r => (Date r =? label)%string) rows.

Definition rows_of_day (key : string) (rows : list row) : list row :=
  filter (fun r => (date_key_of r =? key)%string) rows.

(** The first seven distinct calendar days of the sorted rows. *)
Definition first_seven_day_keys (rows : list row) : list string :=
  firstn 7 (day_keys (sort_rows rows)).

(** ** Sample pages

    Text in the shape of the dump the entry pattern is written for: one
    block per timestamp, four string fields in each. *)

Definition quoted (s : string) : string :=
  String quote_char (s ++ String quote_char "")%string.

Definition newline : string := String newline_char "".

Definition dump_field (name value : string) : string :=
  ("    [" ++ quoted name ++ "]=>" ++ newline
   ++ "    string(" ++ str_of_int (Z.of_nat (String.length value)) ++ ") "
   ++ quoted value ++ newline)%string.

Definition dump_block (dt houle houle_max vent dir_deg : string) : string :=
  ("  [" ++ quoted dt ++ "]=>" ++ newline
   ++ "  object(stdClass)#12 (4) {" ++ newline
   ++ dump_field "houle" houle
   ++ dump_field "houleMax" houle_max
   ++ dump_field "ventMoyen" vent
   ++ dump_field "directionVent" dir_deg
   ++ "  }" ++ newline)%string.

Definition dump_page (blocks : list string) : string :=
  ("<pre>array {" ++ newline ++ String.concat "" blocks ++ "}</pre>")%string.

Definition sample_block (dt : string) : string :=
  dump_block dt "0.8" "1.2" "12.0" "135".

(** Ten consecutive days, one record each, and a second record for the
    first day at the end of the page. *)
Definition ten_days_page : string :=
  dump_page
    (map sample_block
       ["2022-10-22 06:00:00"; "2022-10-23 09:00:00"; "2022-10-24 06:00:00";
        "2022-10-25 06:00:00"; "2022-10-26 06:00:00"; "2022-10-27 06:00:00";
        "2022-10-28 06:00:00"; "2022-10-29 06:00:00"; "2022-10-30 06:00:00";
        "2022-10-31 06:00:00"; "2022-10-22 09:00:00"]).

(** Ten days again, but the first timestamp is dumped seven times over
    and the seventh day falls eleven years after the first, on the same
    weekday, day of month and month. *)
Definition repeated_page : string :=
  dump_page
    (map sample_block
       ["2022-10-22 06:00:00"; "2022-10-22 06:00:00"; "2022-10-22 06:00:00";
        "2022-10-22 06:00:00"; "2022-10-22 06:00:00"; "2022-10-22 06:00:00";
        "2022-10-22 06:00:00"; "2022-10-23 06:00:00"; "2022-10-24 06:00:00";
        "2022-10-25 06:00:00"; "2022-10-26 06:00:00"; "2022-10-27 06:00:00";
        "2033-10-22 06:00:00"; "2033-10-23 06:00:00"; "2033-10-24 06:00:00";
        "2033-10-25 06:00:00"]).

(** A page whose only records are at 07:00 or lack a field. *)
Definition barren_page : string :=
  dump_page
    [dump_block "2022-10-22 07:00:00" "0.8" "1.2" "12.0" "135";
     dump_block "2022-10-22 09:00:00" "0.8" "-" "12.0" "135"].

(** A page with one record, at a target time: a dash for its primary
    wave height and [inf] for its mean wind speed. *)
Definition overflow_page : string :=
  dump_page [dump_block "2022-10-22 09:00:00" "-" "1.2" "inf" "135"].

(** A page with one record, at seven o'clock on the thirtieth of
    February. *)
Definition february_page : string :=
  dump_page [dump_block "2022-02-30 07:00:00" "0.8" "1.2" "12.0" "135"].

Definition rows_of_page (html : string) : list row :=
  match collect_rows [] (finditer html) with
  | Ret rows => rows
  | Raise _ => []
  end.

Definition sample_world (html : string) : world :=
  mk_world (fun _ => Ret (mk_response 200 html)) "/home/surf"
    [["home"]; ["home"; "surf"]] [] [].


(** Decision procedures for the hypotheses on concrete lists. *)
Definition slot_eq_dec (a b : string * string) : {a = b} + {a <> b}.
Proof. decide equality; apply string_dec. Defined.

Definition labels_tell_days_b (rows : list row) : bool :=
  forallb
    (fun a =>
       forallb
         (fun b =>
            implb (Date a =? Date b)%string (date_key_of a =? date_key_of b)%string)
         rows)
    rows.

(** ** Notions used to state where the file lands *)

Fixpoint slash_free (s : string) : bool :=
  match s with
  | EmptyString => true
  | String c s' => negb (Ascii.eqb c "/") && slash_free s'
  end.

(** A component as [normpath] leaves it in an absolute path. *)
Definition clean (c : string) : Prop :=
  slash_free c = true /\ c <> "" /\ c <> "." /\ c <> "..".

(** The working directory is an absolute path, as [os.getcwd()] returns. *)
Definition absolute_cwd (w : world) : Prop := startswith "/" (cwd w) = true.

(** The text is a timestamp whose digits are those the directives of the
    format take and whose six numbers make the date and time of day
    [dt]. *)
Definition names_datetime (s : string) (dt : datetime) : Prop :=
  exists t : stamp,
    read_timestamp (chars s) = Some (t, [])
    /\ directives t = true
    /\ valid_datetime (stamp_datetime t) = true
    /\ dt = stamp_datetime t.

(** A record that is to be left out: its timestamp names a date and a
    time of day, and it is at no target time of day, or one of its four
    fields decodes to absent while neither wind field is text that
    [float] reads as an infinity. *)
Definition dropped_record (m : entry_match) : Prop :=
  exists dt,
    names_datetime (m_dt m) dt
    /\ (str_in (strftime_HM dt) target_times = false
        \/ (decodes_absent m
            /\ ~ reads_infinity (_extract_phpdump_string (m_body m) "ventMoyen")
            /\ ~ reads_infinity (_extract_phpdump_string (m_body m) "directionVent"))).

(** ** Notions used to state further properties of the helpers *)

(** Text made of white space only. *)
Definition all_space (s : string) : Prop := skip_spaces (chars s) = [].

(** What makes a table of encodings fit for reading a text: every
    encoding is a first byte that is no continuation byte followed by
    continuation bytes only, and no encoding starts another. *)
Definition is_cont (c : ascii) : bool :=
  (128 <=? char_code c) && (char_code c <? 192).

Definition well_coded (table : list (list ascii * Z)) : bool :=
  forallb
    (fun e =>
       match fst e with
       | c :: r => negb (is_cont c) && forallb is_cont r
       | [] => false
       end)
    table.

Definition prefix_free (table : list (list ascii * Z)) : bool :=
  forallb
    (fun e =>
       forallb
         (fun e' =>
            match match_lit (fst e) (fst e') with
            | Some [] => snd e =? snd e'
            | Some (_ :: _) => false
            | None => true
            end)
         table)
    table.

(** A character that [to_csv] writes as it is: no comma, no quote, no line
    break. *)
Definition plain_char (c : ascii) : bool :=
  negb (Ascii.eqb c ",") && negb (Ascii.eqb c quote_char)
  && negb (Ascii.eqb c newline_char) && negb (Ascii.eqb c (ascii_of_N 13)).

Fixpoint plain (s : string) : bool :=
  match s with
  | EmptyString => true
  | String c s' => plain_char c && plain s'
  end.

Fixpoint count_commas (s : string) : nat :=
  match s with
  | EmptyString => O
  | String c s' => ((if Ascii.eqb c "," then 1 else 0) + count_commas s')%nat
  end.

(** The hours of the day at which a record is kept. *)
Definition target_hours : list Z := [6; 9; 12; 15; 18; 21].

(** Text in which the character [x] does not occur. *)
Fixpoint free_of (x : ascii) (s : string) : bool :=
  match s with
  | EmptyString => true
  | String c s' => negb (Ascii.eqb c x) && free_of x s'
  end.

Fixpoint space_free (s : string) : bool :=
  match s with
  | EmptyString => true
  | String c s' => negb (Ascii.eqb c " ") && space_free s'
  end.

(** The rows that carry a given timestamp. *)
Definition same_time (t : datetime) (r : row) : bool :=
  match tuple_cmp (dt_tuple (_dt r)) (dt_tuple t) with
  | Eq => true
  | _ => false
  end.

(** Text made of decimal digits only, and text free of quotes. *)
Definition all_digits (s : string) : Prop := skip_digits (chars s) = [].

(** The shape of a timestamp literal, and all its digits. *)
Definition stamp_shape (t : stamp) : Prop :=
  List.length (Y_digits t) = 4%nat /\ List.length (m_digits t) = 2%nat
  /\ List.length (d_digits t) = 2%nat /\ List.length (H_digits t) = 2%nat
  /\ List.length (M_digits t) = 2%nat /\ List.length (S_digits t) = 2%nat.

Definition stamp_digits (t : stamp) : list (bool * Z) :=
  Y_digits t ++ m_digits t ++ d_digits t ++ H_digits t ++ M_digits t ++ S_digits t.

Definition quote_free (s : string) : Prop :=
  Forall (fun c => not_quote c = true) (chars s).

(** The bracketed, quoted field name the field pattern starts with. *)
Definition field_key (field : string) : string :=
  ("[" ++ quoted field ++ "]")%string.

(** [sub in text] *)
Definition occurs_in (sub text : string) : Prop :=
  exists pre post, text = (pre ++ sub ++ post)%string.

Fixpoint occurs_b (sub text : string) : bool :=
  startswith sub text
  || match text with
     | EmptyString => false
     | String _ text' => occurs_b sub text'
     end.

(** The cell of a record in a given column. *)
Definition cell (i : nat) (record : list string) : string := nth i record "".

(** The world after the file [k] is written with [lines] and one line is
    printed. *)
Definition world_after_write (w : world) (k : list string) (lines : list string)
           (line : string) : world :=
  mk_world (http w) (cwd w) (dirs w)
    ((k, lines) :: filter (fun f => negb (key_eqb k (fst f))) (files w))
    (stdout w ++ [line]).

(** * Properties *)

(** ** The compass mapper *)

Lemma Qfloor_bucket (deg : Z) :
  Qfloor ((inject_Z deg + 11.25) / 22.5) = (4 * deg + 45) / 90.
Proof.
  unfold Qfloor, Qdiv, Qmult, Qplus, Qinv, inject_Z; simpl Qnum; simpl Qden.
  change (Z.pos (100 * 225)) with (90 * 250).
  replace ((deg * 100 + 1125) * 10) with ((4 * deg + 45) * 250) by ring.
  apply Z.div_mul_cancel_r; lia.
Qed.

Lemma compass_index_Z (deg : Z) :
  compass_index deg = ((4 * deg + 45) / 90) mod 16.
Proof. unfold compass_index. now rewrite Qfloor_bucket. Qed.


(** Normalising the angle first does not change the bucket. *)
Lemma compass_index_mod (deg : Z) :
  compass_index (deg mod 360) = compass_index deg.
Proof.
  rewrite !compass_index_Z.
  rewrite (Z.div_mod deg 360) at 2 by lia.
  replace (4 * (360 * (deg / 360) + deg mod 360) + 45)
    with ((16 * (deg / 360)) * 90 + (4 * (deg mod 360) + 45)) by ring.
  rewrite Z.div_add_l by lia.
  set (b := (4 * (deg mod 360) + 45) / 90).
  replace (16 * (deg / 360) + b) with (b + (deg / 360) * 16) by ring.
  now rewrite Z.mod_add by lia.
Qed.

Lemma py_getitem_nth {A : Type} (l : list A) (i : Z) (d : A) :
  0 <= i < Z.of_nat (List.length l) ->
  py_getitem l i = Ret (nth (Z.to_nat i) l d).
Proof.
  intros Hi. unfold py_getitem.
  destruct (Z.ltb_spec i 0) as [Hn | _]; [lia |].
  destruct (Z.leb_spec 0 i) as [_ | Hn]; [| lia].
  destruct (Z.ltb_spec i (Z.of_nat (List.length l))) as [_ | Hn]; [| lia].
  simpl.
  destruct (nth_error l (Z.to_nat i)) as [a |] eqn:E.
  - now rewrite (nth_error_nth _ _ d E).
  - apply nth_error_None in E. lia.
Qed.


(** C1.  The compass mapper looks up entry
    [floor((deg + 11.25) / 22.5) mod 16] of the sixteen-entry table of
    French direction names: 0 gives Nord, 180 gives Sud, 349 gives Nord
    and 348 gives Nord Nord Ouest. *)
Theorem C1_compass_formula :
  (forall deg : Z,
      _deg_to_fr_compass deg
      = py_getitem _FR_COMPASS_16 (Qfloor ((inject_Z deg + 11.25) / 22.5) mod 16))
  /\ List.length _FR_COMPASS_16 = 16%nat
  /\ _deg_to_fr_compass 0 = Ret "Nord"
  /\ _deg_to_fr_compass 180 = Ret "Sud"
  /\ _deg_to_fr_compass 349 = Ret "Nord"
  /\ _deg_to_fr_compass 348 = Ret "Nord Nord Ouest".
Proof.
  split; [| repeat split; reflexivity].
  intros deg. unfold _deg_to_fr_compass.
  now rewrite compass_index_mod.
Qed.

(** C5.  The label is periodic of period 360: the argument is first
    reduced into [0, 360) by the floored modulo, negative angles
    included. *)
Theorem C5_compass_periodic :
  forall d k : Z,
    _deg_to_fr_compass d = _deg_to_fr_compass (d + 360 * k)
    /\ _deg_to_fr_compass d = py_getitem _FR_COMPASS_16 (compass_index (d mod 360))
    /\ 0 <= d mod 360 < 360.
Proof.
  intros d k. split; [| split].
  - unfold _deg_to_fr_compass.
    now rewrite (Z.mul_comm 360 k), Z.mod_add by lia.
  - reflexivity.
  - apply Z.mod_pos_bound. lia.
Qed.

(** ** The field decoders *)

Lemma py_float_raises (x : string) (e : exn) :
  py_float x = Raise e -> e = ValueError.
Proof.
  unfold py_float.
  destruct (remove_underscores None _) as [s' |]; [| congruence].
  destruct (parse_sign s') as [neg body].
  destruct (parse_decimal body) as [[M E] |]; [discriminate |].
  destruct (parse_inf_or_nan neg body); congruence.
Qed.

(** [_safe_float] returns on every argument. *)
Lemma _safe_float_returns (x : option string) : returns (_safe_float x).
Proof.
  unfold returns, _safe_float.
  destruct x as [x |]; [| now eexists].
  destruct ((strip x =? "")%string || (strip x =? "-")%string); [now eexists |].
  destruct (py_float (strip x)) as [f | e] eqn:E; simpl.
  - now eexists.
  - apply py_float_raises in E. subst e. now eexists.
Qed.

(** [_safe_float] gives [None] on text that [float] rejects. *)
Lemma _safe_float_unparsable (x : string) (e : exn) :
  py_float (strip x) = Raise e -> _safe_float (Some x) = Ret None.
Proof.
  intros E. unfold _safe_float.
  destruct ((strip x =? "")%string || (strip x =? "-")%string); [reflexivity |].
  rewrite E. apply py_float_raises in E. now subst e.
Qed.

Lemma _safe_blank (x : string) :
  strip x = "" \/ strip x = "-" ->
  _safe_float (Some x) = Ret None /\ _safe_int (Some x) = Ret None.
Proof.
  intros [E | E]; unfold _safe_float, _safe_int; rewrite E; split; reflexivity.
Qed.

(** The only exception [_safe_int] lets through is the [OverflowError] of
    [int] on an infinity. *)
Lemma _safe_int_raises (x : option string) (e : exn) :
  _safe_int x = Raise e ->
  e = OverflowError
  /\ exists (s : string) (sign : bool),
       x = Some s /\ py_float (strip s) = Ret (S754_infinity sign).
Proof.
  unfold _safe_int.
  destruct x as [x |]; [| discriminate].
  destruct ((strip x =? "")%string || (strip x =? "-")%string); [discriminate |].
  destruct (py_float (strip x)) as [f | e'] eqn:E; simpl.
  - destruct f as [s | s | | s m ex]; simpl; try discriminate.
    intros H. injection H as <-. split; [reflexivity |].
    now exists x, s.
  - apply py_float_raises in E. subst e'. discriminate.
Qed.

Lemma _safe_int_of_float (x : string) (f : binary64) :
  strip x <> "" -> strip x <> "-" ->
  py_float (strip x) = Ret f ->
  _safe_int (Some x)
  = except_ValueError (n <- py_int_of_float f ;; Ret (Some n)) (Ret None).
Proof.
  intros H1 H2 E. unfold _safe_int.
  apply String.eqb_neq in H1, H2. now rewrite H1, H2, E.
Qed.

Lemma Qfloor_mantissa (m : positive) (e : Z) :
  Qfloor (inject_Z (Zpos m) * 2 ^ e) = Z.shiftl (Zpos m) e.
Proof.
  destruct e as [| p | p].
  - change (Z.shiftl (Z.pos m) 0) with (Z.pos m).
    rewrite <- (Qfloor_Z (Z.pos m)) at 2.
    apply Qfloor_comp. change (2 ^ 0)%Q with 1%Q. ring.
  - rewrite Z.shiftl_mul_pow2 by lia.
    rewrite <- (Qfloor_Z (Z.pos m * 2 ^ Z.pos p)).
    apply Qfloor_comp.
    rewrite inject_Z_mult, Zpower_Qpower by lia. reflexivity.
  - change (Z.neg p) with (- Z.pos p).
    rewrite Z.shiftl_opp_r, Z.shiftr_div_pow2 by lia.
    rewrite Zdiv_Qdiv. apply Qfloor_comp.
    rewrite Qpower_opp, Zpower_Qpower by lia. reflexivity.
Qed.

Lemma mantissa_value_pos (m : positive) (e : Z) :
  (0 < inject_Z (Zpos m) * 2 ^ e)%Q.
Proof.
  apply Qmult_lt_0_compat.
  - reflexivity.
  - apply Qpower_0_lt. reflexivity.
Qed.

(** [int] of a finite float is its value with the fractional part
    discarded. *)
Lemma py_int_of_float_truncates (f : binary64) :
  is_finite f = true ->
  py_int_of_float f = Ret (Qtruncate (float_value f)).
Proof.
  destruct f as [s | s | | s m e]; simpl; try discriminate; intros _.
  - reflexivity.
  - f_equal. pose proof (mantissa_value_pos m e) as Hpos.
    unfold Qtruncate. destruct s.
    + assert (Hneg : (-1 * inject_Z (Z.pos m) * 2 ^ e == - (inject_Z (Z.pos m) * 2 ^ e))%Q)
        by ring.
      destruct (Qle_bool 0 (-1 * inject_Z (Z.pos m) * 2 ^ e)) eqn:Hle.
      * apply Qle_bool_iff in Hle. rewrite Hneg in Hle.
        exfalso. apply (Qlt_irrefl 0).
        apply Qlt_le_trans with (1 := Hpos).
        apply Qopp_le_compat in Hle. rewrite Qopp_involutive in Hle. exact Hle.
      * unfold Qceiling. f_equal. rewrite <- Qfloor_mantissa.
        apply Qfloor_comp. now rewrite Hneg, Qopp_involutive.
    + assert (Hle : Qle_bool 0 (1 * inject_Z (Z.pos m) * 2 ^ e) = true).
      { apply Qle_bool_iff. rewrite Qmult_1_l. now apply Qlt_le_weak. }
      rewrite Hle, <- Qfloor_mantissa. apply Qfloor_comp. ring.
Qed.

(** C6.  The decoders on the four sample inputs: an integer field written
    with a fractional part is read as a float and converted, the dash and
    the empty text are absent, and text that is no number is absent. *)
Theorem C6_decoder_examples :
  _safe_int (Some "12.0") = Ret (Some 12)
  /\ _safe_int (Some "-") = Ret None
  /\ _safe_int (Some "") = Ret None
  /\ _safe_float (Some "abc") = Ret None
  /\ py_float "12.0" = Ret (S754_finite false 6755399441055744 (-49))
  /\ py_int_of_float (S754_finite false 6755399441055744 (-49)) = Ret 12.
Proof. repeat split; vm_compute; reflexivity. Qed.

(** C2.  [_safe_int] on the text [inf]: [float] returns an infinity,
    [int] raises [OverflowError], and the handler catches [ValueError]
    only, so the exception leaves the decoder. *)
Theorem C2_safe_int_overflow :
  _safe_int (Some "inf") = Raise OverflowError
  /\ _safe_int (Some "1e400") = Raise OverflowError
  /\ _safe_float (Some "inf") = Ret (Some (S754_infinity false)).
Proof. repeat split; vm_compute; reflexivity. Qed.

(** C9.  On text that [float] reads as a finite number, [_safe_int]
    returns that number with its fractional part discarded, towards zero
    and not towards minus infinity: 3.7 gives 3 and -3.7 gives -3, where
    the floor is -4. *)
Theorem C9_safe_int_truncates :
  (forall (x : string) (f : binary64),
      strip x <> "" -> strip x <> "-" ->
      py_float (strip x) = Ret f ->
      is_finite f = true ->
      _safe_int (Some x) = Ret (Some (Qtruncate (float_value f))))
  /\ _safe_int (Some "3.7") = Ret (Some 3)
  /\ _safe_int (Some "-3.7") = Ret (Some (-3))
  /\ (forall f, py_float "-3.7" = Ret f -> Qfloor (float_value f) = -4).
Proof.
  split; [| split; [| split]].
  - intros x f H1 H2 E Hfin.
    rewrite (_safe_int_of_float x f H1 H2 E).
    now rewrite (py_int_of_float_truncates f Hfin).
  - vm_compute; reflexivity.
  - vm_compute; reflexivity.
  - intros f E. vm_compute in E. injection E as <-. vm_compute. reflexivity.
Qed.

Lemma C9_safe_int_truncates_witness :
  _safe_int (Some " 3.7 ") = Ret (Some 3).
Proof.
  assert (E : py_float (strip " 3.7 ") = Ret (S754_finite false 8331659310635418 (-51)))
    by (vm_compute; reflexivity).
  rewrite (proj1 C9_safe_int_truncates " 3.7 " _ ltac:(vm_compute; discriminate)
             ltac:(vm_compute; discriminate) E eq_refl).
  vm_compute. reflexivity.
Defined.

(** ** The first loop *)

Lemma append_nonempty (s t : string) : t <> "" -> (s ++ t)%string <> "".
Proof.
  intros Ht. destruct s as [| c s]; simpl; [exact Ht | discriminate].
Qed.

Lemma pad2_nonempty (n : Z) : pad2 n <> "".
Proof. discriminate. Qed.

Lemma compass_label_nonempty (deg : Z) (label : string) :
  _deg_to_fr_compass deg = Ret label -> label <> "".
Proof.
  unfold _deg_to_fr_compass, py_getitem.
  destruct (_ <? 0); destruct (_ && _); try discriminate.
  all: destruct (nth_error _ _) as [a |] eqn:E; try discriminate.
  all: intros H; injection H as <-; apply nth_error_In in E.
  all: simpl in E; repeat (destruct E as [<- | E]; [discriminate |]); contradiction.
Qed.

Lemma _format_fr_date_nonempty (d : datetime) (label : string) :
  _format_fr_date d = Ret label -> label <> "".
Proof.
  unfold _format_fr_date.
  destruct (py_getitem _FR_WEEKDAYS _) as [wd |]; simpl; [| discriminate].
  destruct (py_getitem _FR_MONTHS _) as [mo |]; simpl; [| discriminate].
  intros H. injection H as <-. apply append_nonempty. discriminate.
Qed.

(** What one turn of the first loop can do: leave [rows] as it is, or
    append one row built from four decoded values, no cell of which is
    blank. *)
Lemma entry_step_cases (rows rows' : list row) (m : entry_match) :
  entry_step rows m = Ret rows' ->
  rows' = rows
  \/ exists r houle houle_max vent dir_deg,
       rows' = rows ++ [r]
       /\ _safe_float (_extract_phpdump_string (m_body m) "houle") = Ret (Some houle)
       /\ _safe_float (_extract_phpdump_string (m_body m) "houleMax") = Ret (Some houle_max)
       /\ _safe_int (_extract_phpdump_string (m_body m) "ventMoyen") = Ret (Some vent)
       /\ _safe_int (_extract_phpdump_string (m_body m) "directionVent") = Ret (Some dir_deg)
       /\ strptime (m_dt m) = Ret (_dt r)
       /\ _format_fr_date (_dt r) = Ret (Date r)
       /\ Time r = strftime_HM (_dt r)
       /\ str_in (Time r) target_times = true
       /\ Forall (fun cell => cell <> "") (row_cells r).
Proof.
  unfold entry_step.
  destruct (strptime (m_dt m)) as [dt |]; cbn [bind]; [| discriminate].
  destruct (str_in (strftime_HM dt) target_times) eqn:Ht; cbn [negb].
  2: { intros H; injection H as <-; now left. }
  destruct (_safe_float (_extract_phpdump_string (m_body m) "houle"))
    as [houle |]; cbn [bind]; [| discriminate].
  destruct (_safe_float (_extract_phpdump_string (m_body m) "houleMax"))
    as [houle_max |]; cbn [bind]; [| discriminate].
  destruct (_safe_int (_extract_phpdump_string (m_body m) "ventMoyen"))
    as [vent |]; cbn [bind]; [| discriminate].
  destruct (_safe_int (_extract_phpdump_string (m_body m) "directionVent"))
    as [dir_deg |]; cbn [bind]; [| discriminate].
  destruct houle as [houle |], houle_max as [houle_max |],
      vent as [vent |], dir_deg as [dir_deg |];
    try (intros H; injection H as <-; now left).
  destruct (_format_fr_date dt) as [date |] eqn:Hd; cbn [bind]; [| discriminate].
  destruct (_deg_to_fr_compass dir_deg) as [wind |] eqn:Hw; cbn [bind]; [| discriminate].
  intros H; injection H as <-. right.
  eexists _, houle, houle_max, vent, dir_deg.
  split; [reflexivity |]. cbn [_dt Date Time row_cells Wave_size Wind_speed Wind_direction].
  repeat (split; [reflexivity || assumption |]).
  repeat constructor.
  - now apply _format_fr_date_nonempty with (d := dt).
  - discriminate.
  - apply append_nonempty. discriminate.
  - apply append_nonempty. discriminate.
  - now apply compass_label_nonempty with (deg := dir_deg).
Qed.

(** [strptime] returns on the timestamps that name a date and a time of
    day, and on no other text. *)
Lemma strptime_names (s : string) (dt : datetime) :
  names_datetime s dt <-> strptime s = Ret dt.
Proof.
  unfold names_datetime, strptime. split.
  - intros (t & -> & Hd & Hv & ->). now rewrite Hd, Hv.
  - destruct (read_timestamp (chars s)) as [[t [| c rest]] |]; try discriminate.
    destruct (directives t) eqn:Hd; [| discriminate].
    destruct (valid_datetime (stamp_datetime t)) eqn:Hv; [| discriminate].
    cbn [andb]. intros H. injection H as <-. now exists t.
Qed.

(** A record with a field decoded to absent adds no row: when its
    timestamp is one [strptime] accepts and neither wind field reads as an
    infinity, the turn of the loop returns the rows as they were. *)
Lemma entry_step_absent (rows : list row) (m : entry_match) (dt : datetime) :
  strptime (m_dt m) = Ret dt ->
  decodes_absent m ->
  ~ reads_infinity (_extract_phpdump_string (m_body m) "ventMoyen") ->
  ~ reads_infinity (_extract_phpdump_string (m_body m) "directionVent") ->
  entry_step rows m = Ret rows.
Proof.
  intros Hdt Habs Hv Hd. unfold entry_step. rewrite Hdt. cbn [bind].
  destruct (str_in (strftime_HM dt) target_times); cbn [negb]; [| reflexivity].
  destruct (_safe_float_returns (_extract_phpdump_string (m_body m) "houle"))
    as [houle Eh].
  destruct (_safe_float_returns (_extract_phpdump_string (m_body m) "houleMax"))
    as [houle_max Ehm].
  destruct (_safe_int (_extract_phpdump_string (m_body m) "ventMoyen"))
    as [vent | e] eqn:Ev.
  2: { exfalso. apply Hv. unfold reads_infinity.
       destruct (_safe_int_raises _ _ Ev) as (_ & s & sign & Hs). now exists s, sign. }
  destruct (_safe_int (_extract_phpdump_string (m_body m) "directionVent"))
    as [dir_deg | e] eqn:Ed.
  2: { exfalso. apply Hd. unfold reads_infinity.
       destruct (_safe_int_raises _ _ Ed) as (_ & s & sign & Hs). now exists s, sign. }
  unfold decodes_absent in Habs. rewrite Eh, Ehm, Ev, Ed in Habs.
  rewrite Eh, Ehm. cbn [bind].
  destruct houle, houle_max, vent, dir_deg; try reflexivity.
  destruct Habs as [H | [H | [H | H]]]; discriminate.
Qed.

(** C7.  The page with one record at nine o'clock, a dash for its primary
    wave height and [inf] for its mean wind speed.  The wave height
    decodes to absent, so the record is one to be left out without an
    error; the turn of the loop raises [OverflowError] instead, from the
    mean wind speed, and the run ends on it. *)
Theorem C7_absent_field_overflow :
  let m := nth 0 (finditer overflow_page) (mk_match "" "") in
  List.length (finditer overflow_page) = 1%nat
  /\ m_dt m = "2022-10-22 09:00:00"
  /\ _extract_phpdump_string (m_body m) "houle" = Some "-"
  /\ _extract_phpdump_string (m_body m) "ventMoyen" = Some "inf"
  /\ decodes_absent m
  /\ entry_step [] m = Raise OverflowError
  /\ scrape_surf_report "https://example.org/surf" None (sample_world overflow_page)
     = (Raise OverflowError, sample_world overflow_page).
Proof.
  cbv zeta. repeat split; try (vm_compute; reflexivity).
  left. vm_compute. reflexivity.
Qed.

(** ** Lexicographic comparison of tuples *)

Lemma tuple_cmp_refl (a : list Z) : tuple_cmp a a = Eq.
Proof.
  induction a as [| x a IH]; simpl; [reflexivity |].
  now rewrite Z.compare_refl.
Qed.

Lemma tuple_cmp_eq (a b : list Z) : tuple_cmp a b = Eq -> a = b.
Proof.
  revert b. induction a as [| x a IH]; intros [| y b]; simpl; try discriminate.
  - reflexivity.
  - destruct (Z.compare_spec x y) as [-> | _ | _]; try discriminate.
    intros H. f_equal. now apply IH.
Qed.

Lemma tuple_cmp_antisym (a b : list Z) :
  tuple_cmp b a = CompOpp (tuple_cmp a b).
Proof.
  revert b. induction a as [| x a IH]; intros [| y b]; simpl; try reflexivity.
  rewrite (Z.compare_antisym x y).
  destruct (x ?= y); simpl; auto.
Qed.

Lemma tuple_cmp_lt_trans (a b c : list Z) :
  tuple_cmp a b = Lt -> tuple_cmp b c = Lt -> tuple_cmp a c = Lt.
Proof.
  revert b c.
  induction a as [| x a IH]; intros [| y b] [| z c]; simpl; try congruence.
  destruct (Z.compare_spec x y) as [-> | Hxy | Hxy]; try discriminate.
  - destruct (y ?= z); try congruence. apply IH.
  - destruct (Z.compare_spec y z) as [-> | Hyz | Hyz]; try discriminate.
    + intros _ _. now rewrite (proj2 (Z.compare_lt_iff x z) Hxy).
    + intros _ _. rewrite (proj2 (Z.compare_lt_iff x z)); [reflexivity | lia].
Qed.

Lemma tuple_le_trans (a b c : list Z) :
  tuple_le a b -> tuple_le b c -> tuple_le a c.
Proof.
  unfold tuple_le. intros Hab Hbc.
  destruct (tuple_cmp a b) eqn:Eab; [| | congruence].
  - apply tuple_cmp_eq in Eab. now subst b.
  - destruct (tuple_cmp b c) eqn:Ebc; [| | congruence].
    + apply tuple_cmp_eq in Ebc. subst c. now rewrite Eab.
    + now rewrite (tuple_cmp_lt_trans a b c Eab Ebc).
Qed.

Lemma tuple_le_antisym (a b : list Z) : tuple_le a b -> tuple_le b a -> a = b.
Proof.
  unfold tuple_le. intros Hab Hba.
  rewrite tuple_cmp_antisym in Hba.
  destruct (tuple_cmp a b) eqn:E; simpl in Hba; try congruence.
  now apply tuple_cmp_eq.
Qed.

(** Comparing two tuples compares their prefixes of equal length first. *)
Lemma tuple_le_prefix (a b a' b' : list Z) :
  List.length a = List.length b ->
  tuple_le (a ++ a') (b ++ b') -> tuple_le a b.
Proof.
  unfold tuple_le. revert b.
  induction a as [| x a IH]; intros [| y b]; simpl; intros Hlen;
    try discriminate Hlen.
  - intros _. discriminate.
  - injection Hlen as Hlen.
    destruct (x ?= y); auto.
Qed.

Lemma dt_leb_trans (a b c : datetime) :
  dt_leb a b = true -> dt_leb b c = true -> dt_leb a c = true.
Proof.
  unfold dt_leb. intros Hab Hbc.
  assert (H : tuple_le (dt_tuple a) (dt_tuple c)).
  { apply tuple_le_trans with (b := dt_tuple b); unfold tuple_le.
    - destruct (tuple_cmp (dt_tuple a) (dt_tuple b)); congruence.
    - destruct (tuple_cmp (dt_tuple b) (dt_tuple c)); congruence. }
  unfold tuple_le in H. destruct (tuple_cmp (dt_tuple a) (dt_tuple c)); congruence.
Qed.

Lemma dt_ltb_leb (a b : datetime) : dt_ltb a b = true -> dt_leb a b = true.
Proof.
  unfold dt_ltb, dt_leb. destruct (tuple_cmp _ _); congruence.
Qed.

Lemma dt_ltb_false_leb (a b : datetime) : dt_ltb a b = false -> dt_leb b a = true.
Proof.
  unfold dt_ltb, dt_leb. rewrite (tuple_cmp_antisym (dt_tuple a) (dt_tuple b)).
  destruct (tuple_cmp (dt_tuple a) (dt_tuple b)); simpl; congruence.
Qed.

(** Timestamps in order have their days in order. *)
Lemma dt_le_day (a b : row) :
  dt_le a b -> tuple_le (day_of (_dt a)) (day_of (_dt b)).
Proof.
  unfold dt_le, dt_leb. intros H.
  apply (tuple_le_prefix (day_of (_dt a)) (day_of (_dt b))
           [hour (_dt a); minute (_dt a); second (_dt a)]
           [hour (_dt b); minute (_dt b); second (_dt b)]); [reflexivity |].
  unfold tuple_le. change (day_of (_dt a) ++ _) with (dt_tuple (_dt a)).
  change (day_of (_dt b) ++ _) with (dt_tuple (_dt b)).
  destruct (tuple_cmp _ _); congruence.
Qed.

(** ** The sort *)

Lemma insert_row_perm (r : row) (l : list row) :
  Permutation (r :: l) (insert_row r l).
Proof.
  induction l as [| x l IH]; simpl; [reflexivity |].
  destruct (dt_ltb (_dt x) (_dt r)); [| reflexivity].
  rewrite perm_swap. now apply perm_skip.
Qed.

Lemma sort_rows_perm (l : list row) : Permutation l (sort_rows l).
Proof.
  induction l as [| r l IH]; simpl; [reflexivity |].
  rewrite <- insert_row_perm. now apply perm_skip.
Qed.

Lemma insert_row_sorted (r : row) (l : list row) :
  StronglySorted dt_le l -> StronglySorted dt_le (insert_row r l).
Proof.
  induction 1 as [| x l Hs IH Hx]; simpl.
  - repeat constructor.
  - destruct (dt_ltb (_dt x) (_dt r)) eqn:E.
    + constructor; [exact IH |].
      apply Forall_forall. intros y Hy.
      apply (Permutation_in _ (Permutation_sym (insert_row_perm r l))) in Hy.
      destruct Hy as [<- | Hy].
      * now apply dt_ltb_leb.
      * now apply (proj1 (Forall_forall _ _) Hx).
    + apply dt_ltb_false_leb in E.
      constructor; [now constructor |].
      constructor; [exact E |].
      apply Forall_forall. intros y Hy.
      apply dt_leb_trans with (b := _dt x); [exact E |].
      now apply (proj1 (Forall_forall _ _) Hx).
Qed.

Lemma sort_rows_sorted (l : list row) : StronglySorted dt_le (sort_rows l).
Proof.
  induction l as [| r l IH]; simpl; [constructor |].
  now apply insert_row_sorted.
Qed.

Lemma sorted_app_inv (l1 l2 : list row) :
  StronglySorted dt_le (l1 ++ l2) ->
  StronglySorted dt_le l1
  /\ StronglySorted dt_le l2
  /\ forall a b, In a l1 -> In b l2 -> dt_le a b.
Proof.
  induction l1 as [| x l1 IH]; simpl; intros H.
  - repeat split; [constructor | exact H | contradiction].
  - inversion H as [| ? ? Hs Hx]; subst.
    destruct (IH Hs) as (H1 & H2 & H3).
    rewrite Forall_app in Hx. destruct Hx as [Hx1 Hx2].
    repeat split; [now constructor | exact H2 |].
    intros a b [<- | Ha] Hb.
    + now apply (proj1 (Forall_forall _ _) Hx2).
    + now apply H3.
Qed.

(** ** Day keys *)

Lemma digit_char_inj (d1 d2 : Z) :
  0 <= d1 <= 9 -> 0 <= d2 <= 9 -> digit_char d1 = digit_char d2 -> d1 = d2.
Proof.
  intros H1 H2 H. unfold digit_char in H.
  apply (f_equal N_of_ascii) in H.
  rewrite !N_ascii_embedding in H by lia. lia.
Qed.

Lemma digit_char_mod_inj (a b : Z) :
  digit_char (a mod 10) = digit_char (b mod 10) -> a mod 10 = b mod 10.
Proof.
  pose proof (Z.mod_pos_bound a 10). pose proof (Z.mod_pos_bound b 10).
  apply digit_char_inj; lia.
Qed.

Lemma pad2_inj (n n' : Z) :
  0 <= n < 100 -> 0 <= n' < 100 -> pad2 n = pad2 n' -> n = n'.
Proof.
  intros Hn Hn' H. unfold pad2 in H. injection H as H1 H0.
  apply digit_char_mod_inj in H1, H0.
  Z.to_euclidean_division_equations. lia.
Qed.

Lemma _days_in_month_le (y m : Z) : 1 <= m <= 12 -> _days_in_month y m <= 31.
Proof.
  intros Hm. unfold _days_in_month.
  destruct ((m =? 2) && _is_leap y); [lia |].
  assert (Hc : m = 1 \/ m = 2 \/ m = 3 \/ m = 4 \/ m = 5 \/ m = 6 \/ m = 7
               \/ m = 8 \/ m = 9 \/ m = 10 \/ m = 11 \/ m = 12) by lia.
  repeat (destruct Hc as [-> | Hc]; [simpl; lia |]). subst m. simpl. lia.
Qed.

Lemma valid_datetime_bounds (d : datetime) :
  valid_datetime d = true ->
  1 <= year d <= 9999 /\ 1 <= month d <= 12 /\ 1 <= day d <= 31
  /\ 0 <= hour d <= 23 /\ 0 <= minute d <= 59 /\ 0 <= second d <= 59.
Proof.
  unfold valid_datetime. rewrite !andb_true_iff, !Z.leb_le.
  intros H. pose proof (_days_in_month_le (year d) (month d)). lia.
Qed.

Lemma app_char_inj (x : ascii) (a a' r r' : string) :
  free_of x a = true -> free_of x a' = true ->
  (a ++ String x r)%string = (a' ++ String x r')%string ->
  a = a' /\ r = r'.
Proof.
  revert a'. induction a as [| c a IH]; intros [| c' a']; simpl.
  - intros _ _ H. injection H as <-. auto.
  - intros _ H' H. injection H as <- _.
    rewrite Ascii.eqb_refl in H'. discriminate.
  - intros H' _ H. injection H as -> _.
    rewrite Ascii.eqb_refl in H'. discriminate.
  - intros H H' E. injection E as <- E.
    apply andb_true_iff in H, H'.
    destruct (IH a' (proj2 H) (proj2 H') E) as [-> ->]. auto.
Qed.

Lemma to_int_nonnil (n : Z) :
  Z.to_int n <> Decimal.Pos Decimal.Nil /\ Z.to_int n <> Decimal.Neg Decimal.Nil.
Proof.
  destruct n as [| p | p]; simpl; split; try discriminate; intros H;
    injection H as H; now apply DecimalPos.Unsigned.to_uint_nonnil in H.
Qed.

(** [str] tells integers apart. *)
Lemma str_of_int_inj (a b : Z) : str_of_int a = str_of_int b -> a = b.
Proof.
  unfold str_of_int. intros H.
  apply (f_equal NilZero.int_of_string) in H.
  destruct (to_int_nonnil a) as [Ha1 Ha2], (to_int_nonnil b) as [Hb1 Hb2].
  rewrite !NilZero.isi in H by assumption.
  injection H as H. now apply DecimalZ.to_int_inj.
Qed.

Lemma string_of_uint_no_dash (d : Decimal.uint) :
  free_of "-" (NilEmpty.string_of_uint d) = true.
Proof. induction d; simpl; auto. Qed.

Lemma str_of_int_no_dash (n : Z) : 0 <= n -> free_of "-" (str_of_int n) = true.
Proof.
  intros Hn. unfold str_of_int, NilZero.string_of_int, NilZero.string_of_uint.
  destruct n as [| p | p]; [reflexivity | | lia].
  cbn [Z.to_int]. destruct (Pos.to_uint p); try reflexivity;
    apply string_of_uint_no_dash.
Qed.

(** On valid timestamps the day key names the calendar day. *)
Lemma date_key_day (a b : datetime) :
  valid_datetime a = true -> valid_datetime b = true ->
  strftime_Ymd a = strftime_Ymd b -> day_of a = day_of b.
Proof.
  intros Ha Hb H.
  apply valid_datetime_bounds in Ha, Hb.
  unfold strftime_Ymd in H.
  apply app_char_inj in H; try (apply str_of_int_no_dash; lia).
  destruct H as [Hy H]. apply str_of_int_inj in Hy.
  unfold pad2 in H. cbn [String.append] in H.
  injection H as Hm1 Hm0 Hd1 Hd0.
  assert (Hm : pad2 (month a) = pad2 (month b)) by (unfold pad2; congruence).
  assert (Hd : pad2 (day a) = pad2 (day b)) by (unfold pad2; congruence).
  apply pad2_inj in Hm; [| lia | lia].
  apply pad2_inj in Hd; [| lia | lia].
  unfold day_of. congruence.
Qed.

Lemma day_date_key (a b : datetime) :
  day_of a = day_of b -> strftime_Ymd a = strftime_Ymd b.
Proof.
  unfold day_of, strftime_Ymd. intros H. injection H as -> -> ->. reflexivity.
Qed.

(** The date label is a function of the calendar day. *)
Lemma day_date_label (a b : datetime) :
  day_of a = day_of b -> _format_fr_date a = _format_fr_date b.
Proof.
  unfold day_of, _format_fr_date, weekday.
  intros H. injection H as -> -> ->. reflexivity.
Qed.

Lemma row_ok_same_day_same_label (a b : row) :
  row_ok a -> row_ok b -> date_key_of a = date_key_of b -> Date a = Date b.
Proof.
  intros (Va & Da & _) (Vb & Db & _) H.
  apply date_key_day in H; [| assumption | assumption].
  apply day_date_label in H. congruence.
Qed.

(** ** Lists of distinct keys *)

Lemma str_in_In (k : string) (l : list string) : str_in k l = true <-> In k l.
Proof.
  unfold str_in. rewrite existsb_exists. split.
  - intros (x & Hx & E). apply String.eqb_eq in E. now subst x.
  - intros H. exists k. split; [exact H | apply String.eqb_refl].
Qed.

Lemma str_in_not_In (k : string) (l : list string) :
  str_in k l = false <-> ~ In k l.
Proof.
  rewrite <- str_in_In. destruct (str_in k l); split; congruence.
Qed.

Lemma collect_keys_app (seen a b : list string) :
  collect_keys seen (a ++ b) = collect_keys (collect_keys seen a) b.
Proof.
  revert seen. induction a as [| k a IH]; intros seen; simpl; [reflexivity |].
  apply IH.
Qed.

Lemma collect_keys_extends (seen ks : list string) :
  exists ext, collect_keys seen ks = seen ++ ext.
Proof.
  revert seen. induction ks as [| k ks IH]; intros seen; simpl.
  - exists []. now rewrite app_nil_r.
  - destruct (str_in k seen); [apply IH |].
    destruct (IH (seen ++ [k])) as [ext ->].
    exists (k :: ext). now rewrite <- app_assoc.
Qed.

Lemma collect_keys_In (seen ks : list string) (k : string) :
  In k (collect_keys seen ks) <-> In k seen \/ In k ks.
Proof.
  revert seen. induction ks as [| k' ks IH]; intros seen; simpl.
  - tauto.
  - rewrite IH. destruct (str_in k' seen) eqn:E.
    + apply str_in_In in E. split; [tauto |].
      intros [H | [<- | H]]; tauto.
    + rewrite in_app_iff. simpl. tauto.
Qed.

Lemma collect_keys_NoDup (seen ks : list string) :
  NoDup seen -> NoDup (collect_keys seen ks).
Proof.
  revert seen. induction ks as [| k ks IH]; intros seen Hs; simpl; [exact Hs |].
  apply IH. destruct (str_in k seen) eqn:E; [exact Hs |].
  apply str_in_not_In in E.
  apply NoDup_app; [exact Hs | repeat constructor; auto | ].
  intros x Hx [<- | []]. contradiction.
Qed.

Lemma collect_keys_length_mono (seen ks : list string) :
  (List.length seen <= List.length (collect_keys seen ks))%nat.
Proof.
  destruct (collect_keys_extends seen ks) as [ext ->].
  rewrite length_app. lia.
Qed.

(** The number of distinct keys does not depend on the order. *)
Lemma distinct_length_perm (l l' : list string) :
  Permutation l l' -> List.length (distinct l) = List.length (distinct l').
Proof.
  intros P. apply Permutation_length. unfold distinct.
  apply NoDup_Permutation; try (apply collect_keys_NoDup; constructor).
  intros x. rewrite !collect_keys_In. simpl.
  split; intros [[] | H]; right.
  - now apply (Permutation_in _ P).
  - now apply (Permutation_in _ (Permutation_sym P)).
Qed.

Lemma day_keys_length_perm (l l' : list row) :
  Permutation l l' -> List.length (day_keys l) = List.length (day_keys l').
Proof.
  intros P. apply distinct_length_perm. now apply Permutation_map.
Qed.

(** ** The second loop *)

Lemma str_in_snoc (k : string) (seen : list string) : str_in k (seen ++ [k]) = true.
Proof. apply str_in_In. rewrite in_app_iff. simpl. auto. Qed.

(** The loop keeps a prefix of its input: it runs to the end, or stops in
    front of the first row whose day is new when seven days are known. *)
Lemma keep_days_spec (rows : list row) :
  forall (seen : list string) (filtered : list row),
    (List.length seen <= 7)%nat ->
    exists pre post,
      rows = pre ++ post
      /\ keep_days rows seen filtered
         = (collect_keys seen (map date_key_of pre), filtered ++ pre)
      /\ (List.length (collect_keys seen (map date_key_of pre)) <= 7)%nat
      /\ (post = []
          \/ exists r post',
               post = r :: post'
               /\ ~ In (date_key_of r) (collect_keys seen (map date_key_of pre))
               /\ List.length (collect_keys seen (map date_key_of pre)) = 7%nat).
Proof.
  induction rows as [| r rows IH]; intros seen filtered Hlen.
  - exists [], []. simpl. rewrite app_nil_r. auto.
  - cbn [keep_days].
    destruct (str_in (date_key_of r) seen) eqn:Hin; cbn [negb].
    + destruct (IH seen (filtered ++ [r]) Hlen) as (pre & post & -> & E & Hl & Hstop).
      exists (r :: pre), post. cbn [map collect_keys]. rewrite Hin.
      repeat split; try assumption.
      now rewrite E, <- app_assoc.
    + destruct (Z.leb_spec 7 (Z.of_nat (List.length seen))) as [Hfull | Hroom].
      * exists [], (r :: rows). cbn [map collect_keys]. rewrite app_nil_r.
        repeat split; try assumption.
        right. exists r, rows. repeat split.
        -- now apply str_in_not_In.
        -- lia.
      * rewrite str_in_snoc.
        assert (Hlen' : (List.length (seen ++ [date_key_of r]) <= 7)%nat)
          by (rewrite length_app; simpl; lia).
        destruct (IH (seen ++ [date_key_of r]) (filtered ++ [r]) Hlen')
          as (pre & post & -> & E & Hl & Hstop).
        exists (r :: pre), post. cbn [map collect_keys]. rewrite Hin.
        repeat split; try assumption.
        now rewrite E, <- app_assoc.
Qed.

(** The kept rows, the dropped rows and the days kept, for the sorted
    input of the exported function. *)
Lemma first_seven_days_spec (rows : list row) :
  exists post,
    sort_rows rows = first_seven_days rows ++ post
    /\ (List.length (day_keys (first_seven_days rows)) <= 7)%nat
    /\ firstn 7 (day_keys (sort_rows rows)) = day_keys (first_seven_days rows)
    /\ (post = []
        \/ exists r post',
             post = r :: post'
             /\ ~ In (date_key_of r) (day_keys (first_seven_days rows))
             /\ List.length (day_keys (first_seven_days rows)) = 7%nat).
Proof.
  unfold first_seven_days.
  destruct (keep_days_spec (sort_rows rows) [] []) as (pre & post & E & K & Hl & Hstop);
    [simpl; lia |].
  rewrite K. cbn [snd app]. exists post.
  split; [exact E |]. split; [exact Hl |]. split; [| exact Hstop].
  rewrite E. unfold day_keys, distinct. rewrite map_app, collect_keys_app.
  destruct (collect_keys_extends (collect_keys [] (map date_key_of pre))
              (map date_key_of post)) as [ext Hext].
  rewrite Hext.
  destruct Hstop as [-> | (r & post' & -> & _ & H7)].
  - simpl in Hext. rewrite <- Hext. apply firstn_all2. exact Hl.
  - rewrite firstn_app, H7, Nat.sub_diag, firstn_O, app_nil_r.
    rewrite <- H7. apply firstn_all.
Qed.

Lemma day_keys_In (rows : list row) (k : string) :
  In k (day_keys rows) <-> exists r, In r rows /\ date_key_of r = k.
Proof.
  unfold day_keys, distinct. rewrite collect_keys_In, in_map_iff. simpl.
  split.
  - intros [[] | (r & E & H)]. now exists r.
  - intros (r & H & E). right. now exists r.
Qed.

(** In a chronological list, a row that follows the first row of a new
    day does not belong to an earlier day. *)
Lemma later_rows_are_later_days (pre post : list row) (r x : row) :
  StronglySorted dt_le (pre ++ r :: post) ->
  Forall row_ok (pre ++ r :: post) ->
  ~ In (date_key_of r) (day_keys pre) ->
  In x (r :: post) ->
  ~ In (date_key_of x) (day_keys pre).
Proof.
  intros Hs Hok Hr Hx Hin.
  apply day_keys_In in Hin. destruct Hin as (p & Hp & E).
  apply Hr. apply day_keys_In. exists p. split; [exact Hp |].
  destruct (sorted_app_inv _ _ Hs) as (_ & Hs2 & Hcross).
  assert (Hpr : dt_le p r) by (apply Hcross; simpl; auto).
  assert (Hrx : tuple_le (day_of (_dt r)) (day_of (_dt x))).
  { destruct Hx as [<- | Hx].
    - unfold tuple_le. now rewrite tuple_cmp_refl.
    - apply dt_le_day. inversion Hs2 as [| ? ? _ Hall]; subst.
      now apply (proj1 (Forall_forall _ _) Hall). }
  rewrite Forall_forall in Hok.
  assert (Okp : row_ok p) by (apply Hok; rewrite in_app_iff; auto).
  assert (Okr : row_ok r) by (apply Hok; rewrite in_app_iff; simpl; auto).
  assert (Okx : row_ok x) by (apply Hok; rewrite in_app_iff; simpl in *; tauto).
  assert (Dpx : day_of (_dt p) = day_of (_dt x)).
  { apply date_key_day; [apply Okp | apply Okx | exact E]. }
  unfold date_key_of. apply day_date_key.
  apply tuple_le_antisym.
  - now apply dt_le_day.
  - now rewrite Dpx.
Qed.

Lemma sorted_rows_ok (rows : list row) :
  Forall row_ok rows -> Forall row_ok (sort_rows rows).
Proof.
  intros H. rewrite Forall_forall in *. intros x Hx. apply H.
  now apply (Permutation_in _ (Permutation_sym (sort_rows_perm rows))).
Qed.

(** The cut of a list that is not empty is not empty: the first sorted
    row is always admitted, so the column selection never fails. *)
Lemma first_seven_days_nonempty (rows : list row) :
  rows <> [] -> exists df, select_columns (first_seven_days rows) = Ret df.
Proof.
  intros Hne.
  assert (Hs : sort_rows rows <> []).
  { intros E. apply Hne. apply Permutation_nil.
    rewrite <- E. apply Permutation_sym, sort_rows_perm. }
  unfold first_seven_days.
  destruct (sort_rows rows) as [| r l]; [contradiction |].
  cbn [keep_days str_in existsb negb List.length Z.of_nat Z.leb Z.compare].
  rewrite str_in_snoc.
  destruct (keep_days_spec l ([] ++ [date_key_of r]) ([] ++ [r]))
    as (pre & post & _ & E & _); [simpl; lia |].
  rewrite E. cbn [snd app]. now eexists.
Qed.

(** C10.  The cut never drops a row of an admitted day.  Among valid rows
    sorted by timestamp, every row whose day is one of the first seven
    distinct days is in the output: the output is a prefix of the sorted
    rows, no dropped row belongs to one of those days, and the loop stops
    only in front of the first row of an eighth day. *)
Theorem C10_cut_keeps_admitted_days :
  forall rows : list row,
    Forall row_ok rows ->
    (forall r, In r rows ->
               In (date_key_of r) (first_seven_day_keys rows) ->
               In r (first_seven_days rows))
    /\ exists dropped,
         sort_rows rows = first_seven_days rows ++ dropped
         /\ (forall x, In x dropped -> ~ In (date_key_of x) (first_seven_day_keys rows))
         /\ (dropped = []
             \/ exists r dropped',
                  dropped = r :: dropped'
                  /\ ~ In (date_key_of r) (day_keys (first_seven_days rows))
                  /\ List.length (day_keys (first_seven_days rows)) = 7%nat).
Proof.
  intros rows Hok.
  destruct (first_seven_days_spec rows) as (post & E & Hl & H7 & Hstop).
  assert (Hdropped : forall x, In x post ->
                               ~ In (date_key_of x) (first_seven_day_keys rows)).
  { intros x Hx. unfold first_seven_day_keys. rewrite H7.
    destruct Hstop as [-> | (r & post' & -> & Hr & _)]; [contradiction |].
    apply later_rows_are_later_days with (post := post') (r := r); try assumption.
    - rewrite <- E. apply sort_rows_sorted.
    - rewrite <- E. now apply sorted_rows_ok. }
  split.
  - intros r Hr Hkey.
    apply (Permutation_in _ (sort_rows_perm rows)) in Hr.
    rewrite E, in_app_iff in Hr. destruct Hr as [Hr | Hr]; [exact Hr |].
    exfalso. now apply (Hdropped r).
  - exists post. repeat split; assumption.
Qed.

(** ** Counting rows and labels *)

Lemma distinct_snoc (l : list string) (k : string) :
  distinct (l ++ [k])
  = if str_in k (distinct l) then distinct l else distinct l ++ [k].
Proof. unfold distinct. now rewrite collect_keys_app. Qed.

Lemma distinct_In (l : list string) (k : string) : In k (distinct l) <-> In k l.
Proof. unfold distinct. rewrite collect_keys_In. simpl. tauto. Qed.

(** Two labellings that identify the same elements have the same number
    of distinct labels. *)
Lemma distinct_length_same_classes {A : Type} (f g : A -> string) (l : list A) :
  (forall a b, In a l -> In b l -> (f a = f b <-> g a = g b)) ->
  List.length (distinct (map f l)) = List.length (distinct (map g l)).
Proof.
  induction l as [| x l IH] using rev_ind; intros H; [reflexivity |].
  rewrite !map_app. cbn [map]. rewrite !distinct_snoc.
  assert (IH' : List.length (distinct (map f l)) = List.length (distinct (map g l))).
  { apply IH. intros a b Ha Hb. apply H; rewrite in_app_iff; auto. }
  assert (Hx : In x (l ++ [x])) by (rewrite in_app_iff; simpl; auto).
  destruct (str_in (f x) (distinct (map f l))) eqn:Ef;
    destruct (str_in (g x) (distinct (map g l))) eqn:Eg.
  - exact IH'.
  - exfalso. apply str_in_In in Ef. apply str_in_not_In in Eg.
    apply Eg. rewrite distinct_In, in_map_iff in *.
    destruct Ef as (y & Ey & Hy). exists y. split; [| exact Hy].
    apply (H y x); [rewrite in_app_iff; auto | exact Hx | exact Ey].
  - exfalso. apply str_in_In in Eg. apply str_in_not_In in Ef.
    apply Ef. rewrite distinct_In, in_map_iff in *.
    destruct Eg as (y & Ey & Hy). exists y. split; [| exact Hy].
    apply (H y x); [rewrite in_app_iff; auto | exact Hx | exact Ey].
  - rewrite !length_app. simpl. lia.
Qed.

(** Selecting rows keeps their slots distinct. *)
Lemma filter_keeps_slots_distinct (p : row -> bool) (rows : list row) :
  NoDup (map slot rows) -> NoDup (map slot (filter p rows)).
Proof.
  intros H. induction rows as [| x rows IH]; cbn [filter map]; [constructor |].
  apply NoDup_cons_iff in H. destruct H as [Hx H].
  destruct (p x); cbn [map]; [| exact (IH H)].
  apply NoDup_cons; [| exact (IH H)].
  intros Hin. apply Hx. apply in_map_iff in Hin.
  destruct Hin as (y & Ey & Hy). apply filter_In in Hy.
  apply in_map_iff. exists y. tauto.
Qed.

(** Rows of one day in distinct slots have distinct time labels. *)
Lemma NoDup_times_of_one_day (l : list row) :
  (forall a b, In a l -> In b l -> date_key_of a = date_key_of b) ->
  NoDup (map slot l) -> NoDup (map Time l).
Proof.
  induction l as [| x l IH]; simpl; intros Hday H; [constructor |].
  inversion H as [| ? ? Hnin Hnd]; subst.
  constructor; [| apply IH; auto].
  intros Hin. apply Hnin. rewrite in_map_iff in *.
  destruct Hin as (y & E & Hy). exists y. split; [| exact Hy].
  unfold slot. f_equal; [| exact E]. apply Hday; auto.
Qed.

Lemma target_times_length : List.length target_times = 6%nat.
Proof. reflexivity. Qed.

(** A selection of rows of one day, in distinct slots at target times, has
    at most six rows. *)
Lemma at_most_six_rows (p : row -> bool) (l : list row) :
  Forall row_ok l ->
  NoDup (map slot l) ->
  (forall a b, In a l -> In b l -> p a = true -> p b = true ->
               date_key_of a = date_key_of b) ->
  (List.length (filter p l) <= 6)%nat.
Proof.
  intros Hok Hnd Hday.
  rewrite <- (length_map Time), <- target_times_length.
  apply NoDup_incl_length.
  - apply NoDup_times_of_one_day.
    + intros a b Ha Hb. apply filter_In in Ha, Hb.
      apply Hday; tauto.
    + now apply filter_keeps_slots_distinct.
  - intros t Ht. apply in_map_iff in Ht. destruct Ht as (r & <- & Hr).
    apply filter_In in Hr. destruct Hr as [Hr _].
    rewrite Forall_forall in Hok. apply str_in_In. apply (Hok r Hr).
Qed.

(** C3, as amended.  For valid rows that occupy distinct slots (no two
    share calendar day and time label), whose date labels tell the days
    apart, and that span at least ten distinct days: the output carries
    exactly seven distinct date labels, at most six rows for each label
    and for each day, in ascending chronological order; it is the part of
    the sorted rows in front of the first row of the eighth day, where the
    loop stops and drops everything that follows. *)
Theorem C3_seven_days_six_rows :
  forall rows : list row,
    Forall row_ok rows ->
    NoDup (map slot rows) ->
    labels_tell_days rows ->
    (10 <= List.length (day_keys rows))%nat ->
    List.length (distinct (map Date (first_seven_days rows))) = 7%nat
    /\ (forall label,
           (List.length (rows_with_label label (first_seven_days rows)) <= 6)%nat)
    /\ (forall key,
           (List.length (rows_of_day key (first_seven_days rows)) <= 6)%nat)
    /\ StronglySorted dt_le (first_seven_days rows)
    /\ (exists r dropped,
           sort_rows rows = first_seven_days rows ++ r :: dropped
           /\ ~ In (date_key_of r) (day_keys (first_seven_days rows))
           /\ List.length (day_keys (first_seven_days rows)) = 7%nat)
    /\ select_columns (first_seven_days rows)
       = Ret (mk_frame COLUMNS (map row_cells (first_seven_days rows))).
Proof.
  intros rows Hok Hslots Hlabels Hten.
  destruct (first_seven_days_spec rows) as (post & E & Hl & _ & Hstop).
  set (out := first_seven_days rows) in *.
  assert (Hperm : Permutation rows (out ++ post))
    by (rewrite <- E; apply sort_rows_perm).
  assert (Hsub : forall x, In x out -> In x rows).
  { intros x Hx. apply (Permutation_in _ (Permutation_sym Hperm)).
    rewrite in_app_iff. auto. }
  destruct Hstop as [-> | (r & post' & -> & Hr & H7)].
  { exfalso. rewrite app_nil_r in Hperm.
    rewrite (day_keys_length_perm _ _ Hperm) in Hten. lia. }
  assert (Hok_out : Forall row_ok out).
  { rewrite Forall_forall in *. auto. }
  assert (Hslots_out : NoDup (map slot out)).
  { apply (Permutation_NoDup (Permutation_map slot Hperm)) in Hslots.
    rewrite map_app in Hslots. now apply NoDup_app_remove_r in Hslots. }
  assert (Hs : StronglySorted dt_le (out ++ r :: post'))
    by (rewrite <- E; apply sort_rows_sorted).
  split; [| split; [| split; [| split; [| split]]]].
  - rewrite <- H7. unfold day_keys.
    apply distinct_length_same_classes. intros a b Ha Hb. split.
    + apply Hlabels; auto.
    + rewrite Forall_forall in Hok_out.
      apply row_ok_same_day_same_label; auto.
  - intros label. apply at_most_six_rows; try assumption.
    intros a b Ha Hb Ea Eb. apply String.eqb_eq in Ea, Eb.
    apply Hlabels; auto. congruence.
  - intros key. apply at_most_six_rows; try assumption.
    intros a b _ _ Ea Eb. apply String.eqb_eq in Ea, Eb. congruence.
  - apply (sorted_app_inv _ _ Hs).
  - exists r, post'. auto.
  - destruct out as [| x out']; [discriminate H7 | reflexivity].
Qed.

Lemma strptime_valid (s : string) (d : datetime) :
  strptime s = Ret d -> valid_datetime d = true.
Proof.
  unfold strptime.
  destruct (read_timestamp (chars s)) as [[t [| c r]] |]; try discriminate.
  destruct (directives t); cbn [andb]; [| discriminate].
  destruct (valid_datetime (stamp_datetime t)) eqn:V; [| discriminate].
  intros H. injection H as <-. exact V.
Qed.

Lemma entry_step_ok (rows rows' : list row) (m : entry_match) :
  Forall row_ok rows -> entry_step rows m = Ret rows' -> Forall row_ok rows'.
Proof.
  intros Hok H. apply entry_step_cases in H.
  destruct H as [-> | (r & h & hm & v & d & -> & _ & _ & _ & _ & Hdt & Hdate & Ht & Hin & _)];
    [exact Hok |].
  apply Forall_app. split; [exact Hok |].
  constructor; [| constructor].
  repeat split; try assumption.
  now apply strptime_valid with (s := m_dt m).
Qed.

(** Every row the first loop collects is a valid filtered record. *)
Lemma collect_rows_ok (ms : list entry_match) :
  forall rows rows',
    Forall row_ok rows -> collect_rows rows ms = Ret rows' -> Forall row_ok rows'.
Proof.
  induction ms as [| m ms IH]; intros rows rows' Hok; cbn [collect_rows].
  - intros H. injection H as <-. exact Hok.
  - destruct (entry_step rows m) as [rows1 |] eqn:E; cbn [bind]; [| discriminate].
    apply IH. now apply entry_step_ok with (rows := rows) (m := m).
Qed.

Lemma rows_of_page_ok (html : string) : Forall row_ok (rows_of_page html).
Proof.
  unfold rows_of_page.
  destruct (collect_rows [] (finditer html)) as [rows |] eqn:E; [| constructor].
  now apply collect_rows_ok with (ms := finditer html) (rows := []).
Qed.

Lemma collect_rows_all_dropped (ms : list entry_match) (rows : list row) :
  Forall dropped_record ms -> collect_rows rows ms = Ret rows.
Proof.
  induction 1 as [| m ms Hm _ IH]; cbn [collect_rows]; [reflexivity |].
  assert (E : entry_step rows m = Ret rows).
  { destruct Hm as (dt & Hdt & [Ht | (Habs & Hv & Hd)]);
      apply strptime_names in Hdt.
    - unfold entry_step. rewrite Hdt. cbn [bind]. now rewrite Ht.
    - now apply entry_step_absent with (dt := dt). }
  rewrite E. exact IH.
Qed.

(** C4.  When the page is fetched and every record the entry pattern
    finds in it is one to be left out (there may be none), the function
    raises the data-extraction error: the world it leaves is the world it
    found, so no directory is made and no file is written. *)
Theorem C4_no_rows_no_write :
  forall (url : string) (output_csv_path : option string) (w : world)
         (resp : response),
    http w url = Ret resp ->
    raise_for_status resp = Ret tt ->
    Forall dropped_record (finditer (text resp)) ->
    scrape_surf_report url output_csv_path w
    = (Raise (RuntimeError no_data_message), w).
Proof.
  intros url out w resp Hget Hstatus Hrows.
  unfold scrape_surf_report, io_bind, io_lift.
  rewrite Hget, Hstatus.
  now rewrite (collect_rows_all_dropped _ [] Hrows).
Qed.

(** The page of the witness has a record at seven o'clock and a record
    at nine with a dash for its highest wave. *)
Lemma C4_no_rows_no_write_witness :
  scrape_surf_report "https://example.org/surf" (Some "out/report.csv")
    (sample_world barren_page)
  = (Raise (RuntimeError no_data_message), sample_world barren_page).
Proof.
  apply (C4_no_rows_no_write _ _ _ (mk_response 200 barren_page)).
  - reflexivity.
  - reflexivity.
  - change (text (mk_response 200 barren_page)) with barren_page.
    assert (E : finditer barren_page
                = [nth 0 (finditer barren_page) (mk_match "" "");
                   nth 1 (finditer barren_page) (mk_match "" "")])
      by (vm_compute; reflexivity).
    rewrite E. constructor; [| constructor; [| constructor]].
    + exists (mk_datetime 2022 10 22 7 0 0).
      split; [apply strptime_names; vm_compute; reflexivity
             | left; vm_compute; reflexivity].
    + exists (mk_datetime 2022 10 22 9 0 0).
      split; [apply strptime_names; vm_compute; reflexivity | right].
      split; [right; left; vm_compute; reflexivity |].
      split; intros (s & sign & Es & Ef); vm_compute in Es; injection Es as <-;
        vm_compute in Ef; discriminate Ef.
Defined.

(** The page with one record, at seven o'clock on the thirtieth of
    February, has no record at a target time of day, and the run does not
    end on the data-extraction error: [strptime] refuses the date, and
    its [ValueError] ends the run. *)
Lemma C4_counterexample :
  map m_dt (finditer february_page) = ["2022-02-30 07:00:00"]
  /\ str_in "07:00" target_times = false
  /\ scrape_surf_report "https://example.org/surf" None (sample_world february_page)
     = (Raise ValueError, sample_world february_page)
  /\ scrape_surf_report "https://example.org/surf" None (sample_world february_page)
     <> (Raise (RuntimeError no_data_message), sample_world february_page).
Proof.
  assert (E : scrape_surf_report "https://example.org/surf" None
                (sample_world february_page)
              = (Raise ValueError, sample_world february_page))
    by (vm_compute; reflexivity).
  split; [vm_compute; reflexivity |].
  split; [vm_compute; reflexivity |].
  split; [exact E |].
  rewrite E. discriminate.
Qed.

(** ** Paths *)

Lemma startswith_slash_cons (c : ascii) (s : string) :
  startswith "/" (String c s) = Ascii.eqb c "/".
Proof. simpl. apply andb_true_r. Qed.

Lemma startswith_slash_app (s t : string) :
  startswith "/" s = true -> startswith "/" (s ++ t)%string = true.
Proof.
  destruct s as [| c s]; [discriminate |].
  intros H. change (String c s ++ t)%string with (String c (s ++ t)%string).
  now rewrite startswith_slash_cons in *.
Qed.

Lemma split_slash_nonempty (s : string) : split_slash s <> [].
Proof.
  induction s as [| c s IH]; simpl; [discriminate |].
  destruct (Ascii.eqb c "/"); [discriminate |].
  destruct (split_slash s); [contradiction | discriminate].
Qed.

Lemma split_slash_slash_free (c : string) :
  slash_free c = true -> split_slash c = [c].
Proof.
  induction c as [| a c IH]; simpl; [reflexivity |].
  destruct (Ascii.eqb a "/"); simpl; [discriminate |].
  intros H. now rewrite (IH H).
Qed.

(** Splitting the concatenation of two texts around a slash. *)
Lemma split_slash_app (s t : string) :
  split_slash (s ++ String "/" t)%string = split_slash s ++ split_slash t.
Proof.
  induction s as [| c s IH]; simpl; [reflexivity |].
  destruct (Ascii.eqb c "/"); [now rewrite IH |].
  rewrite IH. pose proof (split_slash_nonempty s) as Hne.
  destruct (split_slash s); [contradiction | reflexivity].
Qed.

Lemma split_slash_parts_slash_free (s : string) :
  Forall (fun c => slash_free c = true) (split_slash s).
Proof.
  induction s as [| c s IH]; simpl; [repeat constructor |].
  destruct (Ascii.eqb c "/") eqn:E; [constructor; [reflexivity | exact IH] |].
  destruct (split_slash s) as [| h t]; [repeat constructor; simpl; now rewrite E |].
  inversion IH as [| ? ? Hh Ht]; subst.
  constructor; [simpl; now rewrite E, Hh | exact Ht].
Qed.

Lemma split_slash_join (comps : list string) :
  Forall clean comps -> comps <> [] ->
  split_slash (join_with "/" comps) = comps.
Proof.
  induction 1 as [| c comps Hc _ IH]; intros Hne; [contradiction |].
  destruct comps as [| c2 rest].
  - simpl. apply split_slash_slash_free, Hc.
  - change (join_with "/" (c :: c2 :: rest))
      with (c ++ String "/" (join_with "/" (c2 :: rest)))%string.
    rewrite split_slash_app, IH by discriminate.
    now rewrite (split_slash_slash_free c (proj1 Hc)).
Qed.

Lemma norm_step_skip (i : Z) (acc : list string) :
  norm_step i acc "" = acc.
Proof. reflexivity. Qed.

Lemma norm_step_clean (i : Z) (acc : list string) (c : string) :
  clean c -> norm_step i acc c = acc ++ [c].
Proof.
  intros (_ & H0 & H1 & H2). unfold norm_step.
  apply String.eqb_neq in H0, H1, H2. now rewrite H0, H1, H2.
Qed.

Lemma fold_norm_step_clean (i : Z) (comps acc : list string) :
  Forall clean comps -> fold_left (norm_step i) comps acc = acc ++ comps.
Proof.
  intros H. revert acc. induction H as [| c comps Hc _ IH]; intros acc; simpl.
  - now rewrite app_nil_r.
  - rewrite (norm_step_clean i acc c Hc), IH, <- app_assoc. reflexivity.
Qed.

Lemma Forall_removelast {A : Type} (P : A -> Prop) (l : list A) :
  Forall P l -> Forall P (removelast l).
Proof.
  induction 1 as [| x l Hx Hl IH]; simpl; [constructor |].
  destruct l; [constructor | now constructor].
Qed.

Lemma last_In {A : Type} (l : list A) (d : A) : l <> [] -> In (last l d) l.
Proof.
  induction l as [| x l IH]; [contradiction |]. intros _.
  destruct l as [| y l]; [now left |].
  right. apply IH. discriminate.
Qed.

(** Below a root, a turn of the loop of [normpath] keeps the components
    clean. *)
Lemma norm_step_keeps_clean (i : Z) (acc : list string) (c : string) :
  i <> 0 -> Forall clean acc -> slash_free c = true ->
  Forall clean (norm_step i acc c).
Proof.
  intros Hi Hacc Hc. unfold norm_step.
  destruct (c =? "")%string eqn:E0; [exact Hacc |].
  destruct (c =? ".")%string eqn:E1; [exact Hacc |]. cbn [orb].
  destruct (c =? "..")%string eqn:E2; cbn [negb orb].
  - apply Z.eqb_neq in Hi. rewrite Hi. cbn [andb orb].
    destruct acc as [| a acc']; [exact Hacc |]. cbn [is_nil negb andb].
    destruct (last (a :: acc') "" =? "..")%string eqn:El.
    + exfalso. apply String.eqb_eq in El.
      assert (Hin : In (last (a :: acc') "") (a :: acc'))
        by (apply last_In; discriminate).
      rewrite Forall_forall in Hacc. apply Hacc in Hin.
      destruct Hin as (_ & _ & _ & Hdd). contradiction.
    + now apply Forall_removelast.
  - apply Forall_app. split; [exact Hacc |].
    constructor; [| constructor].
    apply String.eqb_neq in E0, E1, E2. repeat split; assumption.
Qed.

Lemma fold_norm_step_keeps_clean (i : Z) (l acc : list string) :
  i <> 0 -> Forall clean acc -> Forall (fun c => slash_free c = true) l ->
  Forall clean (fold_left (norm_step i) l acc).
Proof.
  intros Hi Hacc Hl. revert acc Hacc.
  induction Hl as [| c l Hc _ IH]; intros acc Hacc; simpl; [exact Hacc |].
  apply IH. now apply norm_step_keeps_clean.
Qed.

(** Above zero, the number of leading slashes plays no part in the loop. *)
Lemma norm_step_rooted (i j : Z) (acc : list string) (c : string) :
  i <> 0 -> j <> 0 -> norm_step i acc c = norm_step j acc c.
Proof.
  intros Hi Hj. unfold norm_step.
  apply Z.eqb_neq in Hi, Hj. now rewrite Hi, Hj.
Qed.

Lemma fold_norm_step_rooted (i j : Z) (l acc : list string) :
  i <> 0 -> j <> 0 ->
  fold_left (norm_step i) l acc = fold_left (norm_step j) l acc.
Proof.
  intros Hi Hj. revert acc. induction l as [| c l IH]; intros acc; simpl;
    [reflexivity |].
  now rewrite IH, (norm_step_rooted i j acc c Hi Hj).
Qed.

Lemma initial_slashes_rooted (q : string) :
  startswith "/" q = true -> initial_slashes_of q = 1 \/ initial_slashes_of q = 2.
Proof.
  intros H. unfold initial_slashes_of. rewrite H.
  destruct (startswith "//" q && negb (startswith "///" q)); auto.
Qed.

Lemma slashes_1 : slashes 1 = "/".
Proof. reflexivity. Qed.

Lemma slashes_2 : slashes 2 = "//".
Proof. reflexivity. Qed.

(** [normpath] of an absolute path: its leading slashes, then the clean
    components joined. *)
Lemma normpath_rooted (q : string) :
  startswith "/" q = true ->
  exists i comps,
    (i = 1 \/ i = 2)
    /\ Forall clean comps
    /\ comps = fold_left (norm_step 1) (split_slash q) []
    /\ normpath q = (slashes i ++ join_with "/" comps)%string.
Proof.
  intros Hq. destruct (initial_slashes_rooted q Hq) as [Hi | Hi].
  all: exists (initial_slashes_of q), (fold_left (norm_step 1) (split_slash q) []).
  all: rewrite Hi; split; [auto |]; split;
    [apply fold_norm_step_keeps_clean;
     [lia | constructor | apply split_slash_parts_slash_free] |].
  all: split; [reflexivity |].
  all: unfold normpath; destruct q as [| c q]; [discriminate |].
  all: change (String c q =? "")%string with false; cbv iota.
  all: rewrite Hi.
  - reflexivity.
  - rewrite (fold_norm_step_rooted 2 1) by lia. reflexivity.
Qed.

Lemma join_clean_no_leading_slash (comps : list string) :
  Forall clean comps -> startswith "/" (join_with "/" comps) = false.
Proof.
  intros H. destruct H as [| c comps (Hsf & Hne & _) _]; [reflexivity |].
  destruct c as [| a c]; [contradiction |].
  assert (Ha : Ascii.eqb a "/" = false).
  { simpl in Hsf. destruct (Ascii.eqb a "/"); [discriminate | reflexivity]. }
  destruct comps; simpl join_with.
  - now rewrite startswith_slash_cons.
  - change (String a c ++ "/" ++ join_with "/" (s :: comps))%string
      with (String a (c ++ "/" ++ join_with "/" (s :: comps)))%string.
    now rewrite startswith_slash_cons.
Qed.

(** The components of a path written in canonical form are read back by
    the loop. *)
Lemma canonical_components (i : Z) (comps : list string) :
  i = 1 \/ i = 2 -> Forall clean comps ->
  fold_left (norm_step 1) (split_slash (slashes i ++ join_with "/" comps)%string) []
  = comps.
Proof.
  intros Hi Hc.
  assert (Hbody : fold_left (norm_step 1) (split_slash (join_with "/" comps)) [] = comps).
  { destruct comps as [| c comps'] eqn:E; [reflexivity |].
    rewrite split_slash_join by (assumption || discriminate).
    now rewrite fold_norm_step_clean. }
  destruct Hi as [-> | ->].
  - rewrite slashes_1.
    change ("/" ++ join_with "/" comps)%string
      with ("" ++ String "/" (join_with "/" comps))%string.
    rewrite split_slash_app. simpl split_slash. cbn [fold_left app].
    now rewrite norm_step_skip.
  - rewrite slashes_2.
    change ("//" ++ join_with "/" comps)%string
      with ("" ++ String "/" ("" ++ String "/" (join_with "/" comps)))%string.
    rewrite !split_slash_app. simpl split_slash. cbn [fold_left app].
    now rewrite !norm_step_skip.
Qed.

Lemma canonical_initial_slashes (i : Z) (comps : list string) :
  i = 1 \/ i = 2 -> Forall clean comps ->
  initial_slashes_of (slashes i ++ join_with "/" comps)%string = i.
Proof.
  intros Hi Hc. pose proof (join_clean_no_leading_slash comps Hc) as Hj.
  unfold initial_slashes_of.
  destruct Hi as [-> | ->]; [rewrite slashes_1 | rewrite slashes_2].
  - destruct (join_with "/" comps) as [| a s]; [reflexivity |].
    rewrite startswith_slash_cons in Hj. simpl. now rewrite Hj.
  - destruct (join_with "/" comps) as [| a s]; [reflexivity |].
    rewrite startswith_slash_cons in Hj. simpl. now rewrite Hj.
Qed.

(** [normpath] leaves a canonical absolute path as it is. *)
Lemma normpath_canonical (i : Z) (comps : list string) :
  i = 1 \/ i = 2 -> Forall clean comps ->
  normpath (slashes i ++ join_with "/" comps)%string
  = (slashes i ++ join_with "/" comps)%string.
Proof.
  intros Hi Hc.
  assert (Hne : ((slashes i ++ join_with "/" comps)%string =? "")%string = false)
    by (destruct Hi as [-> | ->]; reflexivity).
  unfold normpath. rewrite Hne. cbv zeta.
  rewrite canonical_initial_slashes by assumption.
  rewrite (fold_norm_step_rooted i 1) by lia.
  rewrite canonical_components by assumption.
  now rewrite Hne.
Qed.

Lemma string_app_assoc (a b c : string) :
  ((a ++ b) ++ c)%string = (a ++ (b ++ c))%string.
Proof. induction a as [| x a IH]; simpl; [reflexivity | now rewrite IH]. Qed.


Lemma clean_no_leading_slash (c : string) : clean c -> startswith "/" c = false.
Proof.
  intros Hc. apply (join_clean_no_leading_slash [c]). now constructor.
Qed.

(** What [abspath] hands to [normpath] is an absolute path. *)
Lemma abspath_argument_rooted (w : world) (p : string) :
  absolute_cwd w ->
  startswith "/" (if startswith "/" p then p else path_join (cwd w) p) = true.
Proof.
  intros Hw. destruct (startswith "/" p) eqn:Hp; [exact Hp |].
  unfold path_join. rewrite Hp.
  destruct ((cwd w =? "")%string || ends_with_slash (cwd w));
    now apply startswith_slash_app.
Qed.

Lemma abspath_rooted (w : world) (p : string) :
  absolute_cwd w ->
  exists i comps,
    (i = 1 \/ i = 2)
    /\ Forall clean comps
    /\ abspath w p = (slashes i ++ join_with "/" comps)%string
    /\ path_key w p = comps.
Proof.
  intros Hw.
  destruct (normpath_rooted _ (abspath_argument_rooted w p Hw))
    as (i & comps & Hi & Hc & _ & E).
  exists i, comps. repeat split; try assumption.
  unfold path_key, abspath. rewrite E. now apply canonical_components.
Qed.

Lemma abspath_absolute (w : world) (p : string) :
  absolute_cwd w -> startswith "/" (abspath w p) = true.
Proof.
  intros Hw. destruct (abspath_rooted w p Hw) as (i & comps & Hi & _ & -> & _).
  apply startswith_slash_app. destruct Hi as [-> | ->]; reflexivity.
Qed.

(** [abspath] is idempotent. *)
Lemma abspath_idempotent (w : world) (p : string) :
  absolute_cwd w -> abspath w (abspath w p) = abspath w p.
Proof.
  intros Hw. unfold abspath at 1. rewrite (abspath_absolute w p Hw).
  destruct (abspath_rooted w p Hw) as (i & comps & Hi & Hc & -> & _).
  now apply normpath_canonical.
Qed.


Lemma path_key_rooted (w : world) (q : string) :
  startswith "/" q = true ->
  path_key w q = fold_left (norm_step 1) (split_slash q) [].
Proof.
  intros Hq. unfold path_key, abspath. rewrite Hq.
  destruct (normpath_rooted q Hq) as (i & comps & Hi & Hc & -> & ->).
  now apply canonical_components.
Qed.


Lemma data_surf_clean : clean "data_surf.csv".
Proof. repeat split; discriminate. Qed.



(** ** Directories *)

Lemma key_eqb_refl (k : list string) : key_eqb k k = true.
Proof.
  induction k as [| x k IH]; simpl; [reflexivity |].
  now rewrite String.eqb_refl.
Qed.

Lemma key_is_dir_add (w : world) (k : list string) :
  key_is_dir (add_dir w k) k = true.
Proof.
  unfold key_is_dir, add_dir. cbn [dirs].
  rewrite existsb_app. cbn [existsb]. rewrite key_eqb_refl.
  now rewrite !orb_true_r.
Qed.

Lemma key_is_dir_add_mono (w : world) (k x : list string) :
  key_is_dir w x = true -> key_is_dir (add_dir w k) x = true.
Proof.
  unfold key_is_dir, add_dir. cbn [dirs]. rewrite existsb_app.
  intros H. apply orb_true_iff in H. destruct H as [-> | ->]; [reflexivity |].
  now rewrite orb_true_r.
Qed.

(** A successful [makedirs] makes the directory, keeps what was there and
    touches neither the files nor the working directory. *)
Lemma makedirs_from_spec (rest : list string) :
  forall (pre : list string) (w w' : world),
    makedirs_from pre rest w = (Ret tt, w') ->
    cwd w' = cwd w
    /\ files w' = files w
    /\ (forall x, key_is_dir w x = true -> key_is_dir w' x = true)
    /\ (rest <> [] -> key_is_dir w' (pre ++ rest) = true).
Proof.
  induction rest as [| c rest IH]; intros pre w w'; cbn [makedirs_from].
  - intros H. injection H as <-. repeat split; auto; contradiction.
  - destruct (key_is_file w (pre ++ [c])); [discriminate |].
    intros H. apply IH in H. destruct H as (Hcwd & Hfiles & Hmono & Hmade).
    assert (Hk : key_is_dir (if key_is_dir w (pre ++ [c]) then w
                             else add_dir w (pre ++ [c])) (pre ++ [c]) = true).
    { destruct (key_is_dir w (pre ++ [c])) eqn:E; [exact E | apply key_is_dir_add]. }
    repeat split.
    + rewrite Hcwd. now destruct (key_is_dir w (pre ++ [c])).
    + rewrite Hfiles. now destruct (key_is_dir w (pre ++ [c])).
    + intros x Hx. apply Hmono.
      destruct (key_is_dir w (pre ++ [c])); [exact Hx |].
      now apply key_is_dir_add_mono.
    + intros _. destruct rest as [| c' rest'].
      * apply Hmono, Hk.
      * rewrite <- app_assoc in Hmade. apply Hmade. discriminate.
Qed.

Lemma path_key_same_cwd (w w' : world) (p : string) :
  cwd w' = cwd w -> path_key w' p = path_key w p.
Proof. intros H. unfold path_key, abspath. now rewrite H. Qed.

Lemma drop_while_snoc_nonempty (P : ascii -> bool) (l : list ascii) (x : ascii) :
  P x = false -> drop_while P (l ++ [x]) <> [].
Proof.
  intros Hx. induction l as [| a l IH]; simpl.
  - rewrite Hx. discriminate.
  - destruct (P a); [exact IH | discriminate].
Qed.

Lemma string_of_list_ascii_nonempty (l : list ascii) :
  l <> [] -> string_of_list_ascii l <> "".
Proof. destruct l; [contradiction | discriminate]. Qed.

(** The parent of an absolute path is not the empty path. *)
Lemma dirname_rooted_nonempty (p : string) :
  startswith "/" p = true -> dirname p <> "".
Proof.
  destruct p as [| c p]; [discriminate |].
  rewrite startswith_slash_cons. intros Hc. apply Ascii.eqb_eq in Hc. subst c.
  unfold dirname, chars. cbn [list_ascii_of_string rev].
  set (rhead := drop_while (fun c => negb (is_slash c)) _).
  assert (Hne : rhead <> [])
    by (apply drop_while_snoc_nonempty; reflexivity).
  destruct (drop_while is_slash rhead) as [| a l] eqn:E.
  - apply string_of_list_ascii_nonempty.
    intros Hr. apply Hne. apply (f_equal (@rev ascii)) in Hr.
    now rewrite rev_involutive in Hr.
  - apply string_of_list_ascii_nonempty.
    intros Hr. cbn [rev] in Hr. apply app_eq_nil in Hr.
    destruct Hr as [_ Hr]. discriminate.
Qed.

(** After [_ensure_parent_dir] returns, the parent of the path exists; it
    is a directory if it had to be made. *)
Lemma _ensure_parent_dir_spec (w w' : world) (path : string) :
  absolute_cwd w ->
  _ensure_parent_dir path w = (Ret tt, w') ->
  path_exists w' (dirname (abspath w path)) = true
  /\ (path_exists w (dirname (abspath w path)) = false ->
      isdir w' (dirname (abspath w path)) = true)
  /\ files w' = files w.
Proof.
  intros Hw. unfold _ensure_parent_dir.
  set (parent := dirname (abspath w path)).
  assert (Hne : (parent =? "")%string = false).
  { apply String.eqb_neq, dirname_rooted_nonempty. now apply abspath_absolute. }
  rewrite Hne. cbn [negb andb].
  destruct (path_exists w parent) eqn:Hex; cbn [negb].
  - intros H. injection H as <-. repeat split; [exact Hex | discriminate].
  - unfold makedirs. intros H. apply makedirs_from_spec in H.
    destruct H as (Hcwd & Hfiles & _ & Hmade). cbn [app] in Hmade.
    assert (Hkey : path_key w parent <> []).
    { intros E. unfold path_exists, key_is_dir in Hex. rewrite E in Hex.
      discriminate. }
    assert (Hdir : isdir w' parent = true).
    { unfold isdir. rewrite (path_key_same_cwd w w' parent Hcwd). auto. }
    repeat split; [| auto | exact Hfiles].
    unfold path_exists. unfold isdir in Hdir. now rewrite Hdir.
Qed.

(** ** Checking the hypotheses on a concrete list *)

Lemma labels_tell_days_check (rows : list row) :
  labels_tell_days_b rows = true -> labels_tell_days rows.
Proof.
  unfold labels_tell_days_b, labels_tell_days. rewrite forallb_forall.
  intros H a b Ha Hb E. specialize (H a Ha). rewrite forallb_forall in H.
  specialize (H b Hb). apply String.eqb_eq in E. rewrite E in H.
  now apply String.eqb_eq.
Qed.

Lemma NoDup_slots_check (rows : list row) :
  nodup slot_eq_dec (map slot rows) = map slot rows -> NoDup (map slot rows).
Proof. intros <-. apply NoDup_nodup. Qed.

Lemma C3_seven_days_six_rows_witness :
  List.length (distinct (map Date (first_seven_days (rows_of_page ten_days_page))))
  = 7%nat
  /\ List.length (first_seven_days (rows_of_page ten_days_page)) = 8%nat.
Proof.
  split; [| vm_compute; reflexivity].
  apply (C3_seven_days_six_rows (rows_of_page ten_days_page)).
  - apply rows_of_page_ok.
  - apply NoDup_slots_check. vm_compute. reflexivity.
  - apply labels_tell_days_check. vm_compute. reflexivity.
  - vm_compute. lia.
Defined.

(** The claim as first stated fails on a page that dumps one timestamp
    seven times and whose seventh day repeats the label of the first: the
    rows are valid and span ten days, yet the output has six distinct
    labels and seven rows for one day. *)
Lemma C3_counterexample :
  Forall row_ok (rows_of_page repeated_page)
  /\ (10 <= List.length (day_keys (rows_of_page repeated_page)))%nat
  /\ List.length (distinct (map Date (first_seven_days (rows_of_page repeated_page))))
     = 6%nat
  /\ List.length (rows_of_day "2022-10-22" (first_seven_days (rows_of_page repeated_page)))
     = 7%nat
  /\ ~ (forall rows : list row,
           Forall row_ok rows ->
           (10 <= List.length (day_keys rows))%nat ->
           List.length (distinct (map Date (first_seven_days rows))) = 7%nat
           /\ forall key,
               (List.length (rows_of_day key (first_seven_days rows)) <= 6)%nat).
Proof.
  assert (H10 : (10 <= List.length (day_keys (rows_of_page repeated_page)))%nat)
    by (vm_compute; lia).
  assert (H6 : List.length
                 (distinct (map Date (first_seven_days (rows_of_page repeated_page))))
               = 6%nat) by (vm_compute; reflexivity).
  split; [| split; [| split; [| split]]].
  - apply rows_of_page_ok.
  - exact H10.
  - exact H6.
  - vm_compute. reflexivity.
  - intros H.
    destruct (H (rows_of_page repeated_page) (rows_of_page_ok _) H10) as [H7 _].
    rewrite H6 in H7. discriminate.
Qed.

Lemma C10_cut_keeps_admitted_days_witness :
  In (nth 10 (rows_of_page ten_days_page) (nth 0 (rows_of_page ten_days_page)
        (mk_row (mk_datetime 0 0 0 0 0 0) "" "" "" "" "")))
     (first_seven_days (rows_of_page ten_days_page)).
Proof.
  apply (proj1 (C10_cut_keeps_admitted_days (rows_of_page ten_days_page)
                  (rows_of_page_ok ten_days_page))).
  - vm_compute. do 10 right. left. reflexivity.
  - vm_compute. left. reflexivity.
Defined.

(** ** A complete run

    The ten-day page, written to a relative path below a directory that
    does not exist yet: eight rows for seven days, the missing directory
    made, one file written, one line printed. *)
Example scrape_ten_days_page :
  let run :=
    scrape_surf_report "https://www.surf-report.com/meteo-surf/lacanau-s1043.html"
      (Some "out/report.csv") (sample_world ten_days_page) in
  fst run
  = Ret (mk_frame COLUMNS
           (map row_cells (first_seven_days (rows_of_page ten_days_page))))
  /\ List.length (first_seven_days (rows_of_page ten_days_page)) = 8%nat
  /\ dirs (snd run) = [["home"]; ["home"; "surf"]; ["home"; "surf"; "out"]]
  /\ map fst (files (snd run)) = [["home"; "surf"; "out"; "report.csv"]]
  /\ stdout (snd run) = ["[surf_scrap] CSV sauvegardé : /home/surf/out/report.csv"].
Proof. vm_compute. repeat split; reflexivity. Qed.

(** * Further properties *)

(** ** Character classes

  Reading a text class by class is reading it character by character:
  an encoding of the table is found where it stands and nowhere else. *)

Lemma match_lit_app (l r : list ascii) : match_lit l (l ++ r) = Some r.
Proof.
induction l as [| a l IH]; simpl; [reflexivity |].
now rewrite Ascii.eqb_refl.
Qed.

Lemma match_lit_Some (l s r : list ascii) : match_lit l s = Some r -> s = l ++ r.
Proof.
revert s. induction l as [| a l IH]; intros s; simpl.
- intros H. now injection H as <-.
- destruct s as [| c s]; [discriminate |].
  destruct (Ascii.eqb_spec a c) as [-> | _]; [| discriminate].
  intros H. now rewrite (IH _ H).
Qed.

(** Two literals that match at the same place: one starts the other. *)
Lemma match_lit_comparable (c a l rest : list ascii) :
match_lit c (a ++ l) = Some rest ->
(exists r, match_lit c a = Some r)
\/ (exists r, r <> [] /\ match_lit a c = Some r).
Proof.
revert a. induction c as [| x c IH]; intros a.
- intros _. left. now exists a.
- destruct a as [| y a].
  + intros _. right. exists (x :: c). split; [discriminate | reflexivity].
  + cbn [app match_lit]. rewrite (Ascii.eqb_sym y x).
    destruct (Ascii.eqb x y); [apply IH | discriminate].
Qed.

Section Class.

Variable table : list (list ascii * Z).
Hypothesis table_prefix_free : prefix_free table = true.
Hypothesis table_nonempty : forall c v, In (c, v) table -> c <> [].

Lemma prefix_free_spec (c c' r : list ascii) (v v' : Z) :
  In (c, v) table -> In (c', v') table -> match_lit c c' = Some r ->
  r = [] /\ v = v'.
Proof.
  intros Hc Hc' Hm. pose proof table_prefix_free as H.
  unfold prefix_free in H. rewrite forallb_forall in H.
  specialize (H _ Hc). rewrite forallb_forall in H. specialize (H _ Hc').
  cbn [fst snd] in H. rewrite Hm in H.
  destruct r; [| discriminate]. split; [reflexivity | now apply Z.eqb_eq].
Qed.

Lemma lookup_prefix_Some (sub : list (list ascii * Z)) (s r : list ascii) (v : Z) :
  lookup_prefix sub s = Some (v, r) -> exists c, In (c, v) sub /\ s = c ++ r.
Proof.
  induction sub as [| [c0 v0] sub IH]; cbn [lookup_prefix]; [discriminate |].
  destruct (match_lit c0 s) as [rest |] eqn:E.
  - intros H. injection H as <- <-. exists c0. split; [now left |].
    now apply match_lit_Some.
  - intros H. destruct (IH H) as (c & Hin & Hs). exists c. split; [now right | exact Hs].
Qed.

Lemma lookup_prefix_None (sub : list (list ascii * Z)) (s : list ascii) :
  lookup_prefix sub s = None <-> forall c v, In (c, v) sub -> match_lit c s = None.
Proof.
  induction sub as [| [c0 v0] sub IH]; cbn [lookup_prefix].
  - split; [intros _ c v [] | reflexivity].
  - destruct (match_lit c0 s) as [rest |] eqn:E.
    + split; [discriminate |]. intros H. rewrite (H c0 v0) in E; [discriminate | now left].
    + rewrite IH. split.
      * intros H c v [Hin | Hin]; [injection Hin as <- <-; exact E | now apply (H c v)].
      * intros H c v Hin. apply (H c v). now right.
Qed.

(** An encoding of the table is found where it stands. *)
Lemma lookup_prefix_code (c l : list ascii) (v : Z) :
  In (c, v) table -> lookup_prefix table (c ++ l) = Some (v, l).
Proof.
  intros Hin.
  assert (H : forall sub, incl sub table -> In (c, v) sub ->
                          lookup_prefix sub (c ++ l) = Some (v, l)).
  { induction sub as [| [c0 v0] sub IH]; intros Hsub Hc; [contradiction |].
    cbn [lookup_prefix].
    assert (H0 : In (c0, v0) table) by (apply Hsub; now left).
    destruct (match_lit c0 (c ++ l)) as [rest |] eqn:E.
    - destruct (match_lit_comparable _ _ _ _ E) as [[r Hr] | (r & Hne & Hr)].
      + destruct (prefix_free_spec _ _ _ _ _ H0 Hin Hr) as [-> ->].
        apply match_lit_Some in Hr. rewrite app_nil_r in Hr. subst c.
        rewrite match_lit_app in E. now injection E as <-.
      + destruct (prefix_free_spec _ _ _ _ _ Hin H0 Hr) as [-> _]. contradiction.
    - destruct Hc as [Hc | Hc].
      + injection Hc as -> ->. rewrite match_lit_app in E. discriminate.
      + apply IH; [| exact Hc]. intros x Hx. apply Hsub. now right. }
  apply H; [apply incl_refl | exact Hin].
Qed.

Lemma class_step_code (c l : list ascii) (v : Z) :
  In (c, v) table -> class_step table (c ++ l) = Some l.
Proof. intros Hin. unfold class_step. now rewrite (lookup_prefix_code c l v Hin). Qed.

Lemma class_step_Some (s r : list ascii) :
  class_step table s = Some r -> exists c v, In (c, v) table /\ s = c ++ r.
Proof.
  unfold class_step. destruct (lookup_prefix table s) as [[v r'] |] eqn:E; [| discriminate].
  cbn [option_map snd]. intros H. injection H as <-.
  destruct (lookup_prefix_Some _ _ _ _ E) as (c & Hin & Hs). now exists c, v.
Qed.

Lemma class_step_shrinks (s r : list ascii) :
  class_step table s = Some r -> (List.length r < List.length s)%nat.
Proof.
  intros H. destruct (class_step_Some _ _ H) as (c & v & Hin & ->).
  apply table_nonempty in Hin. rewrite length_app.
  destruct c; [contradiction | simpl; lia].
Qed.

Lemma skip_fuel_enough (n : nat) :
  forall (m : nat) (s : list ascii),
    (List.length s <= n)%nat -> (List.length s <= m)%nat ->
    skip_fuel (class_step table) n s = skip_fuel (class_step table) m s.
Proof.
  induction n as [| n IH]; intros m s Hn Hm.
  - destruct s; [| simpl in Hn; lia].
    destruct m as [| m]; [reflexivity |]. cbn [skip_fuel].
    destruct (class_step table []) as [r |] eqn:E; [| reflexivity].
    apply class_step_shrinks in E. simpl in E. lia.
  - destruct m as [| m].
    + destruct s; [| simpl in Hm; lia]. cbn [skip_fuel].
      destruct (class_step table []) as [r |] eqn:E; [| reflexivity].
      apply class_step_shrinks in E. simpl in E. lia.
    + cbn [skip_fuel]. destruct (class_step table s) as [r |] eqn:E; [| reflexivity].
      apply class_step_shrinks in E. apply IH; lia.
Qed.

(** The equation of [skip]. *)
Lemma skip_eq (s : list ascii) :
  skip (class_step table) s
  = match class_step table s with
    | Some r => skip (class_step table) r
    | None => s
    end.
Proof.
  unfold skip. destruct s as [| a s].
  - cbn [List.length skip_fuel].
    destruct (class_step table []) as [r |] eqn:E; [| reflexivity].
    apply class_step_shrinks in E. simpl in E. lia.
  - cbn [List.length skip_fuel].
    destruct (class_step table (a :: s)) as [r |] eqn:E; [| reflexivity].
    apply class_step_shrinks in E. simpl in E. apply skip_fuel_enough; lia.
Qed.

Lemma skip_code (c l : list ascii) (v : Z) :
  In (c, v) table -> skip (class_step table) (c ++ l) = skip (class_step table) l.
Proof. intros Hin. now rewrite skip_eq, (class_step_code c l v Hin). Qed.

Lemma skip_stop (s : list ascii) :
  class_step table s = None -> skip (class_step table) s = s.
Proof. intros H. now rewrite skip_eq, H. Qed.

(** What [skip] passes over is a run of encodings of the table, and the
    text it stops at does not start with one. *)
Lemma skip_split (s : list ascii) :
  exists cs,
    Forall (fun c => exists v, In (c, v) table) cs
    /\ s = concat cs ++ skip (class_step table) s
    /\ class_step table (skip (class_step table) s) = None.
Proof.
  remember (List.length s) as n eqn:Hn. revert s Hn.
  induction n as [n IH] using lt_wf_ind. intros s ->.
  rewrite skip_eq. destruct (class_step table s) as [r |] eqn:E.
  - pose proof (class_step_shrinks _ _ E) as Hlt.
    destruct (class_step_Some _ _ E) as (c & v & Hin & ->).
    destruct (IH _ Hlt r eq_refl) as (cs & Hcs & Hr & Hstop).
    exists (c :: cs). split; [constructor; [now exists v | exact Hcs] |].
    split; [| exact Hstop].
    cbn [concat]. rewrite <- app_assoc. now rewrite <- Hr.
  - exists []. split; [constructor |]. split; [reflexivity | exact E].
Qed.

Lemma skip_concat (cs : list (list ascii)) (l : list ascii) :
  Forall (fun c => exists v, In (c, v) table) cs ->
  skip (class_step table) (concat cs ++ l) = skip (class_step table) l.
Proof.
  induction 1 as [| c cs [v Hc] _ IH]; [reflexivity |].
  cbn [concat]. rewrite <- app_assoc. now rewrite (skip_code c _ v Hc).
Qed.

(** A run of the class in front of a text is passed over. *)
Lemma skip_app (a l : list ascii) :
  skip (class_step table) a = [] ->
  skip (class_step table) (a ++ l) = skip (class_step table) l.
Proof.
  intros Ha. destruct (skip_split a) as (cs & Hcs & Hs & _).
  rewrite Ha, app_nil_r in Hs. rewrite Hs. now apply skip_concat.
Qed.

Hypothesis table_well_coded : well_coded table = true.

Lemma well_coded_spec (c : list ascii) (v : Z) :
  In (c, v) table ->
  exists b r, c = b :: r /\ is_cont b = false
              /\ Forall (fun x => is_cont x = true) r.
Proof.
  intros Hin. pose proof table_well_coded as H.
  unfold well_coded in H. rewrite forallb_forall in H. specialize (H _ Hin).
  cbn [fst] in H. destruct c as [| b r]; [discriminate |].
  apply andb_true_iff in H. destruct H as [Hb Hr].
  exists b, r. split; [reflexivity |]. split; [now apply negb_true_iff |].
  now apply Forall_forall, forallb_forall.
Qed.

(** A text that starts with no member of the class still starts with
    none when a text that opens on a first byte is put after it. *)
Lemma class_step_fresh (b l : list ascii) :
  b <> [] -> class_step table b = None ->
  match l with
  | x :: _ => is_cont x = false
  | [] => True
  end ->
  class_step table (b ++ l) = None.
Proof.
  intros Hb Hnone Hl. unfold class_step in *.
  destruct (lookup_prefix table b) eqn:Eb; [discriminate |].
  assert (Hn : lookup_prefix table (b ++ l) = None); [| now rewrite Hn].
  apply lookup_prefix_None. intros c v Hin.
  destruct (match_lit c (b ++ l)) as [rest |] eqn:E; [| reflexivity].
  exfalso.
  destruct (match_lit_comparable _ _ _ _ E) as [[r Hr] | (r & Hne & Hr)].
  - rewrite (proj1 (lookup_prefix_None table b) Eb c v Hin) in Hr. discriminate.
  - apply match_lit_Some in Hr, E. subst c.
    rewrite <- app_assoc in E. apply app_inv_head in E.
    destruct (well_coded_spec _ _ Hin) as (x & t & Hc & _ & Ht).
    destruct b as [| y b]; [contradiction |].
    injection Hc as _ Hc. 
    assert (Hr : Forall (fun x => is_cont x = true) r).
    { rewrite <- Hc in Ht. apply Forall_app in Ht. tauto. }
    destruct r as [| z r]; [contradiction |].
    apply Forall_inv in Hr. subst l. cbn [app] in Hl. congruence.
Qed.

End Class.

Lemma codes_nonempty (table : list (list ascii * Z)) :
  forallb (fun e => negb (is_nil (fst e))) table = true ->
  forall c v, In (c, v) table -> c <> [].
Proof.
  intros H c v Hin ->. rewrite forallb_forall in H.
  specialize (H _ Hin). discriminate H.
Qed.

(** The tables of white space and of digits are fit for reading. *)
Lemma space_table_checks :
  prefix_free space_table = true /\ well_coded space_table = true
  /\ forallb (fun e => negb (is_nil (fst e))) space_table = true.
Proof. vm_compute. auto. Qed.

Lemma space_table_back_checks :
  prefix_free space_table_back = true
  /\ forallb (fun e => negb (is_nil (fst e))) space_table_back = true.
Proof. vm_compute. auto. Qed.

Lemma digit_table_checks :
  prefix_free digit_table = true /\ well_coded digit_table = true
  /\ forallb (fun e => negb (is_nil (fst e))) digit_table = true.
Proof. vm_compute. auto. Qed.

Lemma skip_spaces_eq (s : list ascii) :
  skip_spaces s
  = match space_here s with
    | Some r => skip_spaces r
    | None => s
    end.
Proof.
  destruct space_table_checks as (Hp & _ & Hn).
  exact (skip_eq space_table (codes_nonempty _ Hn) s).
Qed.

Lemma skip_digits_eq (s : list ascii) :
  skip_digits s
  = match digit_rest s with
    | Some r => skip_digits r
    | None => s
    end.
Proof.
  destruct digit_table_checks as (Hp & _ & Hn).
  exact (skip_eq digit_table (codes_nonempty _ Hn) s).
Qed.

Lemma skip_spaces_app (a l : list ascii) :
  skip_spaces a = [] -> skip_spaces (a ++ l) = skip_spaces l.
Proof.
  destruct space_table_checks as (Hp & _ & Hn).
  exact (skip_app space_table Hp (codes_nonempty _ Hn) a l).
Qed.

Lemma skip_digits_app (a l : list ascii) :
  skip_digits a = [] -> skip_digits (a ++ l) = skip_digits l.
Proof.
  destruct digit_table_checks as (Hp & _ & Hn).
  exact (skip_app digit_table Hp (codes_nonempty _ Hn) a l).
Qed.

Lemma chars_app (a b : string) : chars (a ++ b)%string = chars a ++ chars b.
Proof.
  unfold chars. induction a as [| c a IH]; simpl; [reflexivity | now rewrite IH].
Qed.

Lemma chars_string (l : list ascii) : chars (string_of_list_ascii l) = l.
Proof. apply list_ascii_of_string_of_list_ascii. Qed.

Lemma string_chars (s : string) : string_of_list_ascii (chars s) = s.
Proof. apply string_of_list_ascii_of_string. Qed.

(** ** The decoders, on every argument *)

Lemma py_float_blank : py_float "" = Raise ValueError /\ py_float "-" = Raise ValueError.
Proof. split; reflexivity. Qed.

(** X1.  [_safe_float] never raises.  It returns absent exactly for a
    missing field, for text that is blank or a lone dash once stripped, and
    for text [float] rejects; otherwise it returns the float read from the
    stripped text. *)
Theorem X1_safe_float_outcomes :
  forall x : option string,
    (exists v, _safe_float x = Ret v)
    /\ (_safe_float x = Ret None
        <-> x = None
            \/ exists s, x = Some s
                         /\ (strip s = "" \/ strip s = "-"
                             \/ py_float (strip s) = Raise ValueError))
    /\ (forall f, _safe_float x = Ret (Some f)
                  <-> exists s, x = Some s /\ strip s <> "" /\ strip s <> "-"
                                /\ py_float (strip s) = Ret f).
Proof.
  intros [s |].
  2: { split; [now eexists |]. split.
       - split; [now left | reflexivity].
       - intros f. split; [discriminate | intros (s & H & _); discriminate]. }
  split; [apply _safe_float_returns |].
  unfold _safe_float.
  destruct (String.eqb_spec (strip s) "") as [E0 | N0]; cbn [orb].
  { split.
    - split; [intros _; right; exists s; auto | reflexivity].
    - intros f. split; [discriminate |].
      intros (s' & H & N & _). injection H as <-. contradiction. }
  destruct (String.eqb_spec (strip s) "-") as [E1 | N1].
  { split.
    - split; [intros _; right; exists s; auto | reflexivity].
    - intros f. split; [discriminate |].
      intros (s' & H & _ & N & _). injection H as <-. contradiction. }
  destruct (py_float (strip s)) as [f0 | e] eqn:E; cbn [bind except_ValueError].
  - split.
    + split; [discriminate |].
      intros [H | (s' & H & [H0 | [H1 | Hr]])]; try discriminate;
        injection H as <-; try contradiction. congruence.
    + intros f. split.
      * intros H. injection H as <-. exists s. auto.
      * intros (s' & H & _ & _ & Hf). injection H as <-. congruence.
  - pose proof (py_float_raises _ _ E) as ->. split.
    + split; [| reflexivity]. intros _. right. exists s. auto.
    + intros f. split; [discriminate |].
      intros (s' & H & _ & _ & Hf). injection H as <-. congruence.
Qed.

(** X2.  [_safe_int] raises exactly when the stripped text is read by
    [float] as an infinity, and then the exception is [OverflowError]; on
    every other argument it returns. *)
Theorem X2_safe_int_raises_iff :
  forall (x : option string) (e : exn),
    _safe_int x = Raise e
    <-> e = OverflowError
        /\ exists (s : string) (sign : bool),
             x = Some s /\ py_float (strip s) = Ret (S754_infinity sign).
Proof.
  intros x e. split; [apply _safe_int_raises |].
  intros (-> & s & sign & -> & E). unfold _safe_int.
  destruct (String.eqb_spec (strip s) "") as [E0 | _].
  { rewrite E0 in E. discriminate E. }
  destruct (String.eqb_spec (strip s) "-") as [E1 | _].
  { rewrite E1 in E. discriminate E. }
  cbn [orb]. now rewrite E.
Qed.

(** White space at the end of a text is passed over from the end. *)
Lemma skip_back_run (cs : list (list ascii)) :
  Forall (fun c => exists v, In (c, v) space_table) cs ->
  forall l, skip space_back (rev (concat cs) ++ l) = skip space_back l.
Proof.
  destruct space_table_back_checks as (Hp & Hn).
  induction 1 as [| c cs [v Hc] _ IH]; intros l; [reflexivity |].
  cbn [concat]. rewrite rev_app_distr, <- app_assoc, IH.
  apply (skip_code space_table_back Hp (codes_nonempty _ Hn) (rev c) l v).
  change space_table_back with (backwards space_table).
  unfold backwards. apply in_map_iff. now exists (c, v).
Qed.

(** Stripping ignores white space added at either end. *)
Lemma strip_padding (ws1 x ws2 : string) :
  all_space ws1 -> all_space ws2 -> strip (ws1 ++ x ++ ws2) = strip x.
Proof.
  unfold all_space, strip. intros H1 H2.
  destruct space_table_checks as (Hp & Hw & Hn).
  pose proof (codes_nonempty _ Hn) as Hne.
  rewrite !chars_app.
  rewrite (skip_spaces_app (chars ws1) (chars x ++ chars ws2) H1).
  destruct (skip_split space_table Hne (chars x)) as (cs & Hcs & Hx & Hstop).
  destruct (skip_split space_table Hne (chars ws2)) as (cs2 & Hcs2 & Hw2 & _).
  fold space_here skip_spaces in Hx, Hstop, Hw2.
  rewrite H2, app_nil_r in Hw2.
  remember (skip_spaces (chars x)) as y eqn:Ey.
  assert (E0 : skip_spaces (chars x ++ chars ws2) = skip_spaces (y ++ chars ws2)).
  { rewrite Hx at 1. rewrite <- app_assoc.
    exact (skip_concat space_table Hp Hne cs (y ++ chars ws2) Hcs). }
  rewrite E0. destruct y as [| b y'].
  - cbn [app]. now rewrite H2.
  - assert (Hf : space_here ((b :: y') ++ chars ws2) = None).
    { apply (class_step_fresh space_table Hw); [discriminate | rewrite Ey; exact Hstop |].
      destruct (chars ws2) as [| z t] eqn:Ez; [exact I |].
      destruct cs2 as [| c cs2']; [discriminate Hw2 |].
      apply Forall_inv in Hcs2. destruct Hcs2 as [v Hc].
      destruct (well_coded_spec space_table Hw c v Hc) as (c0 & r & -> & Hc0 & _).
      cbn [concat app] in Hw2. now injection Hw2 as -> _. }
    rewrite (skip_spaces_eq ((b :: y') ++ chars ws2)), Hf, rev_app_distr, Hw2.
    now rewrite (skip_back_run cs2 Hcs2).
Qed.

(** X3.  White space around a field value does not matter: both decoders
    give the same outcome on the text padded with white space, of any
    kind that [str.isspace()] knows, as on the text itself. *)
Theorem X3_decoders_ignore_padding :
  forall ws1 x ws2 : string,
    all_space ws1 -> all_space ws2 ->
    _safe_float (Some (ws1 ++ x ++ ws2)%string) = _safe_float (Some x)
    /\ _safe_int (Some (ws1 ++ x ++ ws2)%string) = _safe_int (Some x).
Proof.
  intros ws1 x ws2 H1 H2. unfold _safe_float, _safe_int.
  now rewrite (strip_padding ws1 x ws2 H1 H2).
Qed.

(** The padding of the witness: a tab and a no-break space in front, an
    em space and a line break behind. *)
Lemma X3_decoders_ignore_padding_witness :
  let ws1 := string_of_list_ascii (utf8 9 ++ utf8 160) in
  let ws2 := string_of_list_ascii (utf8 8195 ++ utf8 10) in
  _safe_int (Some (ws1 ++ "12.0" ++ ws2)%string) = Ret (Some 12).
Proof.
  cbv zeta.
  rewrite (proj2 (X3_decoders_ignore_padding
                    (string_of_list_ascii (utf8 9 ++ utf8 160)) "12.0"
                    (string_of_list_ascii (utf8 8195 ++ utf8 10))
                    ltac:(vm_compute; reflexivity) ltac:(vm_compute; reflexivity))).
  vm_compute. reflexivity.
Defined.

(** ** The compass, bucket by bucket *)

(** X4.  Each label covers the angles within 11.25 degrees of its compass
    point: for an angle reduced into [0, 360), the index is [k] exactly
    when the angle lies in [22.5 k - 11.25, 22.5 k + 11.25), where the
    bucket of index 0 also takes the angles from 348.75 up. *)
Theorem X4_compass_buckets :
  forall deg k : Z,
    0 <= k < 16 ->
    (compass_index (deg mod 360) = k
     <-> (90 * k - 45 <= 4 * (deg mod 360) < 90 * k + 45
          \/ (k = 0 /\ 1395 <= 4 * (deg mod 360)))).
Proof.
  intros deg k Hk. rewrite compass_index_Z.
  assert (Hd : 0 <= deg mod 360 < 360) by (apply Z.mod_pos_bound; lia).
  set (d := deg mod 360) in *.
  assert (Hq : 0 <= (4 * d + 45) / 90 <= 16).
  { split; [apply Z.div_pos; lia |].
    apply Z.lt_succ_r, Z.div_lt_upper_bound; lia. }
  assert (Hb : 90 * ((4 * d + 45) / 90) <= 4 * d + 45 < 90 * ((4 * d + 45) / 90) + 90).
  { assert (H90 : 90 <> 0) by lia. assert (H90' : 0 < 90) by lia.
    pose proof (Z.div_mod (4 * d + 45) 90 H90).
    pose proof (Z.mod_pos_bound (4 * d + 45) 90 H90'). lia. }
  destruct (Z.eq_dec ((4 * d + 45) / 90) 16) as [E16 | N16].
  - rewrite E16 in *. change (16 mod 16) with 0. lia.
  - rewrite Z.mod_small by lia. lia.
Qed.

Lemma X4_compass_buckets_witness : compass_index (101 mod 360) = 4.
Proof.
  assert (Hk : 0 <= 4 < 16) by lia.
  apply (proj2 (X4_compass_buckets 101 4 Hk)).
  left. change (101 mod 360) with 101. lia.
Defined.

(** X5.  Turning by a multiple of 45 degrees moves the label two places
    per step around the table: half a turn takes the label eight places
    on, from Nord to Sud. *)
Theorem X5_compass_rotation :
  forall deg n : Z,
    compass_index ((deg + 45 * n) mod 360)
    = (compass_index (deg mod 360) + 2 * n) mod 16.
Proof.
  intros deg n. rewrite !compass_index_mod, !compass_index_Z.
  replace (4 * (deg + 45 * n) + 45) with ((2 * n) * 90 + (4 * deg + 45)) by ring.
  rewrite Z.div_add_l by lia.
  rewrite (Z.add_comm (2 * n)). now rewrite Z.add_mod_idemp_l by lia.
Qed.

(** ** The first loop, on every page *)

Lemma py_getitem_In {A : Type} (l : list A) (i : Z) (a : A) :
  py_getitem l i = Ret a -> In a l.
Proof.
  unfold py_getitem. destruct (_ && _); [| discriminate].
  destruct (nth_error l _) as [b |] eqn:E; [| discriminate].
  intros H. injection H as <-. now apply nth_error_In in E.
Qed.

(** The weekday of a date is an index of the weekday table and the month
    of a valid date an index of the month table: the date label never
    fails. *)
Lemma _format_fr_date_total (d : datetime) :
  valid_datetime d = true ->
  _format_fr_date d
  = Ret (nth (Z.to_nat (weekday d)) _FR_WEEKDAYS ""
         ++ " " ++ str_of_int (day d) ++ " "
         ++ nth (Z.to_nat (month d - 1)) _FR_MONTHS "")%string.
Proof.
  intros V. apply valid_datetime_bounds in V. unfold _format_fr_date.
  assert (Hw : 0 <= weekday d < 7) by (apply Z.mod_pos_bound; lia).
  rewrite (py_getitem_nth _FR_WEEKDAYS (weekday d) "") by (simpl; lia).
  rewrite (py_getitem_nth _FR_MONTHS (month d - 1) "") by (simpl; lia).
  reflexivity.
Qed.

Lemma strftime_HM_inj (d : datetime) (h : Z) :
  0 <= hour d <= 23 -> 0 <= minute d <= 59 -> 0 <= h < 100 ->
  strftime_HM d = (pad2 h ++ ":" ++ pad2 0)%string ->
  hour d = h /\ minute d = 0.
Proof.
  intros Hh Hm Hb H. unfold strftime_HM, pad2 in H. simpl in H.
  injection H as H1 H2 H3 H4.
  assert (Eh : pad2 (hour d) = pad2 h) by (unfold pad2; congruence).
  assert (Em : pad2 (minute d) = pad2 0) by (unfold pad2; simpl; congruence).
  apply pad2_inj in Eh; [| lia | lia].
  apply pad2_inj in Em; [| lia | lia]. auto.
Qed.

(** The timestamps whose time-of-day label is one of the six targets. *)
Lemma target_time_iff (d : datetime) :
  valid_datetime d = true ->
  (str_in (strftime_HM d) target_times = true
   <-> minute d = 0 /\ In (hour d) target_hours).
Proof.
  intros V. apply valid_datetime_bounds in V.
  destruct V as (_ & _ & _ & Hh & Hm & _).
  rewrite str_in_In. unfold target_times, target_hours. split.
  - intros H. cbn [In] in H.
    destruct H as [H | [H | [H | [H | [H | [H | []]]]]]]; symmetry in H.
    + destruct (strftime_HM_inj d 6 Hh Hm ltac:(lia) H) as [-> ->]. cbn; tauto.
    + destruct (strftime_HM_inj d 9 Hh Hm ltac:(lia) H) as [-> ->]. cbn; tauto.
    + destruct (strftime_HM_inj d 12 Hh Hm ltac:(lia) H) as [-> ->]. cbn; tauto.
    + destruct (strftime_HM_inj d 15 Hh Hm ltac:(lia) H) as [-> ->]. cbn; tauto.
    + destruct (strftime_HM_inj d 18 Hh Hm ltac:(lia) H) as [-> ->]. cbn; tauto.
    + destruct (strftime_HM_inj d 21 Hh Hm ltac:(lia) H) as [-> ->]. cbn; tauto.
  - intros [Em Hin]. unfold strftime_HM. rewrite Em. cbn [In] in Hin.
    repeat (destruct Hin as [<- | Hin]; [cbn; tauto |]). contradiction.
Qed.

Lemma collect_rows_Forall (P : row -> Prop) (ms : list entry_match) :
  (forall rows m rows', Forall P rows -> entry_step rows m = Ret rows' ->
                        Forall P rows') ->
  forall rows rows',
    Forall P rows -> collect_rows rows ms = Ret rows' -> Forall P rows'.
Proof.
  intros Hstep. induction ms as [| m ms IH]; intros rows rows' HP;
    cbn [collect_rows].
  - intros H. injection H as <-. exact HP.
  - destruct (entry_step rows m) as [rows1 |] eqn:E; cbn [bind]; [| discriminate].
    apply IH. now apply (Hstep rows m).
Qed.

(** X6.  The time-of-day filter.  A record whose timestamp is not on the
    hour at 6, 9, 12, 15, 18 or 21 adds no row, whatever its fields hold;
    and every row the first loop collects has such a timestamp, the
    seconds being free. *)
Theorem X6_time_of_day_filter :
  (forall (rows : list row) (m : entry_match) (dt : datetime),
      strptime (m_dt m) = Ret dt ->
      ~ (minute dt = 0 /\ In (hour dt) target_hours) ->
      entry_step rows m = Ret rows)
  /\ (forall (ms : list entry_match) (rows : list row),
         collect_rows [] ms = Ret rows ->
         Forall (fun r => minute (_dt r) = 0
                          /\ In (hour (_dt r)) target_hours
                          /\ In (Time r) target_times) rows).
Proof.
  split.
  - intros rows m dt Hdt Hoff. unfold entry_step. rewrite Hdt. cbn [bind].
    destruct (str_in (strftime_HM dt) target_times) eqn:E; [| reflexivity].
    exfalso. apply Hoff.
    apply (target_time_iff dt (strptime_valid _ _ Hdt)). exact E.
  - intros ms rows H.
    apply (collect_rows_Forall _ ms) with (rows := []); [| constructor | exact H].
    intros rows0 m rows' HP Hstep. apply entry_step_cases in Hstep.
    destruct Hstep
      as [-> | (r & h & hm & v & d & -> & _ & _ & _ & _ & Hdt & _ & Ht & Hin & _)];
      [exact HP |].
    apply Forall_app. split; [exact HP |]. constructor; [| constructor].
    apply strptime_valid in Hdt.
    rewrite Ht in Hin.
    destruct (proj1 (target_time_iff _ Hdt) Hin) as [Hm Hh].
    repeat split; try assumption.
    apply str_in_In. now rewrite Ht.
Qed.

Lemma X6_time_of_day_filter_witness :
  entry_step [] (mk_match "2022-10-22 07:00:00" "") = Ret []
  /\ Forall (fun r => minute (_dt r) = 0
                      /\ In (hour (_dt r)) target_hours
                      /\ In (Time r) target_times)
       (rows_of_page ten_days_page).
Proof.
  split.
  - apply (proj1 X6_time_of_day_filter [] _ (mk_datetime 2022 10 22 7 0 0)).
    + vm_compute. reflexivity.
    + cbn. intros [_ H]. repeat (destruct H as [H | H]; [discriminate H |]).
      exact H.
  - apply (proj2 X6_time_of_day_filter (finditer ten_days_page)).
    vm_compute. reflexivity.
Defined.

(** ** What a turn of the first loop can raise *)




(** ** The cells of a row *)

(** The row a turn of the first loop appends, field by field. *)
Lemma entry_step_row (rows rows' : list row) (m : entry_match) :
  entry_step rows m = Ret rows' ->
  rows' = rows
  \/ exists dt houle houle_max vent dir_deg date wind,
       strptime (m_dt m) = Ret dt
       /\ _format_fr_date dt = Ret date
       /\ _deg_to_fr_compass dir_deg = Ret wind
       /\ rows' = rows ++ [mk_row dt date (strftime_HM dt)
                             (format_1f houle ++ "m - " ++ format_1f houle_max ++ "m")
                             (str_of_int vent ++ "km/h") wind].
Proof.
  unfold entry_step.
  destruct (strptime (m_dt m)) as [dt |]; cbn [bind]; [| discriminate].
  destruct (str_in (strftime_HM dt) target_times); cbn [negb].
  2: { intros H; injection H as <-; now left. }
  destruct (_safe_float _) as [houle |]; cbn [bind]; [| discriminate].
  destruct (_safe_float _) as [houle_max |]; cbn [bind]; [| discriminate].
  destruct (_safe_int _) as [vent |]; cbn [bind]; [| discriminate].
  destruct (_safe_int _) as [dir_deg |]; cbn [bind]; [| discriminate].
  destruct houle as [h |], houle_max as [hm |], vent as [v |], dir_deg as [dg |];
    try (intros H; injection H as <-; now left).
  destruct (_format_fr_date dt) as [date |] eqn:Hd; cbn [bind]; [| discriminate].
  destruct (_deg_to_fr_compass dg) as [wind |] eqn:Hw; cbn [bind]; [| discriminate].
  intros H; injection H as <-. right.
  exists dt, h, hm, v, dg, date, wind. auto.
Qed.

Lemma plain_app (a b : string) : plain (a ++ b)%string = plain a && plain b.
Proof.
  induction a as [| c a IH]; simpl; [reflexivity |].
  now rewrite IH, andb_assoc.
Qed.

Lemma digit_char_plain (d : Z) : 0 <= d <= 9 -> plain_char (digit_char d) = true.
Proof.
  intros H.
  assert (Hc : d = 0 \/ d = 1 \/ d = 2 \/ d = 3 \/ d = 4 \/ d = 5 \/ d = 6
               \/ d = 7 \/ d = 8 \/ d = 9) by lia.
  repeat (destruct Hc as [-> | Hc]; [reflexivity |]). now subst d.
Qed.

Lemma pad2_plain (n : Z) : plain (pad2 n) = true.
Proof.
  unfold pad2. cbn [plain].
  rewrite !digit_char_plain; [reflexivity | |].
  - pose proof (Z.mod_pos_bound n 10). lia.
  - pose proof (Z.mod_pos_bound (n / 10) 10). lia.
Qed.

Lemma string_of_uint_plain (d : Decimal.uint) :
  plain (NilEmpty.string_of_uint d) = true
  /\ space_free (NilEmpty.string_of_uint d) = true.
Proof. induction d; simpl; tauto. Qed.

Lemma str_of_int_plain (n : Z) :
  plain (str_of_int n) = true /\ space_free (str_of_int n) = true.
Proof.
  unfold str_of_int, NilZero.string_of_int, NilZero.string_of_uint.
  destruct (Z.to_int n) as [d | d]; destruct d; simpl;
    try (split; reflexivity); apply string_of_uint_plain.
Qed.

Lemma format_1f_plain (x : binary64) : plain (format_1f x) = true.
Proof.
  destruct x as [s | s | | s m e]; try (destruct s; reflexivity); [reflexivity |].
  unfold format_1f. cbv zeta.
  set (tenths := if 0 <=? e then _ else _).
  rewrite plain_app, plain_app. cbn [String.append plain].
  destruct (str_of_int_plain (tenths / 10)) as [-> _].
  destruct (str_of_int_plain (tenths mod 10)) as [-> _].
  now destruct s.
Qed.

Lemma table_entry (P : string -> bool) (l : list string) (i : Z) (a : string) :
  forallb P l = true -> py_getitem l i = Ret a -> P a = true.
Proof.
  intros H E. apply py_getitem_In in E.
  rewrite forallb_forall in H. now apply H.
Qed.

Lemma date_label_plain (d : datetime) (label : string) :
  _format_fr_date d = Ret label -> plain label = true.
Proof.
  unfold _format_fr_date.
  destruct (py_getitem _FR_WEEKDAYS _) as [wd |] eqn:Ew; cbn [bind]; [| discriminate].
  destruct (py_getitem _FR_MONTHS _) as [mo |] eqn:Em; cbn [bind]; [| discriminate].
  intros H. injection H as <-.
  rewrite plain_app. cbn [plain]. rewrite plain_app. cbn [plain].
  destruct (str_of_int_plain (day d)) as [-> _].
  rewrite (table_entry plain _FR_WEEKDAYS _ _ eq_refl Ew),
    (table_entry plain _FR_MONTHS _ _ eq_refl Em).
  reflexivity.
Qed.

Lemma plain_no_comma (s : string) : plain s = true -> count_commas s = 0%nat.
Proof.
  induction s as [| c s IH]; simpl; [reflexivity |].
  unfold plain_char. destruct (Ascii.eqb c ","); simpl; [discriminate |].
  intros H. apply andb_true_iff in H. now apply IH.
Qed.

Lemma count_commas_app (a b : string) :
  count_commas (a ++ b)%string = (count_commas a + count_commas b)%nat.
Proof. induction a as [| c a IH]; simpl; [reflexivity | rewrite IH; lia]. Qed.

Lemma count_commas_join (cells : list string) :
  Forall (fun cell => plain cell = true) cells ->
  count_commas (join_with "," cells) = (List.length cells - 1)%nat.
Proof.
  induction 1 as [| c cells Hc Hall IH]; [reflexivity |].
  destruct cells as [| c2 rest].
  - simpl. now apply plain_no_comma.
  - change (join_with "," (c :: c2 :: rest))
      with (c ++ "," ++ join_with "," (c2 :: rest))%string.
    rewrite !count_commas_app, IH, (plain_no_comma c Hc). simpl. lia.
Qed.

(** X7.  No cell of a collected row holds a comma, a quote or a line
    break, so the file needs no quoting: the header and every data line
    written by [to_csv] have exactly four commas. *)
Theorem X7_csv_cells_need_no_quoting :
  forall (ms : list entry_match) (rows : list row),
    collect_rows [] ms = Ret rows ->
    Forall (fun r => Forall (fun cell => plain cell = true) (row_cells r)) rows
    /\ Forall (fun line => count_commas line = 4%nat)
         (csv_lines (mk_frame COLUMNS (map row_cells rows))).
Proof.
  intros ms rows H.
  assert (Hcells : Forall (fun r => Forall (fun cell => plain cell = true)
                                      (row_cells r)) rows).
  { apply (collect_rows_Forall _ ms) with (rows := []); [| constructor | exact H].
    intros rows0 m rows' HP Hstep. apply entry_step_row in Hstep.
    destruct Hstep as [-> | (dt & h & hm & v & dg & date & wind & _ & Hd & Hw & ->)];
      [exact HP |].
    apply Forall_app. split; [exact HP |]. constructor; [| constructor].
    unfold row_cells. cbn [Date Time Wave_size Wind_speed Wind_direction].
    repeat constructor.
    - now apply date_label_plain with (d := dt).
    - unfold strftime_HM. now rewrite !plain_app, !pad2_plain.
    - now rewrite !plain_app, !format_1f_plain.
    - now rewrite plain_app, (proj1 (str_of_int_plain v)).
    - unfold _deg_to_fr_compass in Hw.
      exact (table_entry plain _FR_COMPASS_16 _ _ eq_refl Hw). }
  split; [exact Hcells |].
  unfold csv_lines. cbn [columns records]. constructor; [reflexivity |].
  rewrite Forall_map. rewrite Forall_map.
  apply Forall_impl with (2 := Hcells).
  intros r Hr. now rewrite count_commas_join.
Qed.

Lemma X7_csv_cells_need_no_quoting_witness :
  Forall (fun line => count_commas line = 4%nat)
    (csv_lines (mk_frame COLUMNS (map row_cells (rows_of_page ten_days_page)))).
Proof.
  apply (proj2 (X7_csv_cells_need_no_quoting (finditer ten_days_page)
                  (rows_of_page ten_days_page) ltac:(vm_compute; reflexivity))).
Defined.

(** ** Reading a date label back *)

Lemma app_space_inj (a a' r r' : string) :
  space_free a = true -> space_free a' = true ->
  (a ++ String " " r)%string = (a' ++ String " " r')%string ->
  a = a' /\ r = r'.
Proof.
  revert a'. induction a as [| c a IH]; intros [| c' a']; simpl.
  - intros _ _ H. injection H as <-. auto.
  - intros _ H' H. injection H as <- _.
    rewrite Ascii.eqb_refl in H'. discriminate.
  - intros H' _ H. injection H as -> _.
    rewrite Ascii.eqb_refl in H'. discriminate.
  - intros H H' E. injection E as <- E.
    apply andb_true_iff in H, H'.
    destruct (IH a' (proj2 H) (proj2 H') E) as [-> ->]. auto.
Qed.

Lemma table_index_inj (l : list string) (i j : Z) :
  NoDup l ->
  0 <= i < Z.of_nat (List.length l) -> 0 <= j < Z.of_nat (List.length l) ->
  nth (Z.to_nat i) l "" = nth (Z.to_nat j) l "" -> i = j.
Proof.
  intros Hnd Hi Hj E.
  apply (proj1 (NoDup_nth l "") Hnd) in E; lia.
Qed.

Lemma table_nth (P : string -> bool) (l : list string) (i : Z) :
  forallb P l = true -> 0 <= i < Z.of_nat (List.length l) ->
  P (nth (Z.to_nat i) l "") = true.
Proof.
  intros H Hi. rewrite forallb_forall in H. apply H, nth_In. lia.
Qed.

Lemma NoDup_check (l : list string) : nodup string_dec l = l -> NoDup l.
Proof. intros <-. apply NoDup_nodup. Qed.

(** The date label of a valid date gives back its weekday, its day of
    the month and its month. *)
Lemma date_label_fields (a b : datetime) :
  valid_datetime a = true -> valid_datetime b = true ->
  _format_fr_date a = _format_fr_date b ->
  weekday a = weekday b /\ day a = day b /\ month a = month b.
Proof.
  intros Va Vb. rewrite (_format_fr_date_total a Va), (_format_fr_date_total b Vb).
  apply valid_datetime_bounds in Va, Vb.
  assert (Hwa : 0 <= weekday a < 7) by (apply Z.mod_pos_bound; lia).
  assert (Hwb : 0 <= weekday b < 7) by (apply Z.mod_pos_bound; lia).
  intros H. injection H as H.
  apply app_space_inj in H;
    [| apply (table_nth space_free _FR_WEEKDAYS); [reflexivity | simpl; lia] ..].
  destruct H as [Hw H].
  apply app_space_inj in H; [| apply str_of_int_plain ..].
  destruct H as [Hd Hm].
  apply (table_index_inj _FR_WEEKDAYS) in Hw;
    [| apply NoDup_check; vm_compute; reflexivity | simpl; lia | simpl; lia].
  apply (table_index_inj _FR_MONTHS) in Hm;
    [| apply NoDup_check; vm_compute; reflexivity | simpl; lia | simpl; lia].
  apply str_of_int_inj in Hd. lia.
Qed.

(** X8.  The date label gives back the weekday, the day of the month and
    the month of a row, and nothing of its year: two collected rows with
    one label agree on all three, and are of one calendar day as soon as
    they are of one year.  Rows of a single year thus have labels that
    tell their days apart. *)
Theorem X8_date_label_reads_back :
  forall rows : list row,
    Forall row_ok rows ->
    (forall a b, In a rows -> In b rows -> Date a = Date b ->
                 weekday (_dt a) = weekday (_dt b)
                 /\ day (_dt a) = day (_dt b)
                 /\ month (_dt a) = month (_dt b))
    /\ ((forall a b, In a rows -> In b rows -> year (_dt a) = year (_dt b)) ->
        labels_tell_days rows).
Proof.
  intros rows Hok. rewrite Forall_forall in Hok.
  assert (Hfields : forall a b, In a rows -> In b rows -> Date a = Date b ->
                                weekday (_dt a) = weekday (_dt b)
                                /\ day (_dt a) = day (_dt b)
                                /\ month (_dt a) = month (_dt b)).
  { intros a b Ha Hb E.
    destruct (Hok a Ha) as (Va & Da & _), (Hok b Hb) as (Vb & Db & _).
    apply date_label_fields; congruence. }
  split; [exact Hfields |].
  intros Hyear a b Ha Hb E.
  destruct (Hfields a b Ha Hb E) as (_ & Hd & Hm).
  unfold date_key_of. apply day_date_key. unfold day_of.
  now rewrite Hd, Hm, (Hyear a b Ha Hb).
Qed.

Lemma X8_date_label_reads_back_witness :
  labels_tell_days (rows_of_page ten_days_page).
Proof.
  apply (proj2 (X8_date_label_reads_back (rows_of_page ten_days_page)
                  (rows_of_page_ok ten_days_page))).
  intros a b Ha Hb.
  assert (H : Forall (fun r => year (_dt r) = 2022) (rows_of_page ten_days_page))
    by (vm_compute; repeat constructor).
  rewrite Forall_forall in H. rewrite (H a Ha), (H b Hb). reflexivity.
Defined.

(** ** The sort and the cut, on every list of rows *)

Lemma same_time_not_before (t : datetime) (x r : row) :
  same_time t r = true -> dt_ltb (_dt x) (_dt r) = true -> same_time t x = false.
Proof.
  unfold same_time, dt_ltb. intros Hr Hx.
  destruct (tuple_cmp (dt_tuple (_dt r)) (dt_tuple t)) eqn:Er; try discriminate.
  apply tuple_cmp_eq in Er. rewrite <- Er.
  destruct (tuple_cmp (dt_tuple (_dt x)) (dt_tuple (_dt r))); congruence.
Qed.

(** Inserting a row does not change the order of the rows of any one
    timestamp. *)
Lemma insert_row_stable (t : datetime) (r : row) (l : list row) :
  filter (same_time t) (insert_row r l) = filter (same_time t) (r :: l).
Proof.
  induction l as [| x l IH]; [reflexivity |].
  cbn [insert_row].
  destruct (dt_ltb (_dt x) (_dt r)) eqn:E; [| reflexivity].
  cbn [filter] in *. rewrite IH.
  destruct (same_time t r) eqn:Er; [| reflexivity].
  now rewrite (same_time_not_before t x r Er E).
Qed.

(** X9.  The sort puts the rows in ascending order of timestamp, keeps
    each of them, and is stable: rows of one timestamp stay in the order
    of the page. *)
Theorem X9_sort_is_stable :
  forall rows : list row,
    Permutation rows (sort_rows rows)
    /\ StronglySorted dt_le (sort_rows rows)
    /\ forall t, filter (same_time t) (sort_rows rows) = filter (same_time t) rows.
Proof.
  intros rows. split; [apply sort_rows_perm |]. split; [apply sort_rows_sorted |].
  intros t. induction rows as [| r rows IH]; [reflexivity |].
  cbn [sort_rows]. rewrite insert_row_stable. cbn [filter]. now rewrite IH.
Qed.

Lemma sort_rows_sorted_id (l : list row) :
  StronglySorted dt_le l -> sort_rows l = l.
Proof.
  induction 1 as [| x l Hs IH Hx]; [reflexivity |].
  cbn [sort_rows]. rewrite IH. destruct l as [| y l']; [reflexivity |].
  cbn [insert_row]. inversion Hx as [| ? ? Hxy _]; subst.
  unfold dt_le, dt_leb in Hxy. unfold dt_ltb.
  rewrite (tuple_cmp_antisym (dt_tuple (_dt x)) (dt_tuple (_dt y))).
  destruct (tuple_cmp (dt_tuple (_dt x)) (dt_tuple (_dt y)));
    try discriminate; reflexivity.
Qed.

(** With no more than seven days in the list, the second loop keeps every
    row. *)
Lemma keep_days_all (l : list row) :
  (List.length (day_keys l) <= 7)%nat -> snd (keep_days l [] []) = l.
Proof.
  intros H7.
  destruct (keep_days_spec l [] []) as (pre & post & E & K & _ & Hstop);
    [simpl; lia |].
  rewrite K. cbn [snd app].
  destruct Hstop as [-> | (r & post' & -> & Hr & Hlen)];
    [now rewrite app_nil_r in E |].
  exfalso. subst l. unfold day_keys, distinct in H7.
  rewrite map_app, collect_keys_app in H7. cbn [map collect_keys] in H7.
  apply str_in_not_In in Hr. rewrite Hr in H7.
  pose proof (collect_keys_length_mono
                (collect_keys [] (map date_key_of pre) ++ [date_key_of r])
                (map date_key_of post')) as Hm.
  rewrite length_app, Hlen in Hm. simpl in Hm. lia.
Qed.

(** X10.  The cut never lets more than seven calendar days through: the
    days of the output are the first seven distinct days of the sorted
    rows.  A list of no more than seven days passes whole, sorted. *)
Theorem X10_cut_keeps_seven_days_at_most :
  forall rows : list row,
    (List.length (day_keys (first_seven_days rows)) <= 7)%nat
    /\ day_keys (first_seven_days rows) = first_seven_day_keys rows
    /\ ((List.length (day_keys rows) <= 7)%nat ->
        first_seven_days rows = sort_rows rows).
Proof.
  intros rows.
  destruct (first_seven_days_spec rows) as (post & E & Hl & H7 & _).
  split; [exact Hl |]. split; [now rewrite <- H7 |].
  intros Hfew. unfold first_seven_days. apply keep_days_all.
  now rewrite <- (day_keys_length_perm _ _ (sort_rows_perm rows)).
Qed.

Lemma X10_cut_keeps_seven_days_at_most_witness :
  first_seven_days (firstn 5 (rows_of_page ten_days_page))
  = sort_rows (firstn 5 (rows_of_page ten_days_page)).
Proof.
  apply (proj2 (proj2 (X10_cut_keeps_seven_days_at_most
                         (firstn 5 (rows_of_page ten_days_page))))).
  vm_compute. lia.
Defined.

(** X11.  Cutting twice is cutting once: the output of the sort and the
    cut is left as it is by a second pass. *)
Theorem X11_cut_is_idempotent :
  forall rows : list row,
    first_seven_days (first_seven_days rows) = first_seven_days rows.
Proof.
  intros rows.
  destruct (first_seven_days_spec rows) as (post & E & Hl & _).
  assert (Hs : StronglySorted dt_le (first_seven_days rows)).
  { pose proof (sort_rows_sorted rows) as Hs. rewrite E in Hs.
    apply (sorted_app_inv _ _ Hs). }
  unfold first_seven_days at 1. rewrite (sort_rows_sorted_id _ Hs).
  now apply keep_days_all.
Qed.

(** ** The field pattern *)

Lemma take_while_stop (p : ascii -> bool) (ds : list ascii) (c : ascii) (r : list ascii) :
  Forall (fun x => p x = true) ds -> p c = false ->
  take_while p (ds ++ c :: r) = ds /\ drop_while p (ds ++ c :: r) = c :: r.
Proof.
  intros Hds Hc. induction Hds as [| x ds Hx _ [IH1 IH2]]; simpl.
  - now rewrite Hc.
  - rewrite Hx, IH1. auto.
Qed.

(** A byte that starts no member of a class stops the reading. *)
Lemma class_step_miss (table : list (list ascii * Z)) (c : ascii) (x : list ascii) :
  forallb (fun e => match fst e with
                    | b :: _ => negb (Ascii.eqb b c)
                    | [] => false
                    end) table = true ->
  class_step table (c :: x) = None.
Proof.
  intros H. unfold class_step.
  assert (Hn : lookup_prefix table (c :: x) = None); [| now rewrite Hn].
  apply lookup_prefix_None. intros code v Hin.
  rewrite forallb_forall in H. specialize (H _ Hin). cbn [fst] in H.
  destruct code as [| b r]; [discriminate |]. cbn [match_lit].
  apply negb_true_iff in H. now rewrite H.
Qed.

Lemma skip_spaces_miss (c : ascii) (x : list ascii) :
  forallb (fun e => match fst e with
                    | b :: _ => negb (Ascii.eqb b c)
                    | [] => false
                    end) space_table = true ->
  skip_spaces (c :: x) = c :: x.
Proof.
  intros H. rewrite skip_spaces_eq.
  unfold space_here. now rewrite (class_step_miss space_table c x H).
Qed.

Lemma skip_digits_miss (c : ascii) (x : list ascii) :
  forallb (fun e => match fst e with
                    | b :: _ => negb (Ascii.eqb b c)
                    | [] => false
                    end) digit_table = true ->
  skip_digits (c :: x) = c :: x.
Proof.
  intros H. rewrite skip_digits_eq.
  unfold digit_rest. now rewrite (class_step_miss digit_table c x H).
Qed.

(** A run of digits that is not empty starts with a digit. *)
Lemma digit_here_run (ds x : list ascii) :
  skip_digits ds = [] -> ds <> [] -> digit_here (ds ++ x) <> None.
Proof.
  destruct digit_table_checks as (Hp & _ & Hn).
  intros Hds Hne. rewrite skip_digits_eq in Hds.
  destruct (digit_rest ds) as [r |] eqn:E; [| contradiction].
  destruct (class_step_Some digit_table _ _ E) as (c & v & Hin & ->).
  unfold digit_here. rewrite <- app_assoc.
  rewrite (lookup_prefix_code digit_table Hp c (r ++ x) v Hin). discriminate.
Qed.

Lemma field_key_chars (field : string) :
  chars (field_key field)
  = chars "[" ++ quote_char :: chars field ++ quote_char :: chars "]".
Proof.
  unfold field_key, quoted.
  change (chars ("[" ++ String quote_char (field ++ String quote_char "") ++ "]"))
    with ("["%char :: quote_char :: chars ((field ++ String quote_char "") ++ "]")).
  rewrite !chars_app, <- app_assoc. reflexivity.
Qed.

(** The field pattern on a well-formed field: the value between the
    quotes, whatever the white space and the declared length. *)
Lemma field_here_value (field : string) (ws1 ws2 ds ws3 value rest : list ascii) :
  skip_spaces ws1 = [] -> skip_spaces ws2 = [] -> skip_spaces ws3 = [] ->
  skip_digits ds = [] -> ds <> [] ->
  Forall (fun c => not_quote c = true) value ->
  field_here field
    (chars (field_key field) ++ ws1 ++ chars "=>" ++ ws2 ++ chars "string("
       ++ ds ++ chars ")" ++ ws3 ++ quote_char :: value ++ quote_char :: rest)
  = Some value.
Proof.
  intros H1 H2 H3 Hd Hne Hv. unfold field_here.
  rewrite <- field_key_chars, match_lit_app. cbn [obind].
  rewrite (skip_spaces_app ws1 _ H1).
  change (chars "=>" ++ ?x) with ("="%char :: ">"%char :: x).
  rewrite skip_spaces_miss by (vm_compute; reflexivity).
  change (match_lit (chars "=>") ("="%char :: ">"%char :: ?x)) with (Some x).
  cbn [obind]. rewrite (skip_spaces_app ws2 _ H2).
  change (chars "string(" ++ ?x) with ("s"%char :: chars "tring(" ++ x).
  rewrite skip_spaces_miss by (vm_compute; reflexivity).
  change (match_lit (chars "string(") ("s"%char :: chars "tring(" ++ ?x))
    with (Some x).
  cbn [obind].
  destruct (digit_here (ds ++ _)) eqn:Eh;
    [| exfalso; revert Eh; now apply digit_here_run].
  rewrite (skip_digits_app ds _ Hd).
  change (chars ")" ++ ?x) with (")"%char :: x).
  rewrite skip_digits_miss by (vm_compute; reflexivity).
  change (match_lit (chars ")") (")"%char :: ?x)) with (Some x).
  cbn [obind]. rewrite (skip_spaces_app ws3 _ H3).
  rewrite skip_spaces_miss by (vm_compute; reflexivity).
  change (match_lit [quote_char] (quote_char :: ?x)) with (Some x).
  cbn [obind].
  destruct (take_while_stop not_quote value quote_char rest Hv eq_refl) as [Et' Ed'].
  rewrite Et', Ed'.
  change (match_lit [quote_char] (quote_char :: ?x)) with (Some x).
  reflexivity.
Qed.

(** No byte of white space is an opening bracket. *)
Lemma space_bytes (ws : list ascii) :
  skip_spaces ws = [] -> Forall (fun c => Ascii.eqb "[" c = false) ws.
Proof.
  destruct space_table_checks as (Hp & _ & Hn).
  intros H. destruct (skip_split space_table (codes_nonempty _ Hn) ws)
    as (cs & Hcs & Hs & _).
  fold space_here skip_spaces in Hs. rewrite H, app_nil_r in Hs. subst ws.
  clear H. induction Hcs as [| c cs [v Hc] _ IH]; [constructor |].
  cbn [concat]. apply Forall_app. split; [| exact IH].
  assert (Hall : forallb (fun e => forallb (fun b => negb (Ascii.eqb "[" b)) (fst e))
                   space_table = true) by (vm_compute; reflexivity).
  rewrite forallb_forall in Hall. specialize (Hall _ Hc). cbn [fst] in Hall.
  rewrite forallb_forall in Hall. apply Forall_forall. intros b Hb.
  now apply negb_true_iff, Hall.
Qed.

Lemma search_field_skip (field : string) (pre s : list ascii) :
  skip_spaces pre = [] ->
  search_field field (pre ++ s) = search_field field s.
Proof.
  intros H. apply space_bytes in H.
  induction H as [| c pre Hc _ IH]; [reflexivity |].
  cbn [app search_field].
  assert (E : field_here field (c :: pre ++ s) = None).
  { unfold field_here. unfold chars at 1. cbn [list_ascii_of_string app match_lit].
    now rewrite Hc. }
  now rewrite E.
Qed.

Lemma search_field_Some (field : string) (s v : list ascii) :
  search_field field s = Some v ->
  exists pre post, s = pre ++ chars (field_key field) ++ post.
Proof.
  induction s as [| c s IH]; cbn [search_field].
  - destruct (field_here field []) eqn:E; [| discriminate].
    intros _. unfold field_here in E. rewrite <- field_key_chars in E.
    destruct (match_lit (chars (field_key field)) []) as [r |] eqn:Em;
      [| discriminate].
    apply match_lit_Some in Em. exists [], r. exact Em.
  - destruct (field_here field (c :: s)) eqn:E.
    + intros _. unfold field_here in E. rewrite <- field_key_chars in E.
      destruct (match_lit (chars (field_key field)) (c :: s)) as [r |] eqn:Em;
        [| discriminate].
      apply match_lit_Some in Em. exists [], r. exact Em.
    + intros H. destruct (IH H) as (pre & post & ->).
      exists (c :: pre), post. reflexivity.
Qed.

(** X12.  Reading a field back.  From a body that opens, after white
    space only, with the bracketed quoted name, an arrow, [string(N)] and
    a quoted value, all separated by any white space, the extractor
    returns the value between the quotes; the declared length [N], any
    run of decimal digits, is not looked at.  White space and digits are
    those of [\s] and [\d]: all that Unicode knows. *)
Theorem X12_field_value_read_back :
  forall pre field ws1 ws2 digits ws3 value rest : string,
    all_space pre -> all_space ws1 -> all_space ws2 -> all_space ws3 ->
    all_digits digits -> digits <> "" -> quote_free value ->
    _extract_phpdump_string
      (pre ++ field_key field ++ ws1 ++ "=>" ++ ws2 ++ "string(" ++ digits ++ ")"
         ++ ws3 ++ quoted value ++ rest)%string
      field
    = Some value.
Proof.
  intros pre field ws1 ws2 digits ws3 value rest Hp H1 H2 H3 Hd Hne Hv.
  unfold _extract_phpdump_string, quoted.
  rewrite chars_app, search_field_skip by exact Hp.
  rewrite !chars_app.
  change (chars (String quote_char (value ++ String quote_char "")))
    with (quote_char :: chars (value ++ String quote_char "")).
  rewrite chars_app.
  change (chars (String quote_char "")) with [quote_char].
  assert (E : field_here field
                (chars (field_key field) ++ chars ws1 ++ chars "=>" ++ chars ws2
                   ++ chars "string(" ++ chars digits ++ chars ")" ++ chars ws3
                   ++ (quote_char :: chars value ++ [quote_char]) ++ chars rest)
              = Some (chars value)).
  { cbn [app]. rewrite <- app_assoc. cbn [app].
    apply field_here_value; try assumption.
    intros E. apply Hne. rewrite <- (string_chars digits), E. reflexivity. }
  destruct (chars (field_key field) ++ _) as [| c s] eqn:Es.
  - cbn [search_field]. rewrite E. cbn [option_map]. now rewrite string_chars.
  - cbn [search_field]. rewrite E. cbn [option_map]. now rewrite string_chars.
Qed.

(** The field of the witness has a no-break space after the arrow, its
    length in Arabic-Indic digits and an ideographic space before the
    value. *)
Lemma X12_field_value_read_back_witness :
  _extract_phpdump_string
    ("    " ++ field_key "houle" ++ "" ++ "=>"
       ++ string_of_list_ascii (utf8 160 ++ utf8 10) ++ "string("
       ++ string_of_list_ascii (utf8 1635) ++ ")"
       ++ string_of_list_ascii (utf8 12288) ++ quoted "0.8" ++ newline)%string
    "houle"
  = Some "0.8".
Proof.
  apply X12_field_value_read_back;
    try (vm_compute; reflexivity); try (repeat constructor); discriminate.
Defined.

(** X13.  A field that is not there.  When the bracketed quoted name
    occurs nowhere in the body the extractor returns absent, so both
    decoders give absent and the record is dropped. *)
Theorem X13_missing_field_is_absent :
  forall body field : string,
    ~ occurs_in (field_key field) body ->
    _extract_phpdump_string body field = None
    /\ _safe_float (_extract_phpdump_string body field) = Ret None
    /\ _safe_int (_extract_phpdump_string body field) = Ret None.
Proof.
  intros body field Hno.
  assert (E : _extract_phpdump_string body field = None).
  { unfold _extract_phpdump_string.
    destruct (search_field field (chars body)) as [v |] eqn:Es; [| reflexivity].
    exfalso. apply Hno. apply search_field_Some in Es.
    destruct Es as (pre & post & Es).
    exists (string_of_list_ascii pre), (string_of_list_ascii post).
    rewrite <- (string_chars body), Es.
    rewrite <- (string_chars (field_key field)) at 2.
    clear. generalize (chars (field_key field)). intros k.
    induction pre as [| c pre IH]; cbn [app string_of_list_ascii String.append].
    - induction k as [| c k IH]; cbn [app string_of_list_ascii String.append];
        [reflexivity | now rewrite IH].
    - now rewrite IH. }
  rewrite E. repeat split; reflexivity.
Qed.

Lemma startswith_app (sub post : string) : startswith sub (sub ++ post)%string = true.
Proof.
  induction sub as [| c sub IH]; simpl; [reflexivity |].
  now rewrite Ascii.eqb_refl.
Qed.

Lemma occurs_in_check (sub text : string) :
  occurs_b sub text = false -> ~ occurs_in sub text.
Proof.
  intros Hb (pre & post & ->). revert Hb.
  induction pre as [| c pre IH]; cbn [String.append].
  - destruct (sub ++ post)%string eqn:E; cbn [occurs_b];
      rewrite <- E, startswith_app; discriminate.
  - cbn [occurs_b]. intros H. apply orb_false_iff in H. now apply IH.
Qed.

Lemma X13_missing_field_is_absent_witness :
  _safe_float
    (_extract_phpdump_string (dump_field "houleMax" "1.2" ++ dump_field "ventMoyen" "7")
       "houle")
  = Ret None.
Proof.
  apply (X13_missing_field_is_absent
           (dump_field "houleMax" "1.2" ++ dump_field "ventMoyen" "7") "houle").
  apply occurs_in_check. vm_compute. reflexivity.
Defined.

(** ** The entry pattern and [strptime] *)

Lemma digit_table_values (c : list ascii) (v : Z) :
  In (c, v) digit_table -> 0 <= v <= 9 /\ c <> [].
Proof.
  intros Hin.
  assert (H : forallb (fun e => (0 <=? snd e) && (snd e <=? 9)
                                && negb (is_nil (fst e))) digit_table = true)
    by (vm_compute; reflexivity).
  rewrite forallb_forall in H. specialize (H _ Hin). cbn [fst snd] in H.
  rewrite !andb_true_iff, !Z.leb_le in H.
  split; [lia |]. destruct c; [| discriminate]. destruct H as [_ H]. discriminate H.
Qed.

Lemma is_ascii_head_app (c x y : list ascii) :
  c <> [] -> is_ascii_head (c ++ x) = is_ascii_head (c ++ y).
Proof. destruct c; [contradiction | reflexivity]. Qed.

(** [\d{n}] takes [n] digits, and reads them the same whatever follows. *)
Lemma read_digits_inv (n : nat) :
  forall (s : list ascii) (ds : list (bool * Z)) (s' : list ascii),
    read_digits n s = Some (ds, s') ->
    exists t, s = t ++ s' /\ List.length ds = n
              /\ Forall (fun d => 0 <= snd d <= 9) ds
              /\ forall r, read_digits n (t ++ r) = Some (ds, r).
Proof.
  destruct digit_table_checks as (Hp & _ & _).
  induction n as [| n IH]; intros s ds s'; cbn [read_digits].
  - intros H. injection H as <- <-. exists []. repeat split; auto.
  - destruct (digit_here s) as [[v rest] |] eqn:E; cbn [obind]; [| discriminate].
    destruct (read_digits n rest) as [[ds' rest'] |] eqn:E'; cbn [obind];
      [| discriminate].
    intros H. injection H as <- <-.
    destruct (IH _ _ _ E') as (t & -> & Hlen & Hv & Hr).
    unfold digit_here in E.
    destruct (lookup_prefix_Some _ _ _ _ E) as (c & Hin & ->).
    destruct (digit_table_values c v Hin) as [Hrange Hne].
    exists (c ++ t). split; [now rewrite app_assoc |].
    split; [simpl; now rewrite Hlen |].
    split; [constructor; [exact Hrange | exact Hv] |].
    intros r. cbn [read_digits]. unfold digit_here. rewrite <- !app_assoc.
    rewrite (lookup_prefix_code digit_table Hp c (t ++ r) v Hin). cbn [obind].
    rewrite Hr. cbn [obind].
    now rewrite (is_ascii_head_app c (t ++ r) (t ++ rest') Hne).
Qed.

Lemma match_lit_inv (l s s' : list ascii) :
  match_lit l s = Some s' ->
  s = l ++ s' /\ forall r, match_lit l (l ++ r) = Some r.
Proof.
  intros H. split; [now apply match_lit_Some | intros r; apply match_lit_app].
Qed.

(** A timestamp literal is six runs of four, two, two, two, two and two
    digits, and is read the same whatever follows it. *)
Lemma read_timestamp_inv (s s' : list ascii) (t : stamp) :
  read_timestamp s = Some (t, s') ->
  exists lit, s = lit ++ s' /\ read_timestamp lit = Some (t, [])
              /\ stamp_shape t
              /\ Forall (fun d => 0 <= snd d <= 9) (stamp_digits t).
Proof.
  unfold read_timestamp.
  destruct (read_digits 4 s) as [[y s1] |] eqn:E1; cbn [obind]; [| discriminate].
  destruct (match_lit (chars "-") s1) as [s2 |] eqn:E2; cbn [obind]; [| discriminate].
  destruct (read_digits 2 s2) as [[mo s3] |] eqn:E3; cbn [obind]; [| discriminate].
  destruct (match_lit (chars "-") s3) as [s4 |] eqn:E4; cbn [obind]; [| discriminate].
  destruct (read_digits 2 s4) as [[dd s5] |] eqn:E5; cbn [obind]; [| discriminate].
  destruct (match_lit (chars " ") s5) as [s6 |] eqn:E6; cbn [obind]; [| discriminate].
  destruct (read_digits 2 s6) as [[h s7] |] eqn:E7; cbn [obind]; [| discriminate].
  destruct (match_lit (chars ":") s7) as [s8 |] eqn:E8; cbn [obind]; [| discriminate].
  destruct (read_digits 2 s8) as [[mi s9] |] eqn:E9; cbn [obind]; [| discriminate].
  destruct (match_lit (chars ":") s9) as [s10 |] eqn:E10; cbn [obind]; [| discriminate].
  destruct (read_digits 2 s10) as [[se s11] |] eqn:E11; cbn [obind]; [| discriminate].
  intros H. injection H as <- <-.
  apply read_digits_inv in E1, E3, E5, E7, E9, E11.
  apply match_lit_inv in E2, E4, E6, E8, E10.
  destruct E1 as (t1 & -> & L1 & V1 & R1), E3 as (t3 & -> & L3 & V3 & R3),
      E5 as (t5 & -> & L5 & V5 & R5), E7 as (t7 & -> & L7 & V7 & R7),
      E9 as (t9 & -> & L9 & V9 & R9), E11 as (t11 & -> & L11 & V11 & R11).
  destruct E2 as [-> R2], E4 as [-> R4], E6 as [-> R6], E8 as [-> R8],
      E10 as [-> R10].
  exists (t1 ++ chars "-" ++ t3 ++ chars "-" ++ t5 ++ chars " " ++ t7
             ++ chars ":" ++ t9 ++ chars ":" ++ t11 ++ []).
  split; [| split; [| split]].
  - rewrite app_nil_r, <- !app_assoc. reflexivity.
  - rewrite R1. cbn [obind]. rewrite R2. cbn [obind].
    rewrite R3. cbn [obind]. rewrite R4. cbn [obind].
    rewrite R5. cbn [obind]. rewrite R6. cbn [obind].
    rewrite R7. cbn [obind]. rewrite R8. cbn [obind].
    rewrite R9. cbn [obind]. rewrite R10. cbn [obind].
    rewrite R11. reflexivity.
  - unfold stamp_shape.
    cbn [Y_digits m_digits d_digits H_digits M_digits S_digits]. auto 7.
  - unfold stamp_digits.
    cbn [Y_digits m_digits d_digits H_digits M_digits S_digits].
    rewrite !Forall_app. auto 7.
Qed.

Lemma entry_here_timestamp (s rest : list ascii) (m : entry_match) :
  entry_here s = Some (m, rest) ->
  exists t, read_timestamp (chars (m_dt m)) = Some (t, [])
            /\ stamp_shape t
            /\ Forall (fun d => 0 <= snd d <= 9) (stamp_digits t).
Proof.
  unfold entry_here.
  destruct (match_lit _ s) as [s1 |]; cbv beta iota zeta delta [obind]; [| discriminate].
  destruct (read_timestamp s1) as [[t s2] |] eqn:Et; cbv beta iota zeta delta [obind]; [| discriminate].
  destruct (match_lit _ s2) as [s3 |]; cbv beta iota zeta delta [obind]; [| discriminate].
  destruct (match_lit _ _) as [s4 |]; cbv beta iota zeta delta [obind]; [| discriminate].
  destruct (match_lit _ _) as [s5 |]; cbv beta iota zeta delta [obind]; [| discriminate].
  destruct (digit_here s5); [| discriminate].
  destruct (match_lit _ _) as [s6 |]; cbv beta iota zeta delta [obind]; [| discriminate].
  destruct (digit_here s6); [| discriminate].
  destruct (match_lit _ _) as [s7 |]; cbv beta iota zeta delta [obind]; [| discriminate].
  destruct (match_lit _ _) as [s8 |]; cbv beta iota zeta delta [obind]; [| discriminate].
  destruct (spaces_then_body s8) as [[body rest'] |]; cbv beta iota zeta delta [obind]; [| discriminate].
  intros H.
  assert (Em : m_dt m
               = string_of_list_ascii (firstn (List.length s1 - List.length s2) s1)).
  { apply (f_equal (option_map (fun p => m_dt (fst p)))) in H.
    cbv beta iota delta [option_map fst] in H.
    change (m_dt (mk_match ?a ?b)) with a in H. congruence. }
  rewrite Em. clear H Em.
  apply read_timestamp_inv in Et. destruct Et as (lit & -> & Ht & Hshape & Hv).
  exists t. rewrite chars_string.
  replace (List.length (lit ++ s2) - List.length s2)%nat with (List.length lit)
    by (rewrite length_app; lia).
  rewrite firstn_app, Nat.sub_diag, firstn_O, app_nil_r, firstn_all. auto.
Qed.

Lemma finditer_from_In (s : list ascii) :
  forall (skip : nat) (m : entry_match),
    In m (finditer_from skip s) -> exists s0 rest, entry_here s0 = Some (m, rest).
Proof.
  induction s as [| c s IH]; intros skip m; cbn [finditer_from]; [contradiction |].
  destruct skip as [| k]; [| apply IH].
  destruct (entry_here (c :: s)) as [[m0 rest] |] eqn:E; [| apply IH].
  intros [<- | H]; [now exists (c :: s), rest | now apply (IH _ _ H)].
Qed.

(** Numbers written in two ASCII digits fit the directives as soon as
    they make a date and a time of day. *)
Lemma directives_of_valid (t : stamp) :
  stamp_shape t ->
  Forall (fun d => 0 <= snd d <= 9) (stamp_digits t) ->
  forallb fst (stamp_digits t) = true ->
  valid_datetime (stamp_datetime t) = true ->
  directives t = true.
Proof.
  destruct t as [y mo d h mi se]. unfold stamp_shape, stamp_digits.
  cbn [Y_digits m_digits d_digits H_digits M_digits S_digits].
  intros (_ & Lm & Ld & Lh & Lmi & Ls) Hv Ha V.
  apply valid_datetime_bounds in V. unfold stamp_datetime in V.
  cbn [year month day hour minute second Y_digits m_digits d_digits H_digits
         M_digits S_digits] in V.
  rewrite !Forall_app in Hv. rewrite !forallb_app, !andb_true_iff in Ha.
  destruct Hv as (_ & Vm & Vd & Vh & Vmi & Vs).
  destruct Ha as (_ & Am & Ad & Ah & Ami & As).
  destruct mo as [| [a1 m1] [| [a2 m2] [| ? ?]]]; try discriminate Lm.
  destruct d as [| [a3 d1] [| [a4 d2] [| ? ?]]]; try discriminate Ld.
  destruct h as [| [a5 h1] [| [a6 h2] [| ? ?]]]; try discriminate Lh.
  destruct mi as [| [a7 i1] [| [a8 i2] [| ? ?]]]; try discriminate Lmi.
  destruct se as [| [a9 s1] [| [a10 s2] [| ? ?]]]; try discriminate Ls.
  cbn [forallb fst andb] in Am, Ad, Ah, Ami, As.
  rewrite !andb_true_iff in Am, Ad, Ah, Ami, As.
  destruct Am as (-> & -> & _), Ad as (-> & -> & _), Ah as (-> & -> & _),
      Ami as (-> & -> & _), As as (-> & -> & _).
  inversion_clear Vm as [| ? ? Hm1 Vm']. inversion_clear Vm' as [| ? ? Hm2 _].
  inversion_clear Vd as [| ? ? Hd1 Vd']. inversion_clear Vd' as [| ? ? Hd2 _].
  inversion_clear Vh as [| ? ? Hh1 Vh']. inversion_clear Vh' as [| ? ? Hh2 _].
  inversion_clear Vmi as [| ? ? Hi1 Vi']. inversion_clear Vi' as [| ? ? Hi2 _].
  inversion_clear Vs as [| ? ? Hs1 Vs']. inversion_clear Vs' as [| ? ? Hs2 _].
  cbn [snd] in *. unfold int_of_digits in V. cbn [fold_left snd] in V.
  unfold directives, directive_m, directive_d, directive_H, directive_M,
    directive_S, ascii_digit.
  cbn [m_digits d_digits H_digits M_digits S_digits fst snd andb].
  rewrite !andb_true_iff, !orb_true_iff, !andb_true_iff, !Z.leb_le. lia.
Qed.

(** X14.  Every timestamp the entry pattern captures is six runs of
    four, two, two, two, two and two decimal digits.  On it [strptime]
    returns the [datetime] of the six numbers when the text fits the
    directives and the numbers make a date and a time of day, and raises
    [ValueError] when not; for a timestamp in ASCII digits the numbers
    alone decide (month 13, 30 February, 24 hours, 60 seconds and year 0
    are refused). *)
Theorem X14_matched_timestamps :
  forall (html : string) (m : entry_match),
    In m (finditer html) ->
    exists t : stamp,
      read_timestamp (chars (m_dt m)) = Some (t, [])
      /\ stamp_shape t
      /\ strptime (m_dt m)
         = (if directives t && valid_datetime (stamp_datetime t)
            then Ret (stamp_datetime t) else Raise ValueError)
      /\ (forallb fst (stamp_digits t) = true ->
          strptime (m_dt m)
          = if valid_datetime (stamp_datetime t)
            then Ret (stamp_datetime t) else Raise ValueError).
Proof.
  intros html m Hin. unfold finditer in Hin.
  apply finditer_from_In in Hin. destruct Hin as (s0 & rest & E).
  destruct (entry_here_timestamp _ _ _ E) as (t & Ht & Hshape & Hv).
  exists t. split; [exact Ht |]. split; [exact Hshape |].
  assert (Hs : strptime (m_dt m)
               = (if directives t && valid_datetime (stamp_datetime t)
                  then Ret (stamp_datetime t) else Raise ValueError))
    by (unfold strptime; now rewrite Ht).
  split; [exact Hs |].
  intros Ha. rewrite Hs.
  destruct (valid_datetime (stamp_datetime t)) eqn:V.
  - now rewrite (directives_of_valid t Hshape Hv Ha V).
  - now rewrite andb_false_r.
Qed.

Lemma X14_matched_timestamps_witness :
  exists t : stamp,
    strptime (m_dt (nth 0 (finditer barren_page) (mk_match "" "")))
    = if valid_datetime (stamp_datetime t)
      then Ret (stamp_datetime t) else Raise ValueError.
Proof.
  destruct (X14_matched_timestamps barren_page
              (nth 0 (finditer barren_page) (mk_match "" "")))
    as (t & Ht & _ & _ & H).
  - vm_compute. left. reflexivity.
  - exists t. apply H.
    assert (E : Some (t, @nil ascii)
                = read_timestamp
                    (chars (m_dt (nth 0 (finditer barren_page) (mk_match "" "")))))
      by (symmetry; exact Ht).
    vm_compute in E. injection E as ->. reflexivity.
Defined.

(** ** The exported function, outcome by outcome *)

(** [makedirs] touches directories only, and fails with [OSError] only. *)
Lemma makedirs_from_frame (rest : list string) :
  forall (pre : list string) (w w' : world) (r : result unit),
    makedirs_from pre rest w = (r, w') ->
    http w' = http w /\ cwd w' = cwd w /\ files w' = files w
    /\ stdout w' = stdout w
    /\ (r = Ret tt \/ r = Raise OSError).
Proof.
  induction rest as [| c rest IH]; intros pre w w' r; cbn [makedirs_from].
  - intros H. injection H as <- <-. auto 6.
  - destruct (key_is_file w (pre ++ [c])).
    + intros H. injection H as <- <-. auto 6.
    + intros H. apply IH in H.
      destruct (key_is_dir w (pre ++ [c])); exact H.
Qed.

Lemma _ensure_parent_dir_frame (path : string) (w w' : world) (r : result unit) :
  _ensure_parent_dir path w = (r, w') ->
  http w' = http w /\ cwd w' = cwd w /\ files w' = files w
  /\ stdout w' = stdout w
  /\ (r = Ret tt \/ r = Raise OSError).
Proof.
  unfold _ensure_parent_dir. destruct (_ && _).
  - unfold makedirs. apply makedirs_from_frame.
  - intros H. injection H as <- <-. auto 6.
Qed.

Lemma write_file_cases (path : string) (lines : list string) (w w' : world)
      (r : result unit) :
  write_file path lines w = (r, w') ->
  (r = Raise OSError /\ w' = w)
  \/ (r = Ret tt
      /\ w' = mk_world (http w) (cwd w) (dirs w)
                ((path_key w path, lines)
                   :: filter (fun f => negb (key_eqb (path_key w path) (fst f)))
                        (files w))
                (stdout w)).
Proof.
  unfold write_file. destruct (_ || _); intros H; injection H as <- <-; auto.
Qed.

(** Every way the exported function can end. *)
Lemma scrape_surf_report_cases (url : string) (out : option string) (w : world) :
  let run := scrape_surf_report url out w in
  (exists e, http w url = Raise e /\ run = (Raise e, w))
  \/ exists resp,
       http w url = Ret resp
       /\ ((raise_for_status resp = Raise HTTPError /\ run = (Raise HTTPError, w))
           \/ (raise_for_status resp = Ret tt
               /\ ((exists e, collect_rows [] (finditer (text resp)) = Raise e
                              /\ run = (Raise e, w))
                   \/ (collect_rows [] (finditer (text resp)) = Ret []
                       /\ run = (Raise (RuntimeError no_data_message), w))
                   \/ exists rows w1,
                        collect_rows [] (finditer (text resp)) = Ret rows
                        /\ rows <> []
                        /\ let df := mk_frame COLUMNS
                                       (map row_cells (first_seven_days rows)) in
                           let out_path := _normalize_output_path w out in
                           ((_ensure_parent_dir out_path w = (Raise OSError, w1)
                             /\ run = (Raise OSError, w1))
                            \/ (_ensure_parent_dir out_path w = (Ret tt, w1)
                                /\ ((write_file out_path (csv_lines df) w1
                                     = (Raise OSError, w1)
                                     /\ run = (Raise OSError, w1))
                                    \/ (write_file out_path (csv_lines df) w1
                                        = (Ret tt,
                                           mk_world (http w1) (cwd w1) (dirs w1)
                                             ((path_key w1 out_path, csv_lines df)
                                                :: filter
                                                     (fun f =>
                                                        negb (key_eqb (path_key w1 out_path)
                                                                (fst f)))
                                                     (files w1))
                                             (stdout w1))
                                        /\ run
                                           = (Ret df,
                                              world_after_write w1
                                                (path_key w1 out_path) (csv_lines df)
                                                ("[surf_scrap] CSV sauvegardé : "
                                                   ++ out_path)%string)))))))).
Proof.
  cbv zeta. unfold scrape_surf_report, io_bind, io_lift, io_ret.
  destruct (http w url) as [resp | e]; [right; exists resp | left; exists e; split; reflexivity].
  split; [reflexivity |].
  assert (Hrs : raise_for_status resp = Raise HTTPError
                \/ raise_for_status resp = Ret tt)
    by (unfold raise_for_status; destruct (_ && _); auto).
  destruct Hrs as [E | E]; rewrite E; [left; split; reflexivity | right].
  split; [reflexivity |].
  destruct (collect_rows [] (finditer (text resp))) as [rows | e];
    [| left; exists e; split; reflexivity].
  right. destruct rows as [| r0 rows']; [left; split; reflexivity | right]. cbn [is_nil].
  destruct (first_seven_days_nonempty (r0 :: rows') ltac:(discriminate)) as [df Edf].
  assert (Edf' : select_columns (first_seven_days (r0 :: rows'))
                 = Ret (mk_frame COLUMNS (map row_cells (first_seven_days (r0 :: rows'))))).
  { unfold select_columns in *. destruct (first_seven_days (r0 :: rows'));
      [discriminate | reflexivity]. }
  rewrite Edf'.
  destruct (_ensure_parent_dir (_normalize_output_path w out) w) as [r1 w1] eqn:E1.
  exists (r0 :: rows'), w1. split; [reflexivity |]. split; [discriminate |].
  destruct (_ensure_parent_dir_frame _ _ _ _ E1) as (_ & _ & _ & _ & [-> | ->]);
    [right | left; split; reflexivity].
  split; [reflexivity |].
  destruct (write_file (_normalize_output_path w out) _ w1) as [r2 w2] eqn:E2.
  destruct (write_file_cases _ _ _ _ _ E2) as [[-> ->] | [-> ->]]; [left; split; reflexivity |].
  right. split; reflexivity.
Qed.





(** X17.  What a run that returns has done: the page was fetched with a
    status outside 400..599, the first loop collected at least one row,
    the table returned is the sorted and cut rows under the five columns,
    the file at the resolved path holds exactly the header and the lines
    of that table, every other file is as it was, and one line naming the
    resolved path has been printed. *)
Theorem X17_returned_run :
  forall (url : string) (out : option string) (w w' : world) (df : DataFrame),
    scrape_surf_report url out w = (Ret df, w') ->
    exists resp rows,
      http w url = Ret resp
      /\ raise_for_status resp = Ret tt
      /\ collect_rows [] (finditer (text resp)) = Ret rows
      /\ rows <> []
      /\ df = mk_frame COLUMNS (map row_cells (first_seven_days rows))
      /\ let out_path := _normalize_output_path w out in
         let k := path_key w out_path in
         files w'
         = (k, csv_lines df) :: filter (fun f => negb (key_eqb k (fst f))) (files w)
         /\ stdout w'
            = stdout w ++ [("[surf_scrap] CSV sauvegardé : " ++ out_path)%string]
         /\ key_is_dir w' (removelast k) = true.
Proof.
  intros url out w w' df Hrun.
  pose proof (scrape_surf_report_cases url out w) as H. cbv zeta in H.
  rewrite Hrun in H.
  destruct H as [(e0 & _ & H) | (resp & Hget & [[_ H] | [Hst H]])];
    try discriminate H.
  destruct H as [(e0 & _ & H) | [[_ H] | (rows & w1 & Hrows & Hne & H)]];
    try discriminate H.
  destruct H as [[_ H] | [Hdir [[_ H] | [Hwr H]]]]; try discriminate H.
  injection H as -> ->.
  exists resp, rows. do 5 (split; [assumption || reflexivity |]).
  destruct (_ensure_parent_dir_frame _ _ _ _ Hdir) as (_ & Hc & Hf & Hs & _).
  assert (Hk : path_key w1 (_normalize_output_path w out)
               = path_key w (_normalize_output_path w out))
    by (apply path_key_same_cwd; exact Hc).
  cbv zeta. unfold world_after_write. cbn [files stdout].
  rewrite Hk, Hf, Hs. split; [reflexivity |]. split; [reflexivity |].
  unfold write_file in Hwr. rewrite Hk in Hwr.
  destruct (key_is_dir w1 (path_key w (_normalize_output_path w out))
            || negb (key_is_dir w1 (removelast
                                      (path_key w (_normalize_output_path w out)))))
    eqn:E; [discriminate Hwr |].
  apply orb_false_iff in E. destruct E as [_ E].
  apply negb_false_iff in E. exact E.
Qed.

Lemma X17_returned_run_witness :
  let w := sample_world ten_days_page in
  let run := scrape_surf_report "u" (Some "out/report.csv") w in
  exists resp rows,
    http w "u" = Ret resp
    /\ raise_for_status resp = Ret tt
    /\ collect_rows [] (finditer (text resp)) = Ret rows
    /\ rows <> []
    /\ mk_frame COLUMNS (map row_cells (first_seven_days (rows_of_page ten_days_page)))
       = mk_frame COLUMNS (map row_cells (first_seven_days rows))
    /\ let out_path := _normalize_output_path w (Some "out/report.csv") in
       let k := path_key w out_path in
       files (snd run)
       = (k, csv_lines (mk_frame COLUMNS
                          (map row_cells
                             (first_seven_days (rows_of_page ten_days_page)))))
           :: filter (fun f => negb (key_eqb k (fst f))) (files w)
       /\ stdout (snd run)
          = stdout w ++ [("[surf_scrap] CSV sauvegardé : " ++ out_path)%string]
       /\ key_is_dir (snd run) (removelast k) = true.
Proof.
  cbv zeta.
  apply (X17_returned_run "u" (Some "out/report.csv") (sample_world ten_days_page)).
  vm_compute. reflexivity.
Defined.

(** ** The table of a run that returns *)

(** A labelling that follows another has no more distinct labels. *)
Lemma distinct_length_coarser {A : Type} (f g : A -> string) (l : list A) :
  (forall a b, In a l -> In b l -> g a = g b -> f a = f b) ->
  (List.length (distinct (map f l)) <= List.length (distinct (map g l)))%nat.
Proof.
  induction l as [| x l IH] using rev_ind; intros H; [simpl; lia |].
  rewrite !map_app. cbn [map]. rewrite !distinct_snoc.
  assert (IH' : (List.length (distinct (map f l))
                 <= List.length (distinct (map g l)))%nat).
  { apply IH. intros a b Ha Hb. apply H; rewrite in_app_iff; auto. }
  destruct (str_in (f x) (distinct (map f l))) eqn:Ef;
    destruct (str_in (g x) (distinct (map g l))) eqn:Eg;
    rewrite ?length_app; simpl; try lia.
  exfalso. apply str_in_In in Eg. apply str_in_not_In in Ef.
  apply Ef. rewrite distinct_In, in_map_iff in *.
  destruct Eg as (y & Ey & Hy). exists y. split; [| exact Hy].
  apply (H y x); rewrite ?in_app_iff; simpl; auto.
Qed.

Lemma collect_rows_cells (ms : list entry_match) (rows : list row) :
  collect_rows [] ms = Ret rows ->
  Forall (fun r => row_ok r /\ Forall (fun c => c <> "") (row_cells r)) rows.
Proof.
  intros H.
  apply (collect_rows_Forall _ ms) with (rows := []); [| constructor | exact H].
  intros rows0 m rows' HP Hstep. apply entry_step_cases in Hstep.
  destruct Hstep
    as [-> | (r & h & hm & v & d & -> & _ & _ & _ & _ & Hdt & Hd & Ht & Hin & Hc)];
    [exact HP |].
  apply Forall_app. split; [exact HP |]. constructor; [| constructor].
  split; [| exact Hc].
  split; [exact (strptime_valid _ _ Hdt) |]. auto.
Qed.

Lemma first_seven_days_incl (rows : list row) (r : row) :
  In r (first_seven_days rows) -> In r rows.
Proof.
  intros Hr. destruct (first_seven_days_spec rows) as (post & E & _).
  apply (Permutation_in _ (Permutation_sym (sort_rows_perm rows))).
  rewrite E, in_app_iff. now left.
Qed.

(** X18.  The table of a run that returns.  It has the five columns and
    at least one record; every record has five cells, none of them empty,
    its time one of the six hours; the records bear seven distinct date
    labels at most; and the file written has one line more than the table
    has records. *)
Theorem X18_table_of_a_run :
  forall (url : string) (out : option string) (w w' : world) (df : DataFrame),
    scrape_surf_report url out w = (Ret df, w') ->
    columns df = COLUMNS
    /\ records df <> []
    /\ Forall (fun record => List.length record = 5%nat
                             /\ Forall (fun c => c <> "") record
                             /\ In (cell 1 record) target_times) (records df)
    /\ (List.length (distinct (map (cell 0) (records df))) <= 7)%nat
    /\ List.length (csv_lines df) = S (List.length (records df)).
Proof.
  intros url out w w' df Hrun.
  pose proof (scrape_surf_report_cases url out w) as H. cbv zeta in H.
  rewrite Hrun in H.
  destruct H as [(e0 & _ & H) | (resp & Hget & [[_ H] | [Hst H]])];
    try discriminate H.
  destruct H as [(e0 & _ & H) | [[_ H] | (rows & w1 & Hrows & Hne & H)]];
    try discriminate H.
  destruct H as [[_ H] | [Hdir [[_ H] | [Hwr H]]]]; try discriminate H.
  injection H as -> _. cbn [columns records].
  pose proof (collect_rows_cells _ _ Hrows) as Hcells.
  rewrite Forall_forall in Hcells.
  assert (Hout : forall r, In r (first_seven_days rows) ->
                           row_ok r /\ Forall (fun c => c <> "") (row_cells r)).
  { intros r Hr. apply Hcells. now apply first_seven_days_incl. }
  split; [reflexivity |]. split; [| split; [| split]].
  - destruct (first_seven_days_nonempty rows Hne) as [df E].
    unfold select_columns in E.
    destruct (first_seven_days rows); [discriminate E | discriminate].
  - rewrite Forall_map. apply Forall_forall. intros r Hr.
    destruct (Hout r Hr) as [(_ & _ & _ & Ht) Hc].
    split; [reflexivity |]. split; [exact Hc |].
    apply str_in_In. exact Ht.
  - rewrite map_map.
    change (map (fun x => cell 0 (row_cells x)) (first_seven_days rows))
      with (map Date (first_seven_days rows)).
    destruct (first_seven_days_spec rows) as (post & _ & Hl & _).
    unfold day_keys in Hl.
    eapply Nat.le_trans; [| exact Hl].
    apply distinct_length_coarser. intros a b Ha Hb.
    apply row_ok_same_day_same_label; [apply (Hout a Ha) | apply (Hout b Hb)].
  - unfold csv_lines. cbn [columns records List.length].
    now rewrite !length_map.
Qed.

Lemma X18_table_of_a_run_witness :
  let df := mk_frame COLUMNS
              (map row_cells (first_seven_days (rows_of_page ten_days_page))) in
  columns df = COLUMNS
  /\ records df <> []
  /\ Forall (fun record => List.length record = 5%nat
                           /\ Forall (fun c => c <> "") record
                           /\ In (cell 1 record) target_times) (records df)
  /\ (List.length (distinct (map (cell 0) (records df))) <= 7)%nat
  /\ List.length (csv_lines df) = S (List.length (records df)).
Proof.
  cbv zeta.
  apply (X18_table_of_a_run "u" (Some "out/report.csv") (sample_world ten_days_page)
           (snd (scrape_surf_report "u" (Some "out/report.csv")
                   (sample_world ten_days_page)))).
  vm_compute. reflexivity.
Defined.

(** ** The parent of a path *)

Lemma slash_free_chars (l : string) :
  slash_free l = true -> Forall (fun c => negb (is_slash c) = true) (chars l).
Proof.
  unfold chars. induction l as [| c l IH]; cbn [slash_free list_ascii_of_string];
    [constructor |].
  intros H. apply andb_true_iff in H. destruct H as [Hc Hl].
  constructor; [exact Hc | exact (IH Hl)].
Qed.

Lemma drop_while_all (p : ascii -> bool) (ws l : list ascii) :
  Forall (fun c => p c = true) ws -> drop_while p (ws ++ l) = drop_while p l.
Proof.
  induction 1 as [| c ws Hc _ IH]; simpl; [reflexivity | now rewrite Hc].
Qed.

(** [dirname] drops what follows the last slash. *)
Lemma dirname_app_component (p l : string) :
  slash_free l = true -> dirname (p ++ l)%string = dirname p.
Proof.
  intros Hl. unfold dirname. rewrite chars_app, rev_app_distr.
  rewrite drop_while_all; [reflexivity |].
  apply Forall_rev. now apply slash_free_chars.
Qed.

Lemma dirname_trailing_slash (q : string) (c : ascii) :
  is_slash c = false ->
  dirname ((q ++ String c "") ++ "/")%string = (q ++ String c "")%string.
Proof.
  intros Hc. unfold dirname. rewrite !chars_app.
  change (chars (String c "")) with [c]. change (chars "/") with ["/"%char].
  rewrite !rev_app_distr. cbn [rev app drop_while].
  change (is_slash "/") with true. cbn [negb drop_while].
  change (is_slash "/") with true. rewrite Hc.
  cbn [rev]. rewrite rev_involutive.
  change [c] with (chars (String c "")). rewrite <- chars_app.
  apply string_chars.
Qed.

Lemma slash_free_last (s : string) :
  s <> "" -> slash_free s = true ->
  exists q c, s = (q ++ String c "")%string /\ is_slash c = false.
Proof.
  induction s as [| a s IH]; [contradiction |]. intros _ H.
  cbn [slash_free] in H. apply andb_true_iff in H. destruct H as [Ha Hs].
  destruct s as [| b s'].
  - exists "", a. split; [reflexivity |]. now apply negb_true_iff in Ha.
  - destruct (IH ltac:(discriminate) Hs) as (q & c & E & Hc).
    exists (String a q), c. split; [| exact Hc]. cbn [String.append]. now rewrite E.
Qed.

Lemma join_last_char (comps : list string) :
  Forall clean comps -> comps <> [] ->
  exists q c, join_with "/" comps = (q ++ String c "")%string /\ is_slash c = false.
Proof.
  induction 1 as [| x comps Hx _ IH]; intros Hne; [contradiction |].
  destruct comps as [| y rest].
  - destruct Hx as (Hf & Hn & _). now apply slash_free_last.
  - destruct (IH ltac:(discriminate)) as (q & c & E & Hc).
    exists (x ++ "/" ++ q)%string, c. split; [| exact Hc].
    change (join_with "/" (x :: y :: rest))
      with (x ++ "/" ++ join_with "/" (y :: rest))%string.
    rewrite E. now rewrite !string_app_assoc.
Qed.

Lemma join_snoc (init : list string) (l : string) :
  init <> [] ->
  join_with "/" (init ++ [l]) = (join_with "/" init ++ "/" ++ l)%string.
Proof.
  induction init as [| x init IH]; intros Hne; [contradiction |].
  destruct init as [| y rest]; [reflexivity |].
  change (join_with "/" ((x :: y :: rest) ++ [l]))
    with (x ++ "/" ++ join_with "/" ((y :: rest) ++ [l]))%string.
  rewrite IH by discriminate.
  change (join_with "/" (x :: y :: rest))
    with (x ++ "/" ++ join_with "/" (y :: rest))%string.
  now rewrite !string_app_assoc.
Qed.

(** The parent of a normalised absolute path: the same leading slashes,
    the components but the last. *)
Lemma dirname_canonical (i : Z) (comps : list string) :
  i = 1 \/ i = 2 -> Forall clean comps ->
  dirname (slashes i ++ join_with "/" comps)%string
  = (slashes i ++ join_with "/" (removelast comps))%string.
Proof.
  intros Hi Hc.
  destruct comps as [| x comps'] using rev_ind.
  - destruct Hi as [-> | ->]; reflexivity.
  - clear IHcomps'. rewrite removelast_last.
    apply Forall_app in Hc. destruct Hc as [Hinit Hx].
    apply Forall_inv in Hx. destruct Hx as (Hfree & _).
    destruct comps' as [| y rest].
    + cbn [app join_with]. rewrite dirname_app_component by exact Hfree.
      destruct Hi as [-> | ->]; reflexivity.
    + rewrite join_snoc by discriminate.
      rewrite <- !string_app_assoc. rewrite dirname_app_component by exact Hfree.
      destruct (join_last_char (y :: rest) Hinit ltac:(discriminate))
        as (q & c & E & Hcs).
      rewrite E. rewrite <- (string_app_assoc (slashes i) q).
      now apply dirname_trailing_slash.
Qed.

(** The parent of the absolute path, in both forms. *)
Lemma dirname_abspath (w : world) (path : string) :
  absolute_cwd w ->
  exists i comps,
    (i = 1 \/ i = 2)
    /\ Forall clean comps
    /\ path_key w path = comps
    /\ dirname (abspath w path)
       = (slashes i ++ join_with "/" (removelast comps))%string
    /\ path_key w (dirname (abspath w path)) = removelast comps.
Proof.
  intros Hw.
  destruct (abspath_rooted w path Hw) as (i & comps & Hi & Hc & Ea & Ek).
  exists i, comps. rewrite Ea, dirname_canonical by assumption.
  pose proof (Forall_removelast _ _ Hc) as Hc'.
  assert (Hs : startswith "/" (slashes i ++ join_with "/" (removelast comps))%string
               = true) by (destruct Hi as [-> | ->]; reflexivity).
  repeat (split; [assumption || reflexivity |]).
  rewrite path_key_rooted by exact Hs. now apply canonical_components.
Qed.

(** X19.  The parent that [_ensure_parent_dir] computes.  The directory
    name of the absolute path is itself an absolute normalised path, and
    it names the path less its last component; the parent of the root is
    the root. *)
Theorem X19_parent_of_a_path :
  forall (w : world) (path : string),
    absolute_cwd w ->
    let parent := dirname (abspath w path) in
    abspath w parent = parent
    /\ path_key w parent = removelast (path_key w path)
    /\ (path_key w path = [] -> path_key w parent = []).
Proof.
  intros w path Hw. cbv zeta.
  destruct (dirname_abspath w path Hw) as (i & comps & Hi & Hc & Ek & Ed & Ep).
  rewrite Ek, Ep, Ed.
  split; [| split; [reflexivity | now intros ->]].
  unfold abspath.
  assert (Hs : startswith "/" (slashes i ++ join_with "/" (removelast comps))%string
               = true) by (destruct Hi as [-> | ->]; reflexivity).
  rewrite Hs. apply normpath_canonical; [exact Hi |].
  now apply Forall_removelast.
Qed.

Lemma X19_parent_of_a_path_witness :
  let w := sample_world barren_page in
  let parent := dirname (abspath w "out/../reports//daily/./report.csv") in
  abspath w parent = parent
  /\ path_key w parent = removelast (path_key w "out/../reports//daily/./report.csv")
  /\ (path_key w "out/../reports//daily/./report.csv" = [] -> path_key w parent = []).
Proof.
  apply (X19_parent_of_a_path (sample_world barren_page)
           "out/../reports//daily/./report.csv").
  reflexivity.
Defined.

(** ** Making the parent directory *)

Lemma key_eqb_eq (a : list string) :
  forall b, key_eqb a b = true -> a = b.
Proof.
  induction a as [| x a IH]; intros [| y b]; cbn [key_eqb]; try discriminate;
    [reflexivity |].
  intros H. apply andb_true_iff in H. destruct H as [Hx Hab].
  apply String.eqb_eq in Hx. now rewrite Hx, (IH b Hab).
Qed.

Lemma key_is_dir_add_inv (w : world) (k x : list string) :
  key_is_dir (add_dir w k) x = true -> key_is_dir w x = true \/ x = k.
Proof.
  unfold key_is_dir, add_dir. cbn [dirs]. rewrite existsb_app. cbn [existsb].
  rewrite orb_false_r.
  destruct (is_nil x); [now left |]. cbn [orb].
  destruct (existsb (key_eqb x) (dirs w)); [now left |]. cbn [orb].
  intros H. right. now apply key_eqb_eq.
Qed.

(** Whatever its outcome, [makedirs] removes no directory and makes none
    but those on the way to its target. *)
Lemma makedirs_from_dirs (rest : list string) :
  forall (pre : list string) (w w' : world) (r : result unit),
    makedirs_from pre rest w = (r, w') ->
    (forall x, key_is_dir w x = true -> key_is_dir w' x = true)
    /\ (forall x, key_is_dir w' x = true ->
                  key_is_dir w x = true
                  \/ exists n, (n < List.length rest)%nat
                               /\ x = pre ++ firstn (S n) rest).
Proof.
  induction rest as [| c rest IH]; intros pre w w' r; cbn [makedirs_from].
  - intros H. injection H as _ <-. auto.
  - destruct (key_is_file w (pre ++ [c])).
    + intros H. injection H as _ <-. auto.
    + intros H. apply IH in H. destruct H as [Hmono Honly]. split.
      * intros x Hx. apply Hmono.
        destruct (key_is_dir w (pre ++ [c])); [exact Hx |].
        now apply key_is_dir_add_mono.
      * intros x Hx. destruct (Honly x Hx) as [Hold | (n & Hn & ->)].
        -- destruct (key_is_dir w (pre ++ [c])); [now left |].
           apply key_is_dir_add_inv in Hold. destruct Hold as [Hold | ->];
             [now left |].
           right. exists 0%nat. cbn [List.length firstn]. split; [lia | reflexivity].
        -- right. exists (S n). cbn [List.length]. split; [lia |].
           rewrite <- app_assoc. reflexivity.
Qed.




(** Every outcome of [_ensure_parent_dir], seen from the key of the
    parent. *)
Lemma _ensure_parent_dir_cases (w : world) (path : string) :
  absolute_cwd w ->
  let pk := removelast (path_key w path) in
  (key_is_dir w pk || key_is_file w pk = true
   /\ _ensure_parent_dir path w = (Ret tt, w))
  \/ (key_is_dir w pk || key_is_file w pk = false
      /\ _ensure_parent_dir path w = makedirs_from [] pk w).
Proof.
  intros Hw. cbv zeta. unfold _ensure_parent_dir.
  assert (Hne : (dirname (abspath w path) =? "")%string = false).
  { apply String.eqb_neq, dirname_rooted_nonempty. now apply abspath_absolute. }
  rewrite Hne. cbn [negb andb]. unfold path_exists, makedirs.
  destruct (dirname_abspath w path Hw) as (i & comps & _ & _ & Ek & _ & Ep).
  rewrite Ep, Ek.
  destruct (key_is_dir w (removelast comps) || key_is_file w (removelast comps));
    cbn [negb]; auto.
Qed.

(** X20.  What [_ensure_parent_dir] does to the directories.  Whether it
    returns or raises, it leaves the files and the output alone, removes
    no directory, and makes no directory but the parent of the path and
    its ancestors.  Once it has returned, the parent is there, and a
    second call changes nothing. *)
Theorem X20_ensure_parent_dir_effects :
  forall (w w' : world) (path : string) (r : result unit),
    absolute_cwd w ->
    _ensure_parent_dir path w = (r, w') ->
    let pk := removelast (path_key w path) in
    files w' = files w
    /\ stdout w' = stdout w
    /\ (forall x, key_is_dir w x = true -> key_is_dir w' x = true)
    /\ (forall x, key_is_dir w' x = true ->
                  key_is_dir w x = true
                  \/ exists n, (n < List.length pk)%nat /\ x = firstn (S n) pk)
    /\ (r = Ret tt ->
        key_is_dir w' pk || key_is_file w' pk = true
        /\ _ensure_parent_dir path w' = (Ret tt, w')).
Proof.
  intros w w' path r Hw Hrun. cbv zeta.
  destruct (_ensure_parent_dir_frame _ _ _ _ Hrun) as (_ & Hc & Hf & Hs & _).
  split; [exact Hf |]. split; [exact Hs |].
  assert (Hw' : absolute_cwd w') by (unfold absolute_cwd; now rewrite Hc).
  destruct (_ensure_parent_dir_cases w path Hw) as [[Hex E] | [Hex E]];
    rewrite E in Hrun.
  - injection Hrun as <- <-. split; [auto |]. split; [auto |].
    intros _. split; [exact Hex | exact E].
  - destruct (makedirs_from_dirs _ _ _ _ _ Hrun) as [Hmono Honly].
    split; [exact Hmono |]. split; [exact Honly |].
    intros ->. apply makedirs_from_spec in Hrun.
    destruct Hrun as (_ & _ & _ & Hmade). cbn [app] in Hmade.
    assert (Hdir : key_is_dir w' (removelast (path_key w path)) = true).
    { destruct (removelast (path_key w path)) as [| a l] eqn:El;
        [reflexivity | apply Hmade; discriminate]. }
    split; [now rewrite Hdir |].
    destruct (_ensure_parent_dir_cases w' path Hw') as [[_ E'] | [Hex' _]];
      [exact E' |].
    rewrite (path_key_same_cwd w w' path Hc), Hdir in Hex'. discriminate.
Qed.

Lemma X20_ensure_parent_dir_effects_witness :
  let w := sample_world barren_page in
  let w' := snd (_ensure_parent_dir "out/daily/report.csv" w) in
  let pk := removelast (path_key w "out/daily/report.csv") in
  files w' = files w
  /\ stdout w' = stdout w
  /\ (forall x, key_is_dir w x = true -> key_is_dir w' x = true)
  /\ (forall x, key_is_dir w' x = true ->
                key_is_dir w x = true
                \/ exists n, (n < List.length pk)%nat /\ x = firstn (S n) pk)
  /\ (Ret tt = Ret tt ->
      key_is_dir w' pk || key_is_file w' pk = true
      /\ _ensure_parent_dir "out/daily/report.csv" w' = (Ret tt, w')).
Proof.
  apply (X20_ensure_parent_dir_effects (sample_world barren_page)
           (snd (_ensure_parent_dir "out/daily/report.csv" (sample_world barren_page)))
           "out/daily/report.csv" (Ret tt)).
  - reflexivity.
  - vm_compute. reflexivity.
Defined.

(** ** When a run returns *)




(** ** The resolved path *)

Lemma ends_with_slash_snoc (q : string) (c : ascii) :
  ends_with_slash (q ++ String c "")%string = is_slash c.
Proof.
  induction q as [| a q IH]; [reflexivity |].
  destruct q as [| b q']; [reflexivity |]. exact IH.
Qed.

(** Joining a clean component to a normalised absolute path gives a
    normalised absolute path. *)
Lemma path_join_canonical (i : Z) (comps : list string) (c : string) :
  i = 1 \/ i = 2 -> Forall clean comps -> clean c ->
  path_join (slashes i ++ join_with "/" comps)%string c
  = (slashes i ++ join_with "/" (comps ++ [c]))%string.
Proof.
  intros Hi Hc Hclean. unfold path_join.
  rewrite (clean_no_leading_slash c Hclean).
  destruct comps as [| y rest].
  - destruct Hi as [-> | ->]; reflexivity.
  - rewrite join_snoc by discriminate.
    destruct (join_last_char (y :: rest) Hc ltac:(discriminate))
      as (q & x & E & Hx).
    rewrite E.
    assert (Hend : ends_with_slash (slashes i ++ q ++ String x "")%string = false)
      by (rewrite <- string_app_assoc, ends_with_slash_snoc; exact Hx).
    rewrite Hend, orb_false_r.
    assert (Hne : ((slashes i ++ q ++ String x "")%string =? "")%string = false)
      by (destruct Hi as [-> | ->]; reflexivity).
    rewrite Hne. now rewrite !string_app_assoc.
Qed.

(** X22.  The resolved path is stable.  [_normalize_output_path] always
    gives an absolute path; for a given path it gives an absolute
    normalised one, which resolves to itself as long as it does not name a
    directory. *)
Theorem X22_resolved_path_is_stable :
  forall (w : world) (out : option string),
    absolute_cwd w ->
    let resolved := _normalize_output_path w out in
    startswith "/" resolved = true
    /\ (out <> None ->
        abspath w resolved = resolved
        /\ (isdir w resolved = false ->
            _normalize_output_path w (Some resolved) = resolved)).
Proof.
  intros w out Hw. cbv zeta.
  assert (Hgiven : forall p, abspath w (_normalize_output_path w (Some p))
                             = _normalize_output_path w (Some p)).
  { intros p. cbn [_normalize_output_path].
    destruct (abspath_rooted w p Hw) as (i & comps & Hi & Hc & Ea & _).
    destruct (isdir w (abspath w p)).
    - rewrite Ea, path_join_canonical by (auto using data_surf_clean).
      unfold abspath.
      assert (Hs : startswith "/"
                     (slashes i ++ join_with "/" (comps ++ ["data_surf.csv"]))%string
                   = true) by (destruct Hi as [-> | ->]; reflexivity).
      rewrite Hs. apply normpath_canonical; [exact Hi |].
      apply Forall_app. split; [exact Hc |].
      constructor; [exact data_surf_clean | constructor].
    - now apply abspath_idempotent. }
  destruct out as [p |].
  - split.
    + rewrite <- Hgiven. now apply abspath_absolute.
    + intros _. split; [apply Hgiven |].
      intros Hdir. cbn [_normalize_output_path] in *.
      rewrite !Hgiven. rewrite Hdir. reflexivity.
  - split; [| intros H; now contradiction H].
    cbn [_normalize_output_path]. unfold path_join.
    change (startswith "/" "data_surf.csv") with false. cbv iota.
    destruct ((cwd w =? "")%string || ends_with_slash (cwd w));
      now apply startswith_slash_app.
Qed.

Lemma X22_resolved_path_is_stable_witness :
  let w := sample_world barren_page in
  let resolved := _normalize_output_path w (Some "../surf/./out") in
  startswith "/" resolved = true
  /\ (Some "../surf/./out" <> None ->
      abspath w resolved = resolved
      /\ (isdir w resolved = false ->
          _normalize_output_path w (Some resolved) = resolved)).
Proof.
  apply (X22_resolved_path_is_stable (sample_world barren_page)
           (Some "../surf/./out")).
  reflexivity.
Defined.

(** ** Where the file lands *)




